(** * Localis first-run tutorial: narrator engine (FRT) and questionnaire (RPG)

    A shallow embedding of the onboarding sequencer of [app.js]: the
    typewriter animator, the step renderer, the narrator state machine with
    its required-action gates, the name substitution layer, the questionnaire
    wizard with its prompt generator, and the two commit handlers.

    Text is [string].  ASCII text is exact.  [trim], the [\s] class and
    [toLowerCase] are modelled on ASCII (TAB, LF, VT, FF, CR, SP; A-Z);
    characters outside ASCII are carried as their UTF-8 bytes and are left
    untouched by them, which agrees with JavaScript wherever a text has
    no non-ASCII white space and no non-ASCII cased letter.

    A handler is one function from state to state.  An [async] handler is
    run until its promise resolves; what it awaits from outside (a server
    answer, the clicks that arrive while a part is typing) is an argument.
    Timers that only schedule cosmetic changes are not run; the page is
    the application's own, with every element the script looks up, except
    where a handler itself provides for a missing element. *)

From Stdlib Require Import String Ascii List Bool Arith Lia.
Import ListNotations.
Open Scope string_scope.
Open Scope nat_scope.

(** ** String primitives of the host language *)

Module JS.

Definition nl : string := String (ascii_of_nat 10) "".
Definition dq : string := String (ascii_of_nat 34) "".

(** A string is truthy when it is not empty. *)
Definition truthy (s : string) : bool :=
  match s with "" => false | _ => true end.

Definition isWhiteSpace (c : ascii) : bool :=
  let n := nat_of_ascii c in
  ((9 <=? n) && (n <=? 13)) || (n =? 32).

Fixpoint trimStart (s : string) : string :=
  match s with
  | "" => ""
  | String c r => if isWhiteSpace c then trimStart r else s
  end.

Fixpoint trimEnd (s : string) : string :=
  match s with
  | "" => ""
  | String c r =>
      let r' := trimEnd r in
      if isWhiteSpace c && negb (truthy r') then "" else String c r'
  end.

(** [String.prototype.trim] *)
Definition trim (s : string) : string := trimEnd (trimStart s).

Definition lowerChar (c : ascii) : ascii :=
  let n := nat_of_ascii c in
  if (65 <=? n) && (n <=? 90) then ascii_of_nat (n + 32) else c.

(** [String.prototype.toLowerCase] *)
Fixpoint toLowerCase (s : string) : string :=
  match s with
  | "" => ""
  | String c r => String (lowerChar c) (toLowerCase r)
  end.

(** [s.startsWith(p)], returning what follows the prefix. *)
Fixpoint stripPrefix (p s : string) : option string :=
  match p, s with
  | "", _ => Some s
  | String a p', String b s' =>
      if Ascii.eqb a b then stripPrefix p' s' else None
  | _, "" => None
  end.

Definition startsWith (p s : string) : bool :=
  match stripPrefix p s with Some _ => true | None => false end.

(** [Array.prototype.join] *)
Fixpoint join (sep : string) (l : list string) : string :=
  match l with
  | [] => ""
  | [x] => x
  | x :: r => x ++ sep ++ join sep r
  end.

(** Lookup in an object literal used as a table ([table[key]]). *)
Fixpoint lookup {A : Type} (key : string) (table : list (string * A)) : option A :=
  match table with
  | [] => None
  | (k, v) :: r => if String.eqb key k then Some v else lookup key r
  end.

(** The replacement-text patterns of [String.prototype.replace] for a regular
    expression without capture groups: [$$], [$&], [$`] and [$'] are
    expanded; every other character, a [$] before a digit included, is
    literal. *)
Fixpoint getSubstitution (repl matched before after : string) : string :=
  match repl with
  | "" => ""
  | String c r =>
      if Ascii.eqb c "$" then
        match r with
        | String d r' =>
            if Ascii.eqb d "$" then String "$" (getSubstitution r' matched before after)
            else if Ascii.eqb d "&" then matched ++ getSubstitution r' matched before after
            else if Ascii.eqb d "`" then before ++ getSubstitution r' matched before after
            else if Ascii.eqb d "'" then after ++ getSubstitution r' matched before after
            else String c (getSubstitution r matched before after)
        | "" => String c ""
        end
      else String c (getSubstitution r matched before after)
  end.

(** [s.replace(/re/g, repl)] for a regular expression given by its matcher
    [m]: [m s] is the length of the match that starts at the head of [s], if
    there is one.  [skip] counts the characters of a match still to be
    dropped, [before] is the part of the subject already scanned. *)
Fixpoint replaceGo (m : string -> option nat) (repl : string)
    (skip : nat) (before s : string) : string :=
  match s with
  | "" => ""
  | String c r =>
      match skip with
      | S k => replaceGo m repl k (before ++ String c "") r
      | 0 =>
          match m s with
          | Some (S k) =>
              let matched := substring 0 (S k) s in
              let after := substring (S k) (String.length s - S k) s in
              getSubstitution repl matched before after
                ++ replaceGo m repl k (before ++ String c "") r
          | _ => String c (replaceGo m repl 0 (before ++ String c "") r)
          end
      end
  end.

Definition replaceAll (m : string -> option nat) (repl s : string) : string :=
  replaceGo m repl 0 "" s.

(** [sub] occurs in [s]. *)
Definition occursIn (sub s : string) : Prop :=
  exists pre post, s = pre ++ sub ++ post.

End JS.

(** ** The questionnaire wizard (RPG) *)

Module RPG.
Import JS.

Record Identity := {
  preferred_name : string;
  location : string;
  timezone : string;
  language_preferences : string
}.

Record Answers := {
  name : string;
  domain : string;
  style : string;
  capabilities : list string;
  identity : Identity;
  custom : string
}.

Definition withCapabilities (a : Answers) (caps : list string) : Answers :=
  {| name := name a; domain := domain a; style := style a;
     capabilities := caps; identity := identity a; custom := custom a |}.

Definition domainMap : list (string * string) :=
  [ ("Software Development / Tech", "working in software development and technology");
    ("Creative Work (Writing, Art)", "focused on creative work, including writing and art");
    ("Business / Entrepreneurship", "engaged in business and entrepreneurship");
    ("Student / Learning", "dedicated to learning and academic growth");
    ("Research / Academia", "pursuing research and academic excellence");
    ("Just Exploring", "exploring the possibilities of AI") ].

Definition styleMap : list (string * string) :=
  [ ("Professional & Concise", "Maintain a professional, concise tone. Be direct and clear, providing exactly what's needed without unnecessary elaboration.");
    ("Casual & Conversational", "Keep things friendly and conversational. Use a relaxed, approachable tone that feels like talking with a knowledgeable friend.");
    ("Detailed & Thorough", "Provide comprehensive, well-explained responses. Break down complex ideas into clear steps and ensure thorough understanding of each concept.");
    ("Creative & Playful", "Embrace creativity and playfulness in your responses. Make interactions engaging and fun while delivering helpful, accurate information.") ].

(** The clause each [prompt += ...] of [generateSystemPrompt] appends; the
    empty string where its guard fails.  The answers for [domain] and
    [style] are the values of the wizard's radio controls, so only the keys
    written in the two tables are looked up. *)
Definition nameClause (a : Answers) : string :=
  let n := preferred_name (identity a) in
  if truthy n && truthy (trim n) then " for " ++ trim n else "".

Definition domainClause (a : Answers) : string :=
  match lookup (domain a) domainMap with
  | Some d => if truthy (domain a) && truthy d then ", " ++ d else ""
  | None => ""
  end.

Definition styleClause (a : Answers) : string :=
  match lookup (style a) styleMap with
  | Some d => if truthy (style a) && truthy d then nl ++ nl ++ d else ""
  | None => ""
  end.

Definition capabilitiesClause (a : Answers) : string :=
  let capsList := map toLowerCase (capabilities a) in
  match capsList with
  | [] => ""
  | [c0] => nl ++ nl ++ "You specialize in " ++ c0 ++ "."
  | [c0; c1] => nl ++ nl ++ "You excel at " ++ c0 ++ " and " ++ c1 ++ "."
  | _ =>
      let lastCap := last capsList "" in
      let front := removelast capsList in
      nl ++ nl ++ "You excel at " ++ join ", " front ++ ", and " ++ lastCap ++ "."
  end.

Definition customClause (a : Answers) : string :=
  if truthy (custom a) && truthy (trim (custom a))
  then nl ++ nl ++ "Additional guidance: " ++ trim (custom a) else "".

(** Everything before the capabilities clause. *)
Definition promptHead (a : Answers) : string :=
  "You are an AI assistant" ++ nameClause a ++ domainClause a ++ "." ++ styleClause a.

Definition generateSystemPrompt (a : Answers) : string :=
  let prompt := "You are an AI assistant" in
  let prompt := prompt ++ nameClause a in
  let prompt := prompt ++ domainClause a in
  let prompt := prompt ++ "." in
  let prompt := prompt ++ styleClause a in
  let prompt := prompt ++ capabilitiesClause a in
  let prompt := prompt ++ customClause a in
  trim prompt.

(** *** The question list and the wizard's controls *)

Inductive QType := q_text | q_single | q_multi | q_identity.

(** [validated]: the question carries a [validation] function (the one of
    the list is [val.trim().length > 0]).  For a choice given as
    [{label, desc}] the control's value is the label. *)
Record Question := {
  id : string;
  qtype : QType;
  optional : bool;
  validated : bool;
  maxChoices : nat;
  choices : list string
}.

Definition RPG_QUESTIONS : list Question :=
  [ {| id := "name"; qtype := q_text; optional := false; validated := true;
       maxChoices := 0; choices := [] |};
    {| id := "domain"; qtype := q_single; optional := false; validated := false;
       maxChoices := 0;
       choices := ["Software Development / Tech"; "Creative Work (Writing, Art)";
                   "Business / Entrepreneurship"; "Student / Learning";
                   "Research / Academia"; "Just Exploring"] |};
    {| id := "style"; qtype := q_single; optional := false; validated := false;
       maxChoices := 0;
       choices := ["Professional & Concise"; "Casual & Conversational";
                   "Detailed & Thorough"; "Creative & Playful"] |};
    {| id := "capabilities"; qtype := q_multi; optional := false; validated := false;
       maxChoices := 3;
       choices := ["Writing & Brainstorming"; "Coding & Technical Problems";
                   "Research & Learning"; "Personal Productivity";
                   "Creative Projects"; "General Conversation"] |};
    {| id := "identity"; qtype := q_identity; optional := true; validated := false;
       maxChoices := 0; choices := [] |};
    {| id := "custom"; qtype := q_text; optional := true; validated := false;
       maxChoices := 0; choices := [] |} ].

(** A checkbox of a multi-choice question with its label: [checked] is
    [checkbox.checked], [selected] the label's class [selected]. *)
Record Control := { value : string; checked : bool; selected : bool }.

(** The [RPG] object with the parts of the page it drives: the
    questionnaire overlay, the review screen with its editor, and the
    "use this prompt" button. *)
Record Wizard := {
  currentIndex : nat;
  answers : Answers;
  controls : list Control;
  backDisabled : bool;
  nextDisabled : bool;
  hidden : bool;
  reviewHidden : bool;
  editorValue : string;
  charCount : nat;
  saveDisabled : bool;
  saveText : string
}.

Definition withAnswers (a : Answers) (w : Wizard) : Wizard :=
  {| currentIndex := currentIndex w; answers := a; controls := controls w;
     backDisabled := backDisabled w; nextDisabled := nextDisabled w;
     hidden := hidden w; reviewHidden := reviewHidden w;
     editorValue := editorValue w; charCount := charCount w;
     saveDisabled := saveDisabled w; saveText := saveText w |}.

Definition withControls (cs : list Control) (w : Wizard) : Wizard :=
  {| currentIndex := currentIndex w; answers := answers w; controls := cs;
     backDisabled := backDisabled w; nextDisabled := nextDisabled w;
     hidden := hidden w; reviewHidden := reviewHidden w;
     editorValue := editorValue w; charCount := charCount w;
     saveDisabled := saveDisabled w; saveText := saveText w |}.

Definition withNavigation (back next : bool) (w : Wizard) : Wizard :=
  {| currentIndex := currentIndex w; answers := answers w; controls := controls w;
     backDisabled := back; nextDisabled := next;
     hidden := hidden w; reviewHidden := reviewHidden w;
     editorValue := editorValue w; charCount := charCount w;
     saveDisabled := saveDisabled w; saveText := saveText w |}.

Definition withSaveButton (disabled : bool) (label : string) (w : Wizard) : Wizard :=
  {| currentIndex := currentIndex w; answers := answers w; controls := controls w;
     backDisabled := backDisabled w; nextDisabled := nextDisabled w;
     hidden := hidden w; reviewHidden := reviewHidden w;
     editorValue := editorValue w; charCount := charCount w;
     saveDisabled := disabled; saveText := label |}.

Definition withScreens (index : nat) (hid reviewHid : bool) (w : Wizard) : Wizard :=
  {| currentIndex := index; answers := answers w; controls := controls w;
     backDisabled := backDisabled w; nextDisabled := nextDisabled w;
     hidden := hid; reviewHidden := reviewHid;
     editorValue := editorValue w; charCount := charCount w;
     saveDisabled := saveDisabled w; saveText := saveText w |}.

(** [this.answers[question.id]] for a text or single-choice question. *)
Definition answerText (qid : string) (a : Answers) : string :=
  if String.eqb qid "name" then name a
  else if String.eqb qid "domain" then domain a
  else if String.eqb qid "style" then style a
  else if String.eqb qid "custom" then custom a
  else "".

Definition isValid (q : Question) (a : Answers) : bool :=
  match qtype q with
  | q_text => optional q || truthy (trim (answerText (id q) a))
  | q_single => truthy (answerText (id q) a)
  | q_multi => negb (List.length (capabilities a) =? 0)
  | q_identity => true
  end.

Definition updateNavigation (w : Wizard) : Wizard :=
  match nth_error RPG_QUESTIONS (currentIndex w) with
  | Some q => withNavigation (currentIndex w =? 0) (negb (isValid q (answers w))) w
  | None => w
  end.

Definition includes (x : string) (l : list string) : bool :=
  existsb (String.eqb x) l.

(** [renderMultiChoice]: one control per choice, checked when the choice is
    already among the answers.  The only multi-choice question of the list
    is [capabilities], so [this.answers[question.id]] is the capabilities
    array. *)
Definition renderMultiChoice (q : Question) (w : Wizard) : Wizard :=
  withControls
    (map (fun ch =>
            let on := includes ch (capabilities (answers w)) in
            {| value := ch; checked := on; selected := on |})
         (choices q)) w.

Fixpoint updateControl (i : nat) (f : Control -> Control) (cs : list Control)
  : list Control :=
  match cs, i with
  | [], _ => []
  | c :: r, 0 => f c :: r
  | c :: r, S k => c :: updateControl k f r
  end.

(** The [change] listener of the checkbox of control [i].  It runs after
    the browser has flipped [checkbox.checked]. *)
Definition onChange (q : Question) (i : nat) (w : Wizard) : Wizard :=
  match nth_error (controls w) i with
  | None => w
  | Some ctl =>
      let caps := capabilities (answers w) in
      if checked ctl then
        if maxChoices q <=? List.length caps then
          withControls
            (updateControl i (fun c => {| value := value c; checked := false;
                                          selected := selected c |}) (controls w)) w
        else
          updateNavigation
            (withControls
               (updateControl i (fun c => {| value := value c; checked := checked c;
                                             selected := true |}) (controls w))
               (withAnswers (withCapabilities (answers w) (caps ++ [value ctl])%list) w))
      else
        updateNavigation
          (withControls
             (updateControl i (fun c => {| value := value c; checked := checked c;
                                           selected := false |}) (controls w))
             (withAnswers
                (withCapabilities (answers w)
                   (filter (fun c => negb (String.eqb c (value ctl))) caps)) w))
  end.

(** The user clicks the checkbox of control [i]: the browser flips it and
    fires [change]. *)
Definition clickChoice (q : Question) (i : nat) (w : Wizard) : Wizard :=
  onChange q i
    (withControls
       (updateControl i (fun c => {| value := value c; checked := negb (checked c);
                                     selected := selected c |}) (controls w)) w).

(** [render] for the current question; text, single-choice and identity
    questions have no checkbox controls. *)
Definition render (w : Wizard) : Wizard :=
  match nth_error RPG_QUESTIONS (currentIndex w) with
  | Some q =>
      updateNavigation
        (match qtype q with
         | q_multi => renderMultiChoice q w
         | _ => withControls [] w
         end)
  | None => w
  end.

(** [show]: back to the first question, overlay visible. *)
Definition show (w : Wizard) : Wizard :=
  render (withScreens 0 false (reviewHidden w) w).

Definition DEFAULT_PROMPT : string :=
  "You are a helpful AI assistant. You provide clear, accurate, and thoughtful responses. You adapt your communication style to the user's needs and preferences.".

End RPG.

(** ** The narrator (FRT): script data *)

Module FRT.
Import JS.

Inductive Track := intro | model | system_prompt | context | memory.

Inductive Stage := stage_none | boot | script.

Inductive GateKind := chat_any | chat_repeat | final_review_confirm.

Inductive Hook :=
| SHOW_MODEL_LOADER_RAIL
| ENABLE_SPLIT_CHAT
| SWAP_PROMPT_PIRATE
| SWAP_PROMPT_DEFAULT
| LAUNCH_SYSTEM_PROMPT_RPG
| LOAD_CONTEXT_PACKET
| SHOW_FINAL_REVIEW
| DISABLE_SPLIT_CHAT.

(** [step.align === 'left' ? 'frt-left' : 'frt-center'] *)
Inductive Align := AlignLeft | AlignCenter.

Inductive MarkupKind := m_ascii | m_html | m_code.

(** An absent [className] is the empty string. *)
Record Segment := seg { text : string; className : string }.

(** One step of a part.  In [markup] an absent [html] or [text] is the
    empty string, which the renderer tests for truthiness the same way. *)
Inductive Step :=
| line (align : Align) (instant : bool) (segments : list Segment)
| pause (ms : nat)
| list_ (align : Align) (items : list string)
| dotsErase (align : Align) (speed pauseMs eraseSpeed : nat)
| image (align : Align) (src : string)
| markup (kind : MarkupKind) (align : Align) (static : bool) (html text : string).

Record Requires := { req_kind : GateKind; req_soft_after : option nat }.

(** One page of narration.  An absent deterrent line is the empty string. *)
Record Part := {
  earlyClickLine : string;
  typingAttemptLine : string;
  clickAttemptLine : string;
  idleLine : string;
  onEnter : option Hook;
  requires : option Requires;
  steps : list Step
}.

(** [FRT.scripts]: index 0 of every track is [null]. *)
Definition script_intro : list (option Part) :=
  [ None;
    Some {|
      earlyClickLine := ("Ah. Impatient already." ++ nl ++ "I like that.");
      typingAttemptLine := ("Nope." ++ nl ++ "Still locked.");
      clickAttemptLine := ("Careful." ++ nl ++ "The glass is real right now.");
      idleLine := ("No rush." ++ nl ++ "I literally live here.");
      onEnter := None;
      requires := None;
      steps :=
        [line AlignCenter false [seg "Hello there." ""];
         line AlignCenter false [seg "It’s dark in here, isn’t it?" ""];
         pause 300;
         line AlignCenter false [seg ("Welcome to Localis, and thank you for choosing the " ++ dq ++ "my AI runs on my machine" ++ dq ++ " lifestyle.") ""];
         line AlignCenter false [seg "It’s quieter here. Fewer pop-ups. More control." ""];
         pause 50;
         dotsErase AlignCenter 120 250 70] |};
    Some {|
      earlyClickLine := "";
      typingAttemptLine := ("Easy." ++ nl ++ "Soon you get the keyboard.");
      clickAttemptLine := ("Poking the void won't help." ++ nl ++ "Yet.");
      idleLine := ("I'll wait." ++ nl ++ "I'm good at that.");
      onEnter := None;
      requires := None;
      steps :=
        [line AlignCenter false [seg "I'm " ""; seg "The Narrator" "t-purple"; seg "." ""];
         line AlignCenter false [seg "Nice to meet you, {name}." ""];
         pause 100;
         line AlignCenter false [seg "Think of me as your guide through this place." ""];
         line AlignCenter false [seg "More like that voice in movies that explains things right before the interesting part happens." ""]] |};
    Some {|
      earlyClickLine := "";
      typingAttemptLine := ("Nice try." ++ nl ++ "Keyboard privileges unlock shortly.");
      clickAttemptLine := ("Everything’s frozen for a reason." ++ nl ++ "Hands off the controls.");
      idleLine := ("You’re allowed to breathe." ++ nl ++ "I’m not going anywhere.");
      onEnter := None;
      requires := None;
      steps :=
        [line AlignCenter false [seg "You might notice the world is… " ""; seg "frozen" "t-cyan"; seg "." ""];
         line AlignCenter false [seg "That’s intentional." ""];
         pause 150;
         line AlignCenter false [seg "This is your first run, so everything is temporarily locked." ""];
         line AlignCenter false [seg "Not because I don’t trust you…" ""];
         line AlignCenter false [seg "…but because every app thinks it’s helpful and then dumps 47 buttons on you." ""];
         line AlignCenter false [seg "We’re not doing that." ""]] |};
    Some {|
      earlyClickLine := "";
      typingAttemptLine := ("Patience." ++ nl ++ "You’ll get keys soon.");
      clickAttemptLine := ("That button does nothing." ++ nl ++ "The arrows are the only doors.");
      idleLine := ("Take your time." ++ nl ++ "I’m built for idle screens.");
      onEnter := None;
      requires := None;
      steps :=
        [line AlignCenter false [seg "We have about " ""; seg "10 minutes" "t-amber"; seg " of onboarding before you can start." ""];
         line AlignCenter false [seg "I promise to keep it brief." ""];
         pause 110;
         list_ AlignCenter ["choosing a Netflix show"; "installing printer drivers"; "“just one more YouTube video” (lies)"]] |};
    Some {|
      earlyClickLine := "";
      typingAttemptLine := ("Almost." ++ nl ++ "Don’t mash keys yet.");
      clickAttemptLine := ("We’re close." ++ nl ++ "Stay with me.");
      idleLine := ("Last gate." ++ nl ++ "Then we move.");
      onEnter := None;
      requires := None;
      steps :=
        [line AlignCenter false [seg "Alright." ""];
         pause 150;
         line AlignCenter false [seg "Ready to see what’s behind the curtain?" ""]] |} ].

Definition script_model : list (option Part) :=
  [ None;
    Some {|
      earlyClickLine := "";
      typingAttemptLine := "";
      clickAttemptLine := "";
      idleLine := "";
      onEnter := None;
      requires := None;
      steps :=
        [line AlignLeft false [seg "So.  Behind the curtain it’s less magic… and more " ""; seg "machinery" "t-cyan"; seg "." ""];
         line AlignLeft false [seg "Don’t worry. I’ll keep the scary parts friendly." ""];
         pause 100;
         line AlignLeft false [seg "So...what is a model?" ""];
         line AlignLeft false [seg "In Localis, a model is the “brain file” I wear." ""];
         line AlignLeft false [seg "Load a different one, and you get a different me.  Same room. Different mind." ""];
         pause 100;
         line AlignLeft false [seg "A language model predicts text." ""];
         line AlignLeft false [seg "Not like fortune-telling— more like: it guesses the next word, then the next, until it forms an answer." ""];
         line AlignLeft false [seg "Sometimes it’s brilliant. Sometimes it is confidently… creative." ""];
         line AlignLeft false [seg "That’s one of my edges." ""]] |};
    Some {|
      earlyClickLine := "";
      typingAttemptLine := "";
      clickAttemptLine := "";
      idleLine := "";
      onEnter := None;
      requires := None;
      steps :=
        [line AlignLeft false [seg "Models come in sizes." ""];
         line AlignLeft false [seg "Bigger models usually:" ""];
         list_ AlignCenter ["reason better"; "write cleaner"; "understand more nuance"];
         line AlignLeft false [seg "Smaller models usually:" ""];
         list_ AlignCenter ["load faster"; "run cheaper"; "feel snappier"];
         line AlignLeft false [seg "You’re basically choosing: quality ↔ speed ↔ resource cost." ""];
         pause 100;
         line AlignLeft false [seg "And models aren’t all the same kind." ""];
         line AlignLeft false [seg "Text models:" ""];
         list_ AlignCenter ["chat, writing, reasoning, coding"];
         line AlignLeft false [seg "Image models:" ""];
         list_ AlignCenter ["generate or edit images"];
         line AlignLeft false [seg "Multimodal models:" ""];
         list_ AlignCenter ["combine senses = read images + understand text (sometimes audio too)"]] |};
    Some {|
      earlyClickLine := "";
      typingAttemptLine := "";
      clickAttemptLine := "";
      idleLine := "";
      onEnter := None;
      requires := None;
      steps :=
        [line AlignLeft false [seg "Right now, there’s no model loaded." ""];
         line AlignLeft false [seg "Which means: I’m awake… but I don’t have a brain in my hands yet." ""];
         line AlignLeft false [seg "Press “>”. Then I’ll show you where the model loader is." ""]] |};
    Some {|
      earlyClickLine := "";
      typingAttemptLine := "";
      clickAttemptLine := "";
      idleLine := "";
      onEnter := Some SHOW_MODEL_LOADER_RAIL;
      requires := None;
      steps :=
        [line AlignLeft false [seg "Wait— let me bring out the model loader icon." ""];
         line AlignLeft false [seg "It will blink.  Click it.  Pick a model.  Load it." ""];
         line AlignLeft false [seg "When the model finishes loading… the world unlocks." ""]] |} ].

Definition script_system_prompt : list (option Part) :=
  [ None;
    Some {|
      earlyClickLine := ("Patience." ++ nl ++ "I'm setting the stage.");
      typingAttemptLine := ("Not yet." ++ nl ++ "Listen first.");
      clickAttemptLine := ("Easy." ++ nl ++ "Let me explain.");
      idleLine := ("Still here?" ++ nl ++ "Good. This matters.");
      onEnter := None;
      requires := None;
      steps :=
        [line AlignLeft false [seg "Alright, you've met me. You've loaded a brain." ""];
         line AlignLeft false [seg "But here's the thing..." ""]] |};
    Some {|
      earlyClickLine := ("Hold on." ++ nl ++ "I'm getting to the good part.");
      typingAttemptLine := ("Locked." ++ nl ++ "For now.");
      clickAttemptLine := ("Not clickable yet." ++ nl ++ "Keep reading.");
      idleLine := ("I know." ++ nl ++ "It's a lot to take in.");
      onEnter := None;
      requires := None;
      steps :=
        [line AlignLeft false [seg "I don't actually have a personality." ""];
         line AlignLeft false [seg "Not by default, anyway." ""]] |};
    Some {|
      earlyClickLine := ("Almost done." ++ nl ++ "One more thing.");
      typingAttemptLine := ("Soon." ++ nl ++ "Very soon.");
      clickAttemptLine := ("Just a moment." ++ nl ++ "Let me finish.");
      idleLine := ("Take your time." ++ nl ++ "I'm not going anywhere.");
      onEnter := None;
      requires := None;
      steps :=
        [line AlignLeft true [seg "      ___          ___" ""];
         line AlignLeft true [seg "     " "t-cyan"; seg "( ^^ )" "t-cyan"; seg "      " "t-amber"; seg "( .. )" "t-amber"];
         line AlignLeft true [seg "     " "t-cyan"; seg "( ‿  )" "t-cyan"; seg "      " "t-amber"; seg "( ⌢  )" "t-amber"];
         line AlignLeft true [seg "      ‾‾‾          ‾‾‾" ""];
         pause 200;
         line AlignLeft false [seg "I'm like an actor waiting for a script." ""];
         line AlignLeft false [seg "The script? That's called a " ""; seg "system prompt" "t-cyan"; seg "." ""]] |};
    Some {|
      earlyClickLine := "";
      typingAttemptLine := "";
      clickAttemptLine := "";
      idleLine := ("Experiment time." ++ nl ++ "Don't be shy.");
      onEnter := Some ENABLE_SPLIT_CHAT;
      requires := Some {| req_kind := chat_any; req_soft_after := None |};
      steps :=
        [line AlignLeft false [seg "Let me show you what that means." ""];
         pause 100;
         line AlignLeft false [seg "I've just unlocked the chat." ""];
         line AlignLeft false [seg "Go ahead—ask me something neutral. Anything." ""];
         line AlignLeft false [seg (dq ++ "What's 2+2?" ++ dq ++ " or " ++ dq ++ "Tell me a fact about the ocean." ++ dq) ""]] |};
    Some {|
      earlyClickLine := "";
      typingAttemptLine := "";
      clickAttemptLine := "";
      idleLine := ("Still waiting." ++ nl ++ "Ask something simple.");
      onEnter := None;
      requires := None;
      steps :=
        [line AlignLeft false [seg "Notice the tone?" ""];
         line AlignLeft false [seg "Helpful. Clear. Neutral." ""];
         pause 100;
         line AlignLeft false [seg "That's because right now, I have no system prompt loaded." ""];
         line AlignLeft false [seg "I'm just… default me." ""]] |};
    Some {|
      earlyClickLine := "";
      typingAttemptLine := "";
      clickAttemptLine := "";
      idleLine := ("Something changed." ++ nl ++ "Did you feel it?");
      onEnter := Some SWAP_PROMPT_PIRATE;
      requires := None;
      steps :=
        [line AlignLeft false [seg "Now watch this…" ""];
         pause 150;
         line AlignLeft false [seg "I just swapped my script." ""];
         line AlignLeft false [seg "The badge pulsed. You saw it." ""]] |};
    Some {|
      earlyClickLine := "";
      typingAttemptLine := "";
      clickAttemptLine := "";
      idleLine := ("Try it." ++ nl ++ "Ask the same thing.");
      onEnter := None;
      requires := Some {| req_kind := chat_repeat; req_soft_after := Some 2 |};
      steps :=
        [line AlignLeft false [seg "Ask me the " ""; seg "same question" "t-cyan"; seg " again." ""];
         line AlignLeft false [seg "Word for word. Same input." ""]] |};
    Some {|
      earlyClickLine := "";
      typingAttemptLine := "";
      clickAttemptLine := "";
      idleLine := ("See the difference?" ++ nl ++ "That's the power of prompts.");
      onEnter := Some SWAP_PROMPT_DEFAULT;
      requires := None;
      steps :=
        [line AlignLeft false [seg "Different answer, right?" ""];
         pause 100;
         line AlignLeft false [seg "Same brain. Same question. Different " ""; seg "script" "t-purple"; seg "." ""];
         line AlignLeft false [seg "That's what the system prompt does—it shapes how I respond." ""];
         line AlignLeft false [seg "Tone. Style. Personality. It's all defined there." ""]] |};
    Some {|
      earlyClickLine := "";
      typingAttemptLine := "";
      clickAttemptLine := "";
      idleLine := ("Almost there." ++ nl ++ "One more step.");
      onEnter := None;
      requires := None;
      steps :=
        [line AlignLeft false [seg "So here's the deal, {name}." ""];
         line AlignLeft false [seg "You could write your own prompt from scratch…" ""];
         pause 100;
         line AlignLeft false [seg "Or I can guide you through a quick setup." ""];
         line AlignLeft false [seg "A few questions. Clean, personalized result." ""];
         pause 100;
         line AlignLeft false [seg "Ready?" ""]] |};
    Some {|
      earlyClickLine := "";
      typingAttemptLine := "";
      clickAttemptLine := "";
      idleLine := "";
      onEnter := Some LAUNCH_SYSTEM_PROMPT_RPG;
      requires := None;
      steps :=
        [] |};
    Some {|
      earlyClickLine := "";
      typingAttemptLine := "";
      clickAttemptLine := "";
      idleLine := ("Welcome back." ++ nl ++ "How does it feel?");
      onEnter := Some DISABLE_SPLIT_CHAT;
      requires := None;
      steps :=
        [line AlignLeft false [seg "There we go." ""];
         pause 100;
         line AlignLeft false [seg "You've just set your first system prompt, {name}." ""];
         line AlignLeft false [seg "From now on, that's the script I'll follow when we talk." ""]] |};
    Some {|
      earlyClickLine := "";
      typingAttemptLine := "";
      clickAttemptLine := "";
      idleLine := ("One more thing." ++ nl ++ "Then we're done here.");
      onEnter := None;
      requires := None;
      steps :=
        [line AlignLeft false [seg "You can change it anytime." ""];
         line AlignLeft false [seg "Tweak it. Rewrite it. Swap it out completely." ""];
         pause 100;
         line AlignLeft false [seg "The system prompt is " ""; seg "yours" "t-cyan"; seg " to control." ""];
         line AlignLeft false [seg "Alright. One last thing before we finish…" ""]] |} ].

Definition script_context : list (option Part) :=
  [ None;
    Some {|
      earlyClickLine := ("Patience." ++ nl ++ "This matters.");
      typingAttemptLine := "";
      clickAttemptLine := "";
      idleLine := ("I don't remember." ++ nl ++ "But I can explain why.");
      onEnter := None;
      requires := None;
      steps :=
        [line AlignLeft false [seg "Question, {name}." ""];
         pause 150;
         line AlignLeft false [seg "What did we talk about " ""; seg "before" "t-cyan"; seg " the system prompt stage?" ""];
         pause 200;
         markup m_ascii AlignCenter true ("<span style=" ++ dq ++ "opacity:0.6" ++ dq ++ ">    ___" ++ nl ++ "   /   \" ++ nl ++ "  | O O |" ++ nl ++ "   \___/" ++ nl ++ "    | |</span>") "";
         pause 100;
         line AlignLeft false [seg "I " ""; seg "don't remember" "t-purple"; seg "." ""];
         line AlignLeft false [seg "And that's not a bug." ""];
         pause 100;
         line AlignLeft false [seg "It's the architecture." ""]] |};
    Some {|
      earlyClickLine := ("Hold on." ++ nl ++ "Let me show you the limits.");
      typingAttemptLine := "";
      clickAttemptLine := "";
      idleLine := ("The context window." ++ nl ++ "Your conversation space.");
      onEnter := None;
      requires := None;
      steps :=
        [line AlignLeft false [seg "Every conversation has what's called a " ""; seg "context window" "t-cyan"; seg "." ""];
         line AlignLeft false [seg "Think of it as working memory." ""];
         pause 100;
         line AlignLeft false [seg "Right now, it looks like this:" ""];
         pause 100;
         markup m_html AlignCenter true ("<div style=" ++ dq ++ "width:90%;max-width:500px;margin:10px auto;" ++ dq ++ "><div style=" ++ dq ++ "background:rgba(100,100,100,0.2);border-radius:4px;padding:8px;" ++ dq ++ "><div style=" ++ dq ++ "font-size:0.85em;opacity:0.8;margin-bottom:4px;" ++ dq ++ ">Context Window: <span style=" ++ dq ++ "color:#00d4aa" ++ dq ++ ">4096 tokens</span></div><div style=" ++ dq ++ "display:flex;height:24px;background:rgba(50,50,50,0.3);border-radius:3px;overflow:hidden;" ++ dq ++ "><div style=" ++ dq ++ "width:15%;background:linear-gradient(90deg,#00d4aa,#00a080);display:flex;align-items:center;justify-content:center;font-size:0.75em;font-weight:bold;color:#000;" ++ dq ++ ">~600</div><div style=" ++ dq ++ "flex:1;display:flex;align-items:center;padding-left:8px;font-size:0.75em;opacity:0.6;" ++ dq ++ ">~3496 available</div></div></div></div>") "";
         pause 100;
         line AlignLeft false [seg "That bar? That's your limit." ""];
         line AlignLeft false [seg "Once it's full, I start " ""; seg "forgetting" "t-purple"; seg "." ""]] |};
    Some {|
      earlyClickLine := ("Wait." ++ nl ++ "You need to see this.");
      typingAttemptLine := "";
      clickAttemptLine := "";
      idleLine := ("This is what I actually see." ++ nl ++ "Every single time.");
      onEnter := Some LOAD_CONTEXT_PACKET;
      requires := None;
      steps :=
        [line AlignLeft false [seg "Let me show you what I " ""; seg "actually" "t-cyan"; seg " see." ""];
         pause 100;
         line AlignLeft false [seg "When you send a message, this is the " ""; seg "packet" "t-purple"; seg " that goes into my brain:" ""];
         pause 150;
         markup m_code AlignLeft true ("<div id=" ++ dq ++ "context-packet-placeholder" ++ dq ++ " style=" ++ dq ++ "font-size:0.85em;opacity:0.6;padding:20px;text-align:center;" ++ dq ++ ">Loading context data...</div>") "";
         pause 200;
         line AlignLeft false [seg "System prompt. Messages. Your new question. Settings." ""];
         line AlignLeft false [seg "All of it fits in that window—or it doesn't." ""]] |};
    Some {|
      earlyClickLine := ("Almost done." ++ nl ++ "This is important.");
      typingAttemptLine := "";
      clickAttemptLine := "";
      idleLine := ("You get it now." ++ nl ++ "Memory changes everything.");
      onEnter := None;
      requires := None;
      steps :=
        [line AlignLeft false [seg "So why does this matter?" ""];
         pause 100;
         markup m_html AlignCenter true ("<div style=" ++ dq ++ "width:90%;max-width:500px;margin:10px auto;" ++ dq ++ "><div style=" ++ dq ++ "background:rgba(100,100,100,0.2);border-radius:4px;padding:8px;" ++ dq ++ "><div style=" ++ dq ++ "font-size:0.85em;opacity:0.8;margin-bottom:4px;" ++ dq ++ ">Without Memory: Every request</div><div style=" ++ dq ++ "display:flex;height:20px;background:rgba(50,50,50,0.3);border-radius:3px;overflow:hidden;margin-bottom:12px;" ++ dq ++ "><div style=" ++ dq ++ "width:60%;background:#ff6b6b;" ++ dq ++ "></div></div><div style=" ++ dq ++ "font-size:0.85em;opacity:0.8;margin-bottom:4px;" ++ dq ++ ">With Memory: Optimized</div><div style=" ++ dq ++ "display:flex;height:20px;background:rgba(50,50,50,0.3);border-radius:3px;overflow:hidden;" ++ dq ++ "><div style=" ++ dq ++ "width:15%;background:#00d4aa;" ++ dq ++ "></div></div></div></div>") "";
         pause 100;
         line AlignLeft false [seg "Without memory, every conversation sends " ""; seg "everything" "t-purple"; seg "." ""];
         line AlignLeft false [seg "Your entire chat history. Over and over." ""];
         pause 100;
         line AlignLeft false [seg "With memory, I keep the important parts " ""; seg "outside" "t-cyan"; seg " the window." ""];
         line AlignLeft false [seg "Smaller packets. Faster responses. Better recall." ""];
         pause 150;
         line AlignLeft false [seg "That's what we're building next." ""]] |} ].

Definition script_memory : list (option Part) :=
  [ None;
    Some {|
      earlyClickLine := ("Hold on." ++ nl ++ "This is the foundation.");
      typingAttemptLine := "";
      clickAttemptLine := "";
      idleLine := ("Memory isn't optional." ++ nl ++ "It's essential.");
      onEnter := None;
      requires := None;
      steps :=
        [line AlignLeft false [seg "So here's the deal." ""];
         pause 100;
         line AlignLeft false [seg "I have two kinds of memory." ""];
         pause 150;
         line AlignLeft false [seg "Tier A: " ""; seg "Identity" "t-cyan"; seg "." ""];
         line AlignLeft false [seg "That's the core stuff. Your name. Where you are. What language you prefer." ""];
         pause 100;
         line AlignLeft false [seg "I never write to Tier A without asking you first." ""];
         pause 150;
         line AlignLeft false [seg "Tier B: " ""; seg "Extended Memory" "t-purple"; seg "." ""];
         line AlignLeft false [seg "Your interests. Your projects. Things you've told me." ""];
         line AlignLeft false [seg "I learn this automatically as we talk." ""]] |};
    Some {|
      earlyClickLine := ("Easy." ++ nl ++ "Just showing you where it lives.");
      typingAttemptLine := "";
      clickAttemptLine := "";
      idleLine := ("It's all local." ++ nl ++ "Your machine. Your control.");
      onEnter := None;
      requires := None;
      steps :=
        [line AlignLeft false [seg "Where does this memory live?" ""];
         pause 100;
         line AlignLeft false [seg "Right here. On your machine." ""];
         pause 150;
         line AlignLeft false [seg "In a file called:" ""];
         pause 100;
         markup m_code AlignCenter true ("<span style=" ++ dq ++ "color:#00d4aa;font-weight:bold;" ++ dq ++ ">chat_history.db</span>") "";
         pause 150;
         line AlignLeft false [seg "That's it. Everything we talk about. Everything I remember." ""];
         line AlignLeft false [seg "SQLite database. Fully local. No cloud sync." ""]] |};
    Some {|
      earlyClickLine := ("Nearly there." ++ nl ++ "Stay with me.");
      typingAttemptLine := "";
      clickAttemptLine := "";
      idleLine := ("This is what makes it different." ++ nl ++ "Better.");
      onEnter := None;
      requires := None;
      steps :=
        [line AlignLeft false [seg "Why does this matter?" ""];
         pause 100;
         line AlignLeft false [seg "Because most AI assistants " ""; seg "forget" "t-purple"; seg " between sessions." ""];
         line AlignLeft false [seg "You close the tab, you start over." ""];
         pause 150;
         line AlignLeft false [seg "With memory, I " ""; seg "remember" "t-cyan"; seg "." ""];
         line AlignLeft false [seg "Your preferences. Your context. Your ongoing projects." ""];
         pause 100;
         line AlignLeft false [seg "We pick up right where we left off." ""]] |};
    Some {|
      earlyClickLine := ("One more step." ++ nl ++ "Then we're done.");
      typingAttemptLine := "";
      clickAttemptLine := "";
      idleLine := ("Almost ready." ++ nl ++ "Just need your permission.");
      onEnter := None;
      requires := None;
      steps :=
        [line AlignLeft false [seg "Before we finish, I need to save your identity." ""];
         pause 100;
         line AlignLeft false [seg "Name. Location. Timezone. Language." ""];
         line AlignLeft false [seg "The Tier A stuff we talked about." ""];
         pause 150;
         line AlignLeft false [seg "Next page: you'll see everything one last time." ""];
         pause 100;
         line AlignLeft false [seg "If it looks good, we commit. If not, you can adjust." ""]] |};
    Some {|
      earlyClickLine := ("Read first." ++ nl ++ "This is permanent.");
      typingAttemptLine := "";
      clickAttemptLine := "";
      idleLine := ("Take your time." ++ nl ++ "Review everything.");
      onEnter := Some SHOW_FINAL_REVIEW;
      requires := Some {| req_kind := final_review_confirm; req_soft_after := None |};
      steps :=
        [line AlignLeft false [seg "This is it." ""];
         pause 100;
         line AlignLeft false [seg "Review your system prompt and identity below." ""];
         pause 100;
         line AlignLeft false [seg "If everything looks good, click " ""; seg "LOOKS GOOD →" "t-cyan"];
         pause 100;
         line AlignLeft false [seg "This saves everything and completes setup." ""];
         pause 150;
         line AlignLeft false [seg "Total time: about 5–6 minutes. You made it." ""]] |} ].

Definition scripts (t : Track) : list (option Part) :=
  match t with
  | intro => script_intro
  | model => script_model
  | system_prompt => script_system_prompt
  | context => script_context
  | memory => script_memory
  end.

Definition getPart (t : Track) (index : nat) : option Part :=
  match nth_error (scripts t) index with
  | Some (Some p) => Some p
  | _ => None
  end.

(** [getMaxPart]: [getTrack().length - 1] *)
Definition getMaxPart (t : Track) : nat := List.length (scripts t) - 1.

(** ** The typewriter animator and the step renderer

    Rendering is asynchronous: between two timer callbacks the user may
    click.  A click on Next or Back while a part is typing sets
    [FRT.skipRequested].  The schedule [clicks] says, for each timer wait of
    a render, whether such a click arrived during that wait; [poll] counts
    the waits.  Delays only decide how long a wait lasts and are left out;
    a second render started while this one is still typing is not modelled. *)

(** What the narrator surface holds after a step. *)
Record Span := span { spanClass : string; spanText : string }.

Inductive Inner := innerHTML (s : string) | textContent (s : string) | noContent.

Inductive Block :=
| lineDiv (a : Align) (spans : list Span)
| listDiv (a : Align) (items : list (string * string))
| img (a : Align) (src : string)
| markupBlock (k : MarkupKind) (a : Align) (inner : Inner).

(** The cancellation flag together with the count of timer waits so far. *)
Definition Cancel : Type := bool * nat.

Section Render.

Variable clicks : nat -> bool.

(** One timer wait: a click during it sets the flag. *)
Definition tick (c : Cancel) : Cancel :=
  let '(skipRequested, poll) := c in (skipRequested || clicks poll, S poll).

(** [typeChar] of [UX.typeWriter]: [content] is [element.textContent],
    [rest] the characters from index [i] on. *)
Fixpoint typeChar (text content rest : string) (c : Cancel) : string * Cancel :=
  if fst c then (text, c)
  else
    match rest with
    | "" => (content, c)
    | String ch r => typeChar text (content ++ String ch "") r (tick c)
    end.

(** [UX.typeWriter(element, text, speed, opts)]: the final [textContent] of
    the element and the flag when the promise resolves. *)
Definition typeWriter (text : string) (c : Cancel) : string * Cancel :=
  if fst c then (text, c) else typeChar text "" text c.

(** [waitWithSkip(ms)] for [ms = num / den], in slices of 25 ms:
    [while (elapsed < ms) { if (skip) return; await slice; elapsed += 25 }]. *)
Fixpoint waitLoop (fuel elapsed num den : nat) (c : Cancel) : Cancel :=
  match fuel with
  | 0 => c
  | S f =>
      if elapsed * den <? num then
        if fst c then c else waitLoop f (elapsed + 25) num den (tick c)
      else c
  end.

Definition waitWithSkip (ms : nat) (c : Cancel) : Cancel := waitLoop ms 0 ms 1 c.

(** [text.trim().split(/\s+/).filter(Boolean).length] *)
Fixpoint countWords (inWord : bool) (s : string) : nat :=
  match s with
  | "" => 0
  | String ch r =>
      if isWhiteSpace ch then countWords false r
      else (if inWord then 0 else 1) + countWords true r
  end.

Definition autoReadPause (text : string) (c : Cancel) : Cancel :=
  if fst c then c
  else
    let words := countWords false text in
    let ms := Nat.max 250 (Nat.min 900 (150 + words * 70)) in
    waitWithSkip ms c.

(** The segment loop of a [line] step: the spans appended to the line, the
    accumulated [fullText], and the flag afterwards. *)
Fixpoint renderSegments (isInstant : bool) (segs : list Segment) (c : Cancel)
  : list Span * string * Cancel :=
  match segs with
  | [] => ([], "", c)
  | sg :: r =>
      let '(content, c1) :=
        if isInstant then (text sg, c) else typeWriter (text sg) c in
      let '(spans, fullText, c2) := renderSegments isInstant r c1 in
      (span (className sg) content :: spans, text sg ++ fullText, c2)
  end.

Definition bullet : string := "• ".

(** The item loop of a [list] step: bullet span and text span of each item. *)
Fixpoint renderItems (items : list string) (c : Cancel)
  : list (string * string) * Cancel :=
  match items with
  | [] => ([], c)
  | item :: r =>
      let '(b, c1) := typeWriter bullet c in
      let '(t, c2) := typeWriter item c1 in
      let c3 := autoReadPause item c2 in
      let '(lis, c4) := renderItems r c3 in
      ((b, t) :: lis, c4)
  end.

(** [s.slice(0, -1)] *)
Fixpoint dropLast (s : string) : string :=
  match s with
  | "" => ""
  | String ch "" => ""
  | String ch r => String ch (dropLast r)
  end.

(** [x || d] on numbers *)
Definition orDefault (x d : nat) : nat := match x with 0 => d | _ => x end.

(** The erase loop of a [dotsErase] step; the span it works on is removed
    from the surface when the step ends. *)
Fixpoint eraseLoop (n : nat) (content : string) (eraseSpeed : nat) (c : Cancel)
  : string * Cancel :=
  match n with
  | 0 => (content, c)
  | S k =>
      if fst c then (content, c)
      else eraseLoop k (dropLast content) eraseSpeed (waitWithSkip eraseSpeed c)
  end.

Definition staticInner (static : bool) (html txt : string) : Inner :=
  if static && truthy html then innerHTML html
  else if truthy txt then textContent txt
  else noContent.

(** One iteration of the step loop of [renderPart], on the children of
    [FRT.els.text] and the cancellation flag. *)
Definition renderStep (st : Step) (sc : list Block * Cancel) : list Block * Cancel :=
  let '(surface, c) := sc in
  match st with
  | line a isInstant segs =>
      let '(spans, fullText, c1) := renderSegments isInstant segs c in
      let c2 := if isInstant then c1 else autoReadPause fullText c1 in
      ((surface ++ [lineDiv a spans])%list, c2)
  | pause ms =>
      if fst c then (surface, c)
      else (surface, waitLoop (ms * 3) 0 (ms * 3) 5 c)
  | list_ a items =>
      let '(lis, c1) := renderItems items c in
      ((surface ++ [listDiv a lis])%list, c1)
  | dotsErase a speed pauseMs eraseSpeed =>
      let '(dots, c1) := typeWriter "..." c in
      let c2 :=
        if fst c1 then c1
        else snd (eraseLoop 3 dots (orDefault eraseSpeed 70)
                    (waitWithSkip (orDefault pauseMs 350) c1)) in
      (surface, c2)
  | image a src => ((surface ++ [img a src])%list, c)
  | markup k a static html txt =>
      ((surface ++ [markupBlock k a (staticInner static html txt)])%list, c)
  end.

Definition renderSteps (sts : list Step) (sc : list Block * Cancel)
  : list Block * Cancel :=
  fold_left (fun acc st => renderStep st acc) sts sc.

End Render.

(** The spans of a line whose segments are all typed out. *)
Definition fullSpans (segs : list Segment) : list Span :=
  map (fun sg => span (className sg) (text sg)) segs.


(** ** The narrator (FRT): state *)

(** A field value of a staged JSON object: the handlers tell [null] and
    strings from the rest, and pass every other value on as it is.  An
    object lists its fields in the order of [Object.entries]. *)
Inductive JVal :=
| JNull
| JStr (s : string)
| JOther (json : string).

Definition JObject : Type := list (string * JVal).

(** [FRT.requiredAction].  [soft_after] is absent until the first gated part
    is rendered. *)
Record RequiredAction := {
  kind : option GateKind;
  satisfied : bool;
  attempts : nat;
  baselineQuestion : option string;
  soft_after : option nat
}.

(** The [FRT] object, without its timers and element handles.
    [nameUsedByTrack] lists the tracks whose entry is [true]. *)
Record Narrator := {
  stage : Stage;
  track : Track;
  partIndex : nat;
  isTyping : bool;
  skipRequested : bool;
  lastOptionalKind : option string;
  nameUsedByTrack : list Track;
  requiredAction : RequiredAction
}.

(** The fields of the [state] object the tutorial uses; a history entry is
    (role, content). *)
Record AppState := {
  isGenerating : bool;
  tutorialHistory : list (string * string);
  tutorialSystemPromptId : string;
  tutorialSystemPromptText : string
}.

(** [sessionStorage], by the keys the script uses.  An item that holds JSON
    text is kept as what [JSON.parse] makes of it: [None] is an absent or
    empty item, [Some None] a text that does not parse to an object, on
    which the reader throws. *)
Record SessionStorage := {
  rpg_system_prompt : option string;
  user_preferred_name : option string;
  rpg_tier_a : option (option JObject);
  tutorial_tier_b : option (option JObject);
  tutorial_defaults : option (option JObject)
}.

(** The parts of the page the handlers read or write: the classes of
    [body]; [frt-nav-locked] on the navigation bar; the Back button; the
    children of [FRT.els.text]; the text of [FRT.els.optional]; whether the
    narrator overlay is displayed; whether the chat input is disabled; the
    final review overlay with its confirm button and error line
    ([hasErrorDiv]: the page has the element [final-review-error]); the
    messages passed to [alert]. *)
Record Dom := {
  bodyClasses : list string;
  navLocked : bool;
  backDisabled : bool;
  textSurface : list Block;
  optional : string;
  overlayDisplayed : bool;
  promptDisabled : bool;
  finalReviewHidden : bool;
  confirmDisabled : bool;
  confirmText : string;
  hasErrorDiv : bool;
  errorText : string;
  errorDisplayed : bool;
  alerts : list string
}.

(** Everything the handlers share.  [first_run_complete] is the item
    [localmind_first_run_complete] of [localStorage]; [userPreferredName] is
    [window.userPreferredName]. *)
Record World := {
  frt : Narrator;
  app : AppState;
  dom : Dom;
  wizard : RPG.Wizard;
  first_run_complete : option string;
  session : SessionStorage;
  userPreferredName : string
}.

(** Field updates. *)
Definition set_kind (v : option GateKind) (x : RequiredAction) : RequiredAction :=
  {| kind := v; satisfied := satisfied x; attempts := attempts x; baselineQuestion := baselineQuestion x; soft_after := soft_after x |}.
Definition set_satisfied (v : bool) (x : RequiredAction) : RequiredAction :=
  {| kind := kind x; satisfied := v; attempts := attempts x; baselineQuestion := baselineQuestion x; soft_after := soft_after x |}.
Definition set_attempts (v : nat) (x : RequiredAction) : RequiredAction :=
  {| kind := kind x; satisfied := satisfied x; attempts := v; baselineQuestion := baselineQuestion x; soft_after := soft_after x |}.
Definition set_baselineQuestion (v : option string) (x : RequiredAction) : RequiredAction :=
  {| kind := kind x; satisfied := satisfied x; attempts := attempts x; baselineQuestion := v; soft_after := soft_after x |}.
Definition set_soft_after (v : option nat) (x : RequiredAction) : RequiredAction :=
  {| kind := kind x; satisfied := satisfied x; attempts := attempts x; baselineQuestion := baselineQuestion x; soft_after := v |}.
Definition set_stage (v : Stage) (x : Narrator) : Narrator :=
  {| stage := v; track := track x; partIndex := partIndex x; isTyping := isTyping x; skipRequested := skipRequested x; lastOptionalKind := lastOptionalKind x; nameUsedByTrack := nameUsedByTrack x; requiredAction := requiredAction x |}.
Definition set_track (v : Track) (x : Narrator) : Narrator :=
  {| stage := stage x; track := v; partIndex := partIndex x; isTyping := isTyping x; skipRequested := skipRequested x; lastOptionalKind := lastOptionalKind x; nameUsedByTrack := nameUsedByTrack x; requiredAction := requiredAction x |}.
Definition set_partIndex (v : nat) (x : Narrator) : Narrator :=
  {| stage := stage x; track := track x; partIndex := v; isTyping := isTyping x; skipRequested := skipRequested x; lastOptionalKind := lastOptionalKind x; nameUsedByTrack := nameUsedByTrack x; requiredAction := requiredAction x |}.
Definition set_isTyping (v : bool) (x : Narrator) : Narrator :=
  {| stage := stage x; track := track x; partIndex := partIndex x; isTyping := v; skipRequested := skipRequested x; lastOptionalKind := lastOptionalKind x; nameUsedByTrack := nameUsedByTrack x; requiredAction := requiredAction x |}.
Definition set_skipRequested (v : bool) (x : Narrator) : Narrator :=
  {| stage := stage x; track := track x; partIndex := partIndex x; isTyping := isTyping x; skipRequested := v; lastOptionalKind := lastOptionalKind x; nameUsedByTrack := nameUsedByTrack x; requiredAction := requiredAction x |}.
Definition set_lastOptionalKind (v : option string) (x : Narrator) : Narrator :=
  {| stage := stage x; track := track x; partIndex := partIndex x; isTyping := isTyping x; skipRequested := skipRequested x; lastOptionalKind := v; nameUsedByTrack := nameUsedByTrack x; requiredAction := requiredAction x |}.
Definition set_nameUsedByTrack (v : list Track) (x : Narrator) : Narrator :=
  {| stage := stage x; track := track x; partIndex := partIndex x; isTyping := isTyping x; skipRequested := skipRequested x; lastOptionalKind := lastOptionalKind x; nameUsedByTrack := v; requiredAction := requiredAction x |}.
Definition set_requiredAction (v : RequiredAction) (x : Narrator) : Narrator :=
  {| stage := stage x; track := track x; partIndex := partIndex x; isTyping := isTyping x; skipRequested := skipRequested x; lastOptionalKind := lastOptionalKind x; nameUsedByTrack := nameUsedByTrack x; requiredAction := v |}.
Definition set_isGenerating (v : bool) (x : AppState) : AppState :=
  {| isGenerating := v; tutorialHistory := tutorialHistory x; tutorialSystemPromptId := tutorialSystemPromptId x; tutorialSystemPromptText := tutorialSystemPromptText x |}.
Definition set_tutorialHistory (v : list (string * string)) (x : AppState) : AppState :=
  {| isGenerating := isGenerating x; tutorialHistory := v; tutorialSystemPromptId := tutorialSystemPromptId x; tutorialSystemPromptText := tutorialSystemPromptText x |}.
Definition set_tutorialSystemPromptId (v : string) (x : AppState) : AppState :=
  {| isGenerating := isGenerating x; tutorialHistory := tutorialHistory x; tutorialSystemPromptId := v; tutorialSystemPromptText := tutorialSystemPromptText x |}.
Definition set_tutorialSystemPromptText (v : string) (x : AppState) : AppState :=
  {| isGenerating := isGenerating x; tutorialHistory := tutorialHistory x; tutorialSystemPromptId := tutorialSystemPromptId x; tutorialSystemPromptText := v |}.
Definition set_rpg_system_prompt (v : option string) (x : SessionStorage) : SessionStorage :=
  {| rpg_system_prompt := v; user_preferred_name := user_preferred_name x; rpg_tier_a := rpg_tier_a x; tutorial_tier_b := tutorial_tier_b x; tutorial_defaults := tutorial_defaults x |}.
Definition set_user_preferred_name (v : option string) (x : SessionStorage) : SessionStorage :=
  {| rpg_system_prompt := rpg_system_prompt x; user_preferred_name := v; rpg_tier_a := rpg_tier_a x; tutorial_tier_b := tutorial_tier_b x; tutorial_defaults := tutorial_defaults x |}.
Definition set_rpg_tier_a (v : option (option JObject)) (x : SessionStorage) : SessionStorage :=
  {| rpg_system_prompt := rpg_system_prompt x; user_preferred_name := user_preferred_name x; rpg_tier_a := v; tutorial_tier_b := tutorial_tier_b x; tutorial_defaults := tutorial_defaults x |}.
Definition set_tutorial_tier_b (v : option (option JObject)) (x : SessionStorage) : SessionStorage :=
  {| rpg_system_prompt := rpg_system_prompt x; user_preferred_name := user_preferred_name x; rpg_tier_a := rpg_tier_a x; tutorial_tier_b := v; tutorial_defaults := tutorial_defaults x |}.
Definition set_tutorial_defaults (v : option (option JObject)) (x : SessionStorage) : SessionStorage :=
  {| rpg_system_prompt := rpg_system_prompt x; user_preferred_name := user_preferred_name x; rpg_tier_a := rpg_tier_a x; tutorial_tier_b := tutorial_tier_b x; tutorial_defaults := v |}.
Definition set_bodyClasses (v : list string) (x : Dom) : Dom :=
  {| bodyClasses := v; navLocked := navLocked x; backDisabled := backDisabled x; textSurface := textSurface x; optional := optional x; overlayDisplayed := overlayDisplayed x; promptDisabled := promptDisabled x; finalReviewHidden := finalReviewHidden x; confirmDisabled := confirmDisabled x; confirmText := confirmText x; hasErrorDiv := hasErrorDiv x; errorText := errorText x; errorDisplayed := errorDisplayed x; alerts := alerts x |}.
Definition set_navLocked (v : bool) (x : Dom) : Dom :=
  {| bodyClasses := bodyClasses x; navLocked := v; backDisabled := backDisabled x; textSurface := textSurface x; optional := optional x; overlayDisplayed := overlayDisplayed x; promptDisabled := promptDisabled x; finalReviewHidden := finalReviewHidden x; confirmDisabled := confirmDisabled x; confirmText := confirmText x; hasErrorDiv := hasErrorDiv x; errorText := errorText x; errorDisplayed := errorDisplayed x; alerts := alerts x |}.
Definition set_backDisabled (v : bool) (x : Dom) : Dom :=
  {| bodyClasses := bodyClasses x; navLocked := navLocked x; backDisabled := v; textSurface := textSurface x; optional := optional x; overlayDisplayed := overlayDisplayed x; promptDisabled := promptDisabled x; finalReviewHidden := finalReviewHidden x; confirmDisabled := confirmDisabled x; confirmText := confirmText x; hasErrorDiv := hasErrorDiv x; errorText := errorText x; errorDisplayed := errorDisplayed x; alerts := alerts x |}.
Definition set_textSurface (v : list Block) (x : Dom) : Dom :=
  {| bodyClasses := bodyClasses x; navLocked := navLocked x; backDisabled := backDisabled x; textSurface := v; optional := optional x; overlayDisplayed := overlayDisplayed x; promptDisabled := promptDisabled x; finalReviewHidden := finalReviewHidden x; confirmDisabled := confirmDisabled x; confirmText := confirmText x; hasErrorDiv := hasErrorDiv x; errorText := errorText x; errorDisplayed := errorDisplayed x; alerts := alerts x |}.
Definition set_optional (v : string) (x : Dom) : Dom :=
  {| bodyClasses := bodyClasses x; navLocked := navLocked x; backDisabled := backDisabled x; textSurface := textSurface x; optional := v; overlayDisplayed := overlayDisplayed x; promptDisabled := promptDisabled x; finalReviewHidden := finalReviewHidden x; confirmDisabled := confirmDisabled x; confirmText := confirmText x; hasErrorDiv := hasErrorDiv x; errorText := errorText x; errorDisplayed := errorDisplayed x; alerts := alerts x |}.
Definition set_overlayDisplayed (v : bool) (x : Dom) : Dom :=
  {| bodyClasses := bodyClasses x; navLocked := navLocked x; backDisabled := backDisabled x; textSurface := textSurface x; optional := optional x; overlayDisplayed := v; promptDisabled := promptDisabled x; finalReviewHidden := finalReviewHidden x; confirmDisabled := confirmDisabled x; confirmText := confirmText x; hasErrorDiv := hasErrorDiv x; errorText := errorText x; errorDisplayed := errorDisplayed x; alerts := alerts x |}.
Definition set_promptDisabled (v : bool) (x : Dom) : Dom :=
  {| bodyClasses := bodyClasses x; navLocked := navLocked x; backDisabled := backDisabled x; textSurface := textSurface x; optional := optional x; overlayDisplayed := overlayDisplayed x; promptDisabled := v; finalReviewHidden := finalReviewHidden x; confirmDisabled := confirmDisabled x; confirmText := confirmText x; hasErrorDiv := hasErrorDiv x; errorText := errorText x; errorDisplayed := errorDisplayed x; alerts := alerts x |}.
Definition set_finalReviewHidden (v : bool) (x : Dom) : Dom :=
  {| bodyClasses := bodyClasses x; navLocked := navLocked x; backDisabled := backDisabled x; textSurface := textSurface x; optional := optional x; overlayDisplayed := overlayDisplayed x; promptDisabled := promptDisabled x; finalReviewHidden := v; confirmDisabled := confirmDisabled x; confirmText := confirmText x; hasErrorDiv := hasErrorDiv x; errorText := errorText x; errorDisplayed := errorDisplayed x; alerts := alerts x |}.
Definition set_confirmDisabled (v : bool) (x : Dom) : Dom :=
  {| bodyClasses := bodyClasses x; navLocked := navLocked x; backDisabled := backDisabled x; textSurface := textSurface x; optional := optional x; overlayDisplayed := overlayDisplayed x; promptDisabled := promptDisabled x; finalReviewHidden := finalReviewHidden x; confirmDisabled := v; confirmText := confirmText x; hasErrorDiv := hasErrorDiv x; errorText := errorText x; errorDisplayed := errorDisplayed x; alerts := alerts x |}.
Definition set_confirmText (v : string) (x : Dom) : Dom :=
  {| bodyClasses := bodyClasses x; navLocked := navLocked x; backDisabled := backDisabled x; textSurface := textSurface x; optional := optional x; overlayDisplayed := overlayDisplayed x; promptDisabled := promptDisabled x; finalReviewHidden := finalReviewHidden x; confirmDisabled := confirmDisabled x; confirmText := v; hasErrorDiv := hasErrorDiv x; errorText := errorText x; errorDisplayed := errorDisplayed x; alerts := alerts x |}.
Definition set_errorText (v : string) (x : Dom) : Dom :=
  {| bodyClasses := bodyClasses x; navLocked := navLocked x; backDisabled := backDisabled x; textSurface := textSurface x; optional := optional x; overlayDisplayed := overlayDisplayed x; promptDisabled := promptDisabled x; finalReviewHidden := finalReviewHidden x; confirmDisabled := confirmDisabled x; confirmText := confirmText x; hasErrorDiv := hasErrorDiv x; errorText := v; errorDisplayed := errorDisplayed x; alerts := alerts x |}.
Definition set_errorDisplayed (v : bool) (x : Dom) : Dom :=
  {| bodyClasses := bodyClasses x; navLocked := navLocked x; backDisabled := backDisabled x; textSurface := textSurface x; optional := optional x; overlayDisplayed := overlayDisplayed x; promptDisabled := promptDisabled x; finalReviewHidden := finalReviewHidden x; confirmDisabled := confirmDisabled x; confirmText := confirmText x; hasErrorDiv := hasErrorDiv x; errorText := errorText x; errorDisplayed := v; alerts := alerts x |}.
Definition set_alerts (v : list string) (x : Dom) : Dom :=
  {| bodyClasses := bodyClasses x; navLocked := navLocked x; backDisabled := backDisabled x; textSurface := textSurface x; optional := optional x; overlayDisplayed := overlayDisplayed x; promptDisabled := promptDisabled x; finalReviewHidden := finalReviewHidden x; confirmDisabled := confirmDisabled x; confirmText := confirmText x; hasErrorDiv := hasErrorDiv x; errorText := errorText x; errorDisplayed := errorDisplayed x; alerts := v |}.
Definition set_frt (v : Narrator) (x : World) : World :=
  {| frt := v; app := app x; dom := dom x; wizard := wizard x; first_run_complete := first_run_complete x; session := session x; userPreferredName := userPreferredName x |}.
Definition set_app (v : AppState) (x : World) : World :=
  {| frt := frt x; app := v; dom := dom x; wizard := wizard x; first_run_complete := first_run_complete x; session := session x; userPreferredName := userPreferredName x |}.
Definition set_dom (v : Dom) (x : World) : World :=
  {| frt := frt x; app := app x; dom := v; wizard := wizard x; first_run_complete := first_run_complete x; session := session x; userPreferredName := userPreferredName x |}.
Definition set_wizard (v : RPG.Wizard) (x : World) : World :=
  {| frt := frt x; app := app x; dom := dom x; wizard := v; first_run_complete := first_run_complete x; session := session x; userPreferredName := userPreferredName x |}.
Definition set_first_run_complete (v : option string) (x : World) : World :=
  {| frt := frt x; app := app x; dom := dom x; wizard := wizard x; first_run_complete := v; session := session x; userPreferredName := userPreferredName x |}.
Definition set_session (v : SessionStorage) (x : World) : World :=
  {| frt := frt x; app := app x; dom := dom x; wizard := wizard x; first_run_complete := first_run_complete x; session := v; userPreferredName := userPreferredName x |}.
Definition set_userPreferredName (v : string) (x : World) : World :=
  {| frt := frt x; app := app x; dom := dom x; wizard := wizard x; first_run_complete := first_run_complete x; session := session x; userPreferredName := v |}.

Definition upd_frt (f : Narrator -> Narrator) (w : World) : World := set_frt (f (frt w)) w.
Definition upd_app (f : AppState -> AppState) (w : World) : World := set_app (f (app w)) w.
Definition upd_dom (f : Dom -> Dom) (w : World) : World := set_dom (f (dom w)) w.
Definition upd_wizard (f : RPG.Wizard -> RPG.Wizard) (w : World) : World :=
  set_wizard (f (wizard w)) w.
Definition upd_gate (f : RequiredAction -> RequiredAction) (w : World) : World :=
  upd_frt (fun n => set_requiredAction (f (requiredAction n)) n) w.

(** ** The narrator (FRT): helpers *)

(** [classList.contains], [add] and [remove] *)
Definition contains (c : string) (l : list string) : bool := existsb (String.eqb c) l.
Definition addClass (c : string) (l : list string) : list string :=
  if contains c l then l else (l ++ [c])%list.
Definition removeClass (c : string) (l : list string) : list string :=
  filter (fun x => negb (String.eqb x c)) l.

Definition track_eqb (a b : Track) : bool :=
  match a, b with
  | intro, intro | model, model | system_prompt, system_prompt
  | context, context | memory, memory => true
  | _, _ => false
  end.

Definition nameUsed (t : Track) (n : Narrator) : bool :=
  existsb (track_eqb t) (nameUsedByTrack n).

(** [isFirstRun] and [markFirstRunComplete] *)
Definition isFirstRun (w : World) : bool :=
  match first_run_complete w with None => true | Some _ => false end.
Definition markFirstRunComplete (w : World) : World :=
  set_first_run_complete (Some "complete") w.

Definition TUTORIAL_PROMPT_PIRATE : string :=
  "You are a friendly pirate assistant. Speak like a pirate in your responses, using phrases like 'ahoy', 'matey', and 'arr', but remain helpful and accurate in your information.".
Definition TUTORIAL_PROMPT_DEFAULT : string :=
  "You are a helpful AI assistant. Provide clear, accurate, and friendly responses.".

(** *** Name substitution *)

(** [/{name}/]: a match at the head of the subject. *)
Definition matchName (s : string) : option nat :=
  if startsWith "{name}" s then Some 6 else None.

(** [/,\s*\{name\}/]: a comma, white space, the placeholder. *)
Definition matchCommaName (s : string) : option nat :=
  match s with
  | String c r =>
      if Ascii.eqb c "," then
        let r' := trimStart r in
        if startsWith "{name}" r'
        then Some (1 + (String.length r - String.length r') + 6)
        else None
      else None
  | "" => None
  end.

Definition limitedTrack (t : Track) : bool :=
  match t with system_prompt | context | memory => true | _ => false end.

(** [x || y] on a stored item that may be absent *)
Definition orItem (x : string) (y : option string) : string :=
  if truthy x then x else match y with Some v => v | None => "" end.

Definition replaceNamePlaceholder (txt : string) (w : World) : string * World :=
  let t := track (frt w) in
  if contains "first-run-tutorial" (bodyClasses (dom w))
     && (track_eqb t intro || track_eqb t model)
  then (replaceAll matchName "user" txt, w)
  else
    let name := orItem (userPreferredName w) (user_preferred_name (session w)) in
    let finalName := if truthy name then name else "user" in
    if truthy name && limitedTrack t then
      if negb (nameUsed t (frt w)) then
        (replaceAll matchName finalName txt,
         upd_frt (fun n => set_nameUsedByTrack (nameUsedByTrack n ++ [t])%list n) w)
      else
        (replaceAll matchName "" (replaceAll matchCommaName "" txt), w)
    else (replaceAll matchName finalName txt, w).

(** [l.map(x => f(x))] for an [f] that also writes the shared state *)
Fixpoint mapState {A B : Type} (f : A -> World -> B * World) (l : list A) (w : World)
  : list B * World :=
  match l with
  | [] => ([], w)
  | x :: r =>
      let '(y, w1) := f x w in
      let '(ys, w2) := mapState f r w1 in
      (y :: ys, w2)
  end.

(** [if (p.line) p.line = replaceNamePlaceholder(p.line)] *)
Definition replaceIfPresent (txt : string) (w : World) : string * World :=
  if truthy txt then replaceNamePlaceholder txt w else (txt, w).

(** [{ ...seg, text: replaceNamePlaceholder(seg.text) }] *)
Definition processSegment (sg : Segment) (w : World) : Segment * World :=
  let '(t, w') := replaceNamePlaceholder (text sg) w in
  (seg t (className sg), w').

Definition processStep (st : Step) (w : World) : Step * World :=
  match st with
  | line a i segs =>
      let '(segs', w1) := mapState processSegment segs w in
      (line a i segs', w1)
  | list_ a items =>
      let '(items', w1) := mapState replaceNamePlaceholder items w in
      (list_ a items', w1)
  | _ => (st, w)
  end.

Definition processPartWithName (p : Part) (w : World) : Part * World :=
  let '(steps', w1) := mapState processStep (steps p) w in
  let '(idle, w2) := replaceIfPresent (idleLine p) w1 in
  let '(click, w3) := replaceIfPresent (clickAttemptLine p) w2 in
  let '(typing, w4) := replaceIfPresent (typingAttemptLine p) w3 in
  let '(early, w5) := replaceIfPresent (earlyClickLine p) w4 in
  ({| earlyClickLine := early; typingAttemptLine := typing;
      clickAttemptLine := click; idleLine := idle;
      onEnter := onEnter p; requires := requires p; steps := steps' |}, w5).

(** *** Asides and hooks *)

(** [showOptional(text, isTransient, kind)], up to the end of its typing.
    The timers that fade a transient aside out afterwards are not run. *)
Definition showOptional (txt : string) (isTransient : bool) (k : string) (w : World)
  : World :=
  if negb (truthy txt) then w
  else if negb isTransient
          && match lastOptionalKind (frt w) with
             | Some k' => String.eqb k' k
             | None => false
             end
  then w
  else upd_dom (set_optional txt) (upd_frt (set_lastOptionalKind (Some k)) w).

(** The staged items that [SHOW_FINAL_REVIEW] hands to [JSON.parse]
    ([rpg_tier_a], then [tutorial_tier_b]) are absent or parse. *)
Definition stagedReadable (s : SessionStorage) : bool :=
  match rpg_tier_a s, tutorial_tier_b s with
  | Some None, _ => false
  | _, Some None => false
  | _, _ => true
  end.

(** The hook throws: [SHOW_FINAL_REVIEW] parses the staged items with no
    [try] around, before it writes anything. *)
Definition hookThrows (h : Hook) (s : SessionStorage) : bool :=
  match h with
  | SHOW_FINAL_REVIEW => negb (stagedReadable s)
  | _ => false
  end.

(** [handleNarratorHook], for a hook that returns ([hookThrows] tells when
    it does not).  Of each hook the effects on the modelled state are kept:
    body classes, tutorial history, active prompt, chat input, final review
    overlay, questionnaire overlay (shown by timers, which are taken as
    run).  [LOAD_CONTEXT_PACKET] waits up to 1.2 s for the placeholder that
    a later step of its part creates and then rewrites the markup inside
    it: that markup is not part of [Block], so the hook leaves the state as
    it is and the block keeps the markup of the script.  The prompt readout
    is the page's own element [frt-prompt-readout]. *)
Definition handleNarratorHook (h : Hook) (w : World) : World :=
  match h with
  | SHOW_MODEL_LOADER_RAIL =>
      upd_dom (fun d =>
        let cl := addClass "frt-pulse-model"
                    (addClass "frt-with-rail"
                       (addClass "frt-allow-right-rail" (bodyClasses d))) in
        let cl := if negb (contains "frt-right-sidebar-unlocked" cl)
                  then removeClass "frt-allow-right-sidebar" cl else cl in
        set_bodyClasses cl d) w
  | ENABLE_SPLIT_CHAT =>
      upd_app (set_tutorialHistory [])
        (upd_dom (fun d =>
           set_promptDisabled false
             (set_bodyClasses
                (removeClass "frt-split" (addClass "frt-split-with-chat" (bodyClasses d))) d)) w)
  | SWAP_PROMPT_PIRATE =>
      upd_app (fun a => set_tutorialSystemPromptText TUTORIAL_PROMPT_PIRATE
                          (set_tutorialSystemPromptId "pirate" a)) w
  | SWAP_PROMPT_DEFAULT =>
      upd_app (fun a => set_tutorialSystemPromptText TUTORIAL_PROMPT_DEFAULT
                          (set_tutorialSystemPromptId "default" a)) w
  | LAUNCH_SYSTEM_PROMPT_RPG => upd_wizard RPG.show w
  | LOAD_CONTEXT_PACKET => w
  | SHOW_FINAL_REVIEW => upd_dom (set_finalReviewHidden false) w
  | DISABLE_SPLIT_CHAT =>
      upd_app (set_tutorialHistory [])
        (upd_dom (fun d =>
           set_promptDisabled true
             (set_bodyClasses
                (addClass "is-dimmed"
                   (addClass "frt-split" (removeClass "frt-split-with-chat" (bodyClasses d)))) d)) w)
  end.

(** [setNavEnabled(enabled)] *)
Definition setNavEnabled (enabled : bool) (w : World) : World :=
  upd_dom (fun d => set_backDisabled (partIndex (frt w) <=? 1)
                      (set_navLocked (negb enabled) d)) w.

(** [clearNarrator] *)
Definition clearNarrator (w : World) : World :=
  upd_dom (fun d => set_optional "" (set_textSurface [] d)) w.

(** ** The narrator (FRT): rendering a part and the handlers *)

Definition gateFor (r : Requires) : RequiredAction :=
  {| kind := Some (req_kind r); satisfied := false; attempts := 0;
     baselineQuestion := None;
     soft_after := Some (match req_soft_after r with
                         | Some n => orDefault n 999
                         | None => 999
                         end) |}.

Definition noGate (old : RequiredAction) : RequiredAction :=
  {| kind := None; satisfied := true; attempts := 0;
     baselineQuestion := None; soft_after := soft_after old |}.

Definition isDeadEnd (w : World) : bool :=
  track_eqb (track (frt w)) model && (partIndex (frt w) =? 4).

(** [renderPart(index)], run until its promise resolves; [renderPartOutcome]
    below tells when it is rejected instead.  [clicks] are the instants at
    which a click asks to skip the typing: the aside that a click on Next
    also shows then is the listener's ([btnNext_click]) and is not repeated
    here.  The idle and auto-advance timers armed at the end are not part
    of the state: the auto-advance timer does what a click on Next does. *)
Definition renderPart (clicks : nat -> bool) (index : nat) (w : World) : World :=
  match getPart (track (frt w)) index with
  | None => w
  | Some p0 =>
      let '(part, w) := processPartWithName p0 w in
      let w := upd_frt (fun n => set_skipRequested false
                                   (set_isTyping true (set_partIndex index n))) w in
      let w := clearNarrator (setNavEnabled false w) in
      let w := match onEnter part with
               | Some h => handleNarratorHook h w
               | None => w
               end in
      let '(surface, c) :=
        renderSteps clicks (steps part)
          (textSurface (dom w), (skipRequested (frt w), 0)) in
      let w := upd_dom (set_textSurface surface)
                 (upd_frt (set_skipRequested (fst c)) w) in
      let w := upd_frt (fun n => set_skipRequested false (set_isTyping false n)) w in
      let w := setNavEnabled true w in
      let w := match requires part with
               | Some r =>
                   upd_dom (set_navLocked true) (upd_gate (fun _ => gateFor r) w)
               | None =>
                   upd_dom (set_navLocked false) (upd_gate noGate w)
               end in
      if isDeadEnd w then
        showOptional "Click the blinking model icon on the right." false
          "final-instruction" (upd_dom (set_navLocked true) w)
      else w
  end.

(** How the promise of [renderPart] settles. *)
Inductive Outcome := resolved (w : World) | rejected (w : World).

(** [renderPart(index)] with the exception of its hook: when the hook
    throws, the promise is rejected with the narrator left as it is at that
    point, typing, with an empty surface and the gate of the part before. *)
Definition renderPartOutcome (clicks : nat -> bool) (index : nat) (w : World) : Outcome :=
  match getPart (track (frt w)) index with
  | None => resolved w
  | Some p0 =>
      let '(part, w1) := processPartWithName p0 w in
      let w1 := upd_frt (fun n => set_skipRequested false
                                    (set_isTyping true (set_partIndex index n))) w1 in
      let w1 := clearNarrator (setNavEnabled false w1) in
      match onEnter part with
      | Some h => if hookThrows h (session w1) then rejected w1
                  else resolved (renderPart clicks index w)
      | None => resolved (renderPart clicks index w)
      end
  end.

(** [endTutorial]; the sidebar and the inline locks of the chat area, which
    it also resets, are not part of the state. *)
Definition endTutorial (w : World) : World :=
  let w := markFirstRunComplete w in
  let w := upd_dom (fun d =>
             set_promptDisabled false
               (set_overlayDisplayed false
                  (set_bodyClasses
                     (filter (fun c => negb (startsWith "frt-" c
                                             || String.eqb c "first-run-tutorial"
                                             || String.eqb c "is-dimmed"))
                        (bodyClasses d)) d))) w in
  upd_app (set_tutorialHistory []) w.

(** [enterFirstRunStep1]: the boot screen is set up and the first part of
    the intro track is rendered right away. *)
Definition enterFirstRunStep1 (clicks : nat -> bool) (w : World) : World :=
  let w := match rpg_system_prompt (session w) with
           | Some stored =>
               if truthy stored
               then upd_app (fun a => set_tutorialSystemPromptText stored
                                        (set_tutorialSystemPromptId "custom" a)) w
               else w
           | None => w
           end in
  let w := upd_frt (set_stage boot) w in
  let w := upd_dom (fun d =>
             set_overlayDisplayed true
               (set_bodyClasses
                  (addClass "frt-boot"
                     (addClass "is-dimmed"
                        (addClass "first-run-tutorial" (bodyClasses d)))) d)) w in
  let w := upd_dom (set_backDisabled true) (setNavEnabled true w) in
  let w := upd_dom (set_promptDisabled true) w in
  let w := upd_frt (set_stage script) w in
  renderPart clicks 1 w.

Definition antiSkipLines : list string :=
  ["Not yet."; "You can't speedrun character development."; "Do the thing."].

Definition gatePending (w : World) : bool :=
  match kind (requiredAction (frt w)) with
  | Some _ => negb (satisfied (requiredAction (frt w)))
  | None => false
  end.

Definition moveToTrack (t : Track) (w : World) : World :=
  upd_frt (fun n => set_partIndex 0 (set_track t n)) w.

(** The tail of the [click] listener of [FRT.els.btnNext], from the dead-end
    check on: the part of the handler that moves the play-head. *)
Definition advance (clicks : nat -> bool) (w : World) : World :=
  if isDeadEnd w then w
  else if partIndex (frt w) <? getMaxPart (track (frt w)) then
    renderPart clicks (S (partIndex (frt w))) w
  else
    match track (frt w) with
    | intro =>
        renderPart clicks 1
          (upd_dom (fun d =>
             set_bodyClasses
               (addClass "frt-wide-panel" (addClass "frt-split" (bodyClasses d))) d)
             (moveToTrack model w))
    | system_prompt => renderPart clicks 1 (moveToTrack context w)
    | context => renderPart clicks 1 (moveToTrack memory w)
    | memory => endTutorial w
    | model =>
        showOptional ("The loader is blinking on the right." ++ nl ++ "Click it.")
          true "end-model"
          (upd_dom (fun d =>
             set_bodyClasses
               (addClass "frt-pulse-model"
                  (addClass "frt-allow-right-rail" (bodyClasses d))) d) w)
    end.

(** The gate branch of the listener: a deterrent line, and for the chat
    gates one more attempt. *)
Definition gateBlocked (w : World) : World :=
  match kind (requiredAction (frt w)) with
  | Some final_review_confirm =>
      showOptional ("Review the details below." ++ nl ++ "Then click LOOKS GOOD →")
        true "gate-final-review" w
  | _ =>
      let lineIndex := Nat.min (attempts (requiredAction (frt w)))
                         (List.length antiSkipLines - 1) in
      let w := showOptional (nth lineIndex antiSkipLines "") true "gate-block" w in
      (* the reminder a chat_repeat gate layers on one second later is a
         timer and is not run *)
      upd_gate (fun g => set_attempts (S (attempts g)) g) w
  end.

(** The [click] listener of [FRT.els.btnNext]. *)
Definition btnNext_click (clicks : nat -> bool) (w : World) : World :=
  match stage (frt w) with
  | boot =>
      renderPart clicks 1
        (upd_frt (set_stage script)
           (upd_dom (fun d => set_bodyClasses (removeClass "frt-boot" (bodyClasses d)) d) w))
  | _ =>
      if isTyping (frt w) then
        let w :=
          match stage (frt w), getPart (track (frt w)) (partIndex (frt w)) with
          | script, Some p => showOptional (earlyClickLine p) true "early" w
          | _, _ => w
          end in
        upd_frt (set_skipRequested true) w
      else if gatePending w then gateBlocked w
      else advance clicks w
  end.

(** The [click] listener of [FRT.els.btnBack]: what runs once a click is
    delivered.  The button is disabled on the first part ([setNavEnabled]),
    and a disabled button delivers none: see [clickBack]. *)
Definition btnBack_click (clicks : nat -> bool) (w : World) : World :=
  if isTyping (frt w) then upd_frt (set_skipRequested true) w
  else if 1 <? partIndex (frt w) then renderPart clicks (partIndex (frt w) - 1) w
  else w.

(** A click on the Back button: the listener runs unless the button is
    disabled. *)
Definition clickBack (clicks : nat -> bool) (w : World) : World :=
  if backDisabled (dom w) then w else btnBack_click clicks w.

(** [api.loadModel] once the model has loaded: the status turns to ready,
    which enables the chat input ([updateStatus]); during the tutorial the
    settings panel is closed ([toggleSettings(false)]) and the narrator
    moves on to the [system_prompt] track. *)
Definition modelLoaded (clicks : nat -> bool) (w : World) : World :=
  let w := upd_dom (set_promptDisabled false) w in
  if contains "first-run-tutorial" (bodyClasses (dom w)) then
    renderPart clicks 1
      (upd_frt (fun n => set_partIndex 1 (set_track system_prompt n))
         (upd_dom (fun d =>
            set_bodyClasses
              (removeClass "frt-settings-open"
                 (removeClass "frt-pulse-model" (bodyClasses d))) d) w))
  else w.

(** *** Tutorial chat and the required-action check *)

Definition isTutorialChat (w : World) : bool :=
  contains "first-run-tutorial" (bodyClasses (dom w))
  && contains "frt-split-with-chat" (bodyClasses (dom w)).

Definition unlockNav (w : World) : World := upd_dom (set_navLocked false) w.

(** [x || ""] on a string that may be [null] *)
Definition orEmpty (b : option string) : string :=
  match b with Some s => s | None => "" end.

(** The block "Check if this satisfies a required action" of [api.chat]. *)
Definition checkRequiredAction (promptText : string) (w : World) : World :=
  let g := requiredAction (frt w) in
  if gatePending w then
    let userMsg := toLowerCase (trim promptText) in
    match kind g with
    | Some chat_any =>
        unlockNav
          (upd_gate (fun g => set_baselineQuestion (Some (trim promptText))
                                (set_satisfied true g)) w)
    | Some chat_repeat =>
        let baseline := toLowerCase (trim (orEmpty (baselineQuestion g))) in
        if String.eqb userMsg baseline then
          unlockNav (upd_gate (set_satisfied true) w)
        else
          let w := upd_gate (fun g => set_attempts (S (attempts g)) g) w in
          match soft_after (requiredAction (frt w)) with
          | Some n =>
              if n <=? attempts (requiredAction (frt w)) then
                showOptional "Close enough. You're the type to improvise." true
                  "gate-soft-pass" (unlockNav (upd_gate (set_satisfied true) w))
              else w
          | None => w
          end
    | _ => w
    end
  else w.

(** [api.chat()] from the chat input holding [inputValue].  [reply] is the
    text streamed back, [None] when the request fails or has no body.  The
    whole exchange is one step: nothing else happens while the reply
    streams, and [state.isGenerating] is back to [false] when it ends.  The
    messages it appends to the chat area are not part of [Dom]; outside the
    tutorial chat the exchange goes to [/chat] and writes nothing else of
    the state kept here. *)
Definition chat (inputValue : string) (reply : option string) (w : World) : World :=
  let promptText := trim inputValue in
  if negb (truthy promptText) || isGenerating (app w) then w
  else if isTutorialChat w then
    let w := upd_app (fun a => set_tutorialHistory
                                 (tutorialHistory a ++ [("user", promptText)])%list a) w in
    match reply with
    | None => w
    | Some content =>
        let w := upd_app (fun a => set_tutorialHistory
                                     (tutorialHistory a ++ [("assistant", content)])%list a) w in
        checkRequiredAction promptText w
    end
  else w.

End FRT.

(** ** Committing: the review screen of the wizard and the final review *)

Module Commit.
Import JS FRT.

(** What the server answers to a commit request. *)
Inductive Response := Ok | NotOk | NetworkError.

Record Payload := {
  system_prompt : string;
  tier_a : JObject;
  tier_b : JObject;
  defaults : JObject;
  tutorial_completed : bool
}.

(** [typeof v === 'string' ? v.trim() : v] *)
Definition trimVal (v : JVal) : JVal :=
  match v with JStr s => JStr (trim s) | _ => v end.

(** [trimmed !== '' && trimmed != null] *)
Definition keepVal (v : JVal) : bool :=
  match v with
  | JNull => false
  | JStr s => truthy s
  | JOther _ => true
  end.

Fixpoint cleanTierA (entries : JObject) : JObject :=
  match entries with
  | [] => []
  | (k, v) :: r =>
      if keepVal (trimVal v) then (k, trimVal v) :: cleanTierA r else cleanTierA r
  end.

(** [Map.prototype.set]: a key already present keeps its place. *)
Fixpoint mapSet (k : string) (v : JVal) (m : JObject) : JObject :=
  match m with
  | [] => [(k, v)]
  | (k', v') :: r => if String.eqb k' k then (k', v) :: r else (k', v') :: mapSet k v r
  end.

Definition tierBEntries (entries : JObject) : JObject :=
  fold_left (fun m kv =>
               let k := trim (fst kv) in
               let v := trimVal (snd kv) in
               if truthy k && keepVal v then mapSet k v m else m)
            entries [].

(** [json ? JSON.parse(json) : {}]; [None] when [JSON.parse] throws. *)
Definition parseStaged (item : option (option JObject)) : option JObject :=
  match item with
  | None => Some []
  | Some parsed => parsed
  end.

Definition stagedPrompt (w : World) : string :=
  orItem (tutorialSystemPromptText (app w)) (rpg_system_prompt (session w)).

(** The body of the request to [/tutorial/commit]; [None] when building it
    throws. *)
Definition commitPayload (w : World) : option Payload :=
  match parseStaged (rpg_tier_a (session w)),
        parseStaged (tutorial_tier_b (session w)),
        parseStaged (tutorial_defaults (session w)) with
  | Some tierA, Some tierB, Some dflt =>
      Some {| system_prompt := stagedPrompt w;
              tier_a := cleanTierA tierA;
              tier_b := tierBEntries tierB;
              defaults := dflt;
              tutorial_completed := true |}
  | _, _, _ => None
  end.

Definition failedToSave : string := "Failed to save. Please try again.".

(** The [click] listener of [btn-final-review-confirm].  [resp] is the
    answer to the request, if one is sent.  On success the tutorial ends
    from a timer 800 ms later, which is taken as run; the timer that hides
    the error line again after three seconds is not. *)
Definition btnFinalReviewConfirm_click (resp : Response) (w : World) : World :=
  let originalText := confirmText (dom w) in
  let w := upd_dom (fun d => set_confirmText "SAVING..." (set_confirmDisabled true d)) w in
  match commitPayload w, resp with
  | Some _, Ok =>
      let w := upd_gate (fun g => set_kind None (set_satisfied true g)) w in
      let w := upd_dom (fun d =>
                 set_confirmText "✓ SAVED!"
                   (set_finalReviewHidden true (set_navLocked false d))) w in
      endTutorial w
  | _, _ =>
      let w := upd_dom (fun d => set_confirmText originalText
                                   (set_confirmDisabled false d)) w in
      if hasErrorDiv (dom w) then
        upd_dom (fun d => set_errorDisplayed true (set_errorText failedToSave d)) w
      else
        upd_dom (fun d => set_alerts (alerts d ++ [failedToSave])%list d) w
  end.

Definition systemPromptActivated : string :=
  "✓ System prompt activated!" ++ nl ++ nl ++ "Your AI assistant is now personalized.".

(** [JSON.stringify(answers.identity)], as the object it parses back to. *)
Definition identityObject (i : RPG.Identity) : JObject :=
  [ ("preferred_name", JStr (RPG.preferred_name i));
    ("location", JStr (RPG.location i));
    ("timezone", JStr (RPG.timezone i));
    ("language_preferences", JStr (RPG.language_preferences i)) ].

(** [RPG.saveSystemPrompt(prompt)].  [resp] is [Ok] when the server accepts
    the prompt and answers with JSON.  On success the wizard closes and the
    narrator resumes from a timer 800 ms later, which is taken as run. *)
Definition saveSystemPrompt (clicks : nat -> bool) (prompt : string)
    (resp : Response) (w : World) : World :=
  let originalText := RPG.saveText (wizard w) in
  let answers := RPG.answers (wizard w) in
  let w := upd_wizard (RPG.withSaveButton true "SAVING...") w in
  match resp with
  | Ok =>
      let pn := RPG.preferred_name (RPG.identity answers) in
      let effectiveName := if truthy pn then pn else "Anonymous" in
      let w := set_session
                 (set_rpg_tier_a (Some (Some (identityObject (RPG.identity answers))))
                    (set_user_preferred_name (Some effectiveName)
                       (set_rpg_system_prompt (Some prompt) (session w)))) w in
      let w := set_userPreferredName effectiveName w in
      let w := upd_app (fun a => set_tutorialSystemPromptText prompt
                                   (set_tutorialSystemPromptId "custom" a)) w in
      let w := upd_wizard (RPG.withSaveButton true "✓ SAVED!") w in
      let w := upd_wizard (fun z => RPG.withScreens (RPG.currentIndex z) true true z) w in
      if contains "first-run-tutorial" (bodyClasses (dom w)) then
        renderPart clicks 11
          (upd_frt (fun n => set_partIndex 11 (set_track FRT.system_prompt n)) w)
      else
        upd_dom (fun d =>
          set_alerts (alerts d ++ [systemPromptActivated])%list d) w
  | _ =>
      upd_dom (fun d =>
        set_alerts (alerts d ++ ["Failed to save system prompt. Please try again."])%list d)
        (upd_wizard (RPG.withSaveButton false originalText) w)
  end.


End Commit.

(** ** The page when the script starts *)

Module Start.
Import JS FRT.

Definition initialAnswers : RPG.Answers :=
  {| RPG.name := ""; RPG.domain := ""; RPG.style := ""; RPG.capabilities := [];
     RPG.identity := {| RPG.preferred_name := ""; RPG.location := "";
                        RPG.timezone := ""; RPG.language_preferences := "English" |};
     RPG.custom := "" |}.

Definition initialFRT : Narrator :=
  {| stage := stage_none; track := intro; partIndex := 0; isTyping := false;
     skipRequested := false; lastOptionalKind := None; nameUsedByTrack := [];
     requiredAction := {| kind := None; satisfied := false; attempts := 0;
                          baselineQuestion := None; soft_after := None |} |}.

Definition initialState : AppState :=
  {| isGenerating := false; tutorialHistory := [];
     tutorialSystemPromptId := "default";
     tutorialSystemPromptText := TUTORIAL_PROMPT_DEFAULT |}.

(** The page of a first run with nothing stored: the labels of the two
    commit buttons and the presence of the error line come from the page's
    markup, which is not part of the script. *)
Definition freshWorld (confirmLabel saveLabel : string) (errorDiv : bool) : World :=
  {| frt := initialFRT;
     app := initialState;
     dom := {| bodyClasses := []; navLocked := false; backDisabled := false;
               textSurface := []; optional := ""; overlayDisplayed := false;
               promptDisabled := false; finalReviewHidden := true;
               confirmDisabled := false; confirmText := confirmLabel;
               hasErrorDiv := errorDiv; errorText := ""; errorDisplayed := false;
               alerts := [] |};
     wizard := {| RPG.currentIndex := 0; RPG.answers := initialAnswers;
                  RPG.controls := []; RPG.backDisabled := false;
                  RPG.nextDisabled := false; RPG.hidden := true;
                  RPG.reviewHidden := true; RPG.editorValue := "";
                  RPG.charCount := 0; RPG.saveDisabled := false;
                  RPG.saveText := saveLabel |};
     first_run_complete := None;
     session := {| rpg_system_prompt := None; user_preferred_name := None;
                   rpg_tier_a := None; tutorial_tier_b := None;
                   tutorial_defaults := None |};
     userPreferredName := "" |}.

(** No click arrives while a part is typing. *)
Definition quiet : nat -> bool := fun _ => false.

End Start.

(** ** Runs of the narrator: the vocabulary of the statements *)

Module Run.
Import JS FRT.

Definition gate (w : World) : RequiredAction := requiredAction (frt w).

Definition playhead (w : World) : Track * nat := (track (frt w), partIndex (frt w)).

(** The narrator is in normal playback and no part is typing. *)
Definition settled (w : World) : Prop :=
  stage (frt w) = script /\ isTyping (frt w) = false.

Definition inTutorial (w : World) : bool :=
  contains "first-run-tutorial" (bodyClasses (dom w)).

(** The action a pending gate asks for has been done. *)
Definition satisfy (w : World) : World := upd_gate (set_satisfied true) w.

(** A forward action with no gate pending. *)
Definition forward (clicks : nat -> bool) (w : World) : World :=
  btnNext_click clicks (satisfy w).

(** What a forward action does to the play-head, read off [advance]. *)
Definition headStep (h : Track * nat) : Track * nat :=
  let '(t, i) := h in
  if track_eqb t model && (i =? 4) then h
  else if i <? getMaxPart t then (t, S i)
  else match t with
       | intro => (model, 1)
       | FRT.system_prompt => (context, 1)
       | context => (memory, 1)
       | _ => h
       end.

Definition atFinalPart (h : Track * nat) : bool :=
  track_eqb (fst h) memory && (getMaxPart memory <=? snd h).

Definition noFinalBefore (n : nat) (h : Track * nat) : bool :=
  forallb (fun k => negb (atFinalPart (Nat.iter k headStep h))) (seq 0 n).

Definition tutorialClass (c : string) : bool :=
  startsWith "frt-" c || String.eqb c "first-run-tutorial" || String.eqb c "is-dimmed".

(** The completed state: the first-run flag is stored, the narrator overlay
    is gone and [body] carries no tutorial class. *)
Definition tornDown (w : World) : Prop :=
  first_run_complete w = Some "complete"
  /\ overlayDisplayed (dom w) = false
  /\ forall c, In c (bodyClasses (dom w)) -> tutorialClass c = false.

(** The gate a part requiring [chat_repeat] has after [a] attempts. *)
Definition repeatGate (a : nat) (b : option string) (n : nat) : RequiredAction :=
  {| kind := Some chat_repeat; satisfied := false; attempts := a;
     baselineQuestion := b; soft_after := Some n |}.

(** A submission that is sent (it is not blank) and is not the baseline. *)
Definition mismatched (b : option string) (m : string) : Prop :=
  truthy (trim m) = true
  /\ toLowerCase (trim m) <> toLowerCase (trim (orEmpty b)).

Definition matching (b : option string) (m : string) : Prop :=
  truthy (trim m) = true
  /\ toLowerCase (trim m) = toLowerCase (trim (orEmpty b)).

(** [w'] is [w] up to the record of the tracks that have used the name. *)
Definition namesOnly (w w' : World) : Prop :=
  exists L, w' = upd_frt (set_nameUsedByTrack L) w.

(** The gate state [renderPart] leaves for a part. *)
Definition gateOf (p : Part) (old : RequiredAction) : RequiredAction :=
  match requires p with Some r => gateFor r | None => noGate old end.

(** *** A first run, step by step *)

Definition page : World := Start.freshWorld "LOOKS GOOD" "USE THIS PROMPT" true.
Definition atIntro : World := enterFirstRunStep1 Start.quiet page.
Definition atLoader : World := Nat.iter 8 (btnNext_click Start.quiet) atIntro.
Definition atPrompt : World := modelLoaded Start.quiet atLoader.
Definition atChatAny : World := Nat.iter 3 (btnNext_click Start.quiet) atPrompt.
Definition asked : World := chat "What's 2+2?" (Some "4") atChatAny.
Definition atRepeat : World := Nat.iter 3 (btnNext_click Start.quiet) asked.
Definition repeatedOnce : World :=
  chat "  what's 2+2?  " (Some "Four, matey.") atRepeat.
Definition softPassed : World :=
  chat "  what's 2+2?  " (Some "Four, matey.") repeatedOnce.
Definition atLaunch : World := Nat.iter 3 (btnNext_click Start.quiet) softPassed.

Definition rishi : RPG.Answers :=
  {| RPG.name := "Rishi"; RPG.domain := "Just Exploring";
     RPG.style := "Creative & Playful";
     RPG.capabilities := ["Coding & Technical Problems"];
     RPG.identity := {| RPG.preferred_name := "Rishi"; RPG.location := "";
                        RPG.timezone := "EST"; RPG.language_preferences := "English" |};
     RPG.custom := "" |}.

(** The wizard is filled in and its prompt committed: the narrator resumes
    at part 11 of the [system_prompt] track. *)
Definition answered : World := upd_wizard (RPG.withAnswers rishi) atLaunch.
Definition resumed : World :=
  Commit.saveSystemPrompt Start.quiet (RPG.generateSystemPrompt rishi) Commit.Ok answered.
Definition atFinalReview : World := Nat.iter 10 (btnNext_click Start.quiet) resumed.

(** A world in the [system_prompt] track with a stored name that no text
    of the track has used yet. *)
Definition stored : World := set_userPreferredName "Rishi" atRepeat.

End Run.

(** ** The questionnaire wizard (RPG): the listeners of its controls

    The handlers of [RPG] that move between the questions, take the
    answers, submit them and drive the review screen.  [tzString] is what
    the browser's clock formatter gives for the time zone; a control takes
    events only while its screen is visible, and a disabled button takes no
    click. *)

Module Questionnaire.
Import JS FRT RPG.

Definition withIdentity (i : Identity) (a : Answers) : Answers :=
  {| name := name a; domain := domain a; style := style a;
     capabilities := capabilities a; identity := i; custom := custom a |}.

Definition withPreferredName (v : string) (i : Identity) : Identity :=
  {| preferred_name := v; location := location i; timezone := timezone i;
     language_preferences := language_preferences i |}.

Definition withLocation (v : string) (i : Identity) : Identity :=
  {| preferred_name := preferred_name i; location := v; timezone := timezone i;
     language_preferences := language_preferences i |}.

Definition withTimezone (v : string) (i : Identity) : Identity :=
  {| preferred_name := preferred_name i; location := location i; timezone := v;
     language_preferences := language_preferences i |}.

Definition withLanguage (v : string) (i : Identity) : Identity :=
  {| preferred_name := preferred_name i; location := location i;
     timezone := timezone i; language_preferences := v |}.

(** [this.answers[question.id] = value] for the ids of the question list
    that hold text. *)
Definition setAnswer (qid v : string) (a : Answers) : Answers :=
  if String.eqb qid "name" then
    {| name := v; domain := domain a; style := style a;
       capabilities := capabilities a; identity := identity a; custom := custom a |}
  else if String.eqb qid "domain" then
    {| name := name a; domain := v; style := style a;
       capabilities := capabilities a; identity := identity a; custom := custom a |}
  else if String.eqb qid "style" then
    {| name := name a; domain := domain a; style := v;
       capabilities := capabilities a; identity := identity a; custom := custom a |}
  else if String.eqb qid "custom" then
    {| name := name a; domain := domain a; style := style a;
       capabilities := capabilities a; identity := identity a; custom := v |}
  else a.

(** The editor of the review screen with its character count. *)
Definition withEditor (v : string) (w : Wizard) : Wizard :=
  {| currentIndex := currentIndex w; answers := answers w; controls := controls w;
     backDisabled := backDisabled w; nextDisabled := nextDisabled w;
     hidden := hidden w; reviewHidden := reviewHidden w;
     editorValue := v; charCount := String.length v;
     saveDisabled := saveDisabled w; saveText := saveText w |}.

(** The [input] listener of the field of a text question. *)
Definition onInput (q : Question) (v : string) (w : Wizard) : Wizard :=
  let a := setAnswer (id q) v (answers w) in
  let a := if String.eqb (id q) "name"
           then withIdentity (withPreferredName (trim v) (identity a)) a
           else a in
  updateNavigation (withAnswers a w).

(** The [change] listener of a radio button of a single-choice question. *)
Definition onRadioChange (q : Question) (choice : string) (w : Wizard) : Wizard :=
  updateNavigation (withAnswers (setAnswer (id q) choice (answers w)) w).

(** [detectTimezone] of [renderIdentity] *)
Definition detectTimezone (tzString : string) : string :=
  if truthy tzString then tzString else "UTC".

Definition timezoneOptions : list string :=
  ["EST"; "CST"; "MST"; "PST"; "UTC"; "GMT"; "CET"; "JST"; "AEST"].

Definition languageOptions : list string :=
  ["English"; "Spanish"; "French"; "German"; "Chinese"; "Japanese";
   "Portuguese"; "Russian"; "Hindi"].

(** [renderIdentity]: of what it does to the answers, the time zone that
    is filled in when none is set. *)
Definition renderIdentity (tzString : string) (w : Wizard) : Wizard :=
  let i := identity (answers w) in
  let detectedTz := if truthy (timezone i) then timezone i
                    else detectTimezone tzString in
  if negb (truthy (timezone i))
  then withAnswers (withIdentity (withTimezone detectedTz i) (answers w)) w
  else w.

Definition onLocationInput (v : string) (w : Wizard) : Wizard :=
  updateNavigation
    (withAnswers (withIdentity (withLocation v (identity (answers w))) (answers w)) w).

Definition onTimezoneChange (v : string) (w : Wizard) : Wizard :=
  updateNavigation
    (withAnswers (withIdentity (withTimezone v (identity (answers w))) (answers w)) w).

Definition onLanguageChange (v : string) (w : Wizard) : Wizard :=
  updateNavigation
    (withAnswers (withIdentity (withLanguage v (identity (answers w))) (answers w)) w).

(** [render], with the form of the identity question. *)
Definition render (tzString : string) (w : Wizard) : Wizard :=
  match nth_error RPG_QUESTIONS (currentIndex w) with
  | Some q =>
      match qtype q with
      | q_identity => RPG.render (renderIdentity tzString w)
      | _ => RPG.render w
      end
  | None => w
  end.

Definition goTo (index : nat) (w : Wizard) : Wizard :=
  withScreens index (hidden w) (reviewHidden w) w.

Definition goBack (tzString : string) (w : Wizard) : Wizard :=
  if 0 <? currentIndex w then render tzString (goTo (currentIndex w - 1) w) else w.

Definition hide (w : Wizard) : Wizard :=
  withScreens (currentIndex w) true (reviewHidden w) w.

Definition hideReview (w : Wizard) : Wizard :=
  withScreens (currentIndex w) (hidden w) true w.

Definition showReview (prompt : string) (w : Wizard) : Wizard :=
  withScreens (currentIndex w) (hidden w) false (withEditor prompt w).

(** [submit] with its loading screen left to finish: [submitNow] and then
    [submitTimer], which the timer runs five and a half seconds later, with
    nothing done in between ([onTick] has the two apart). *)
Definition submit (w : World) : World :=
  let generatedPrompt := generateSystemPrompt (answers (wizard w)) in
  let w := set_session (set_rpg_system_prompt (Some generatedPrompt) (session w)) w in
  upd_wizard (fun z => showReview generatedPrompt (hide z)) w.

Definition goNext (tzString : string) (w : World) : World :=
  if currentIndex (wizard w) <? List.length RPG_QUESTIONS - 1 then
    upd_wizard (fun z => render tzString (goTo (S (currentIndex z)) z)) w
  else submit w.

(** The [click] listener of [btn-start-over]; [useDefault] is the answer to
    its [confirm] dialog. *)
Definition onStartOver (tzString : string) (useDefault : bool) (w : Wizard) : Wizard :=
  if useDefault then withEditor DEFAULT_PROMPT w
  else
    let w := RPG.show (hideReview w) in
    render tzString (goTo (List.length RPG_QUESTIONS - 1) w).

(** What the user does on the two screens of the wizard. *)
Inductive Event :=
| typeText (v : string)
| pickRadio (i : nat)
| toggleBox (i : nat)
| typeLocation (v : string)
| pickTimezone (i : nat)
| pickLanguage (i : nat)
| clickBack
| clickNext
| pressEnter
| editPrompt (v : string)
| startOver (useDefault : bool).

(** A listener of a control of the question on screen. *)
Definition onQuestion (f : Question -> Wizard -> Wizard) (w : World) : World :=
  if hidden (wizard w) then w
  else match nth_error RPG_QUESTIONS (currentIndex (wizard w)) with
       | Some q => upd_wizard (f q) w
       | None => w
       end.

Definition step (tzString : string) (e : Event) (w : World) : World :=
  let z := wizard w in
  match e with
  | typeText v =>
      onQuestion (fun q z => match qtype q with
                             | q_text => onInput q v z
                             | _ => z
                             end) w
  | pickRadio i =>
      onQuestion (fun q z => match qtype q, nth_error (choices q) i with
                             | q_single, Some choice => onRadioChange q choice z
                             | _, _ => z
                             end) w
  | toggleBox i =>
      onQuestion (fun q z => match qtype q with
                             | q_multi => clickChoice q i z
                             | _ => z
                             end) w
  | typeLocation v =>
      onQuestion (fun q z => match qtype q with
                             | q_identity => onLocationInput v z
                             | _ => z
                             end) w
  | pickTimezone i =>
      onQuestion (fun q z => match qtype q, nth_error timezoneOptions i with
                             | q_identity, Some v => onTimezoneChange v z
                             | _, _ => z
                             end) w
  | pickLanguage i =>
      onQuestion (fun q z => match qtype q, nth_error languageOptions i with
                             | q_identity, Some v => onLanguageChange v z
                             | _, _ => z
                             end) w
  | clickBack =>
      if hidden z || backDisabled z then w else upd_wizard (goBack tzString) w
  | clickNext =>
      if hidden z || nextDisabled z then w else goNext tzString w
  | pressEnter =>
      if negb (hidden z) && negb (nextDisabled z) then goNext tzString w else w
  | editPrompt v =>
      if reviewHidden z then w else upd_wizard (withEditor v) w
  | startOver useDefault =>
      if reviewHidden z then w else upd_wizard (onStartOver tzString useDefault) w
  end.

Definition run (tzString : string) (events : list Event) (w : World) : World :=
  fold_left (fun w e => step tzString e w) events w.

(** The wizard as the narrator opens it ([LAUNCH_SYSTEM_PROMPT_RPG]). *)
Definition launch (w : World) : World := handleNarratorHook LAUNCH_SYSTEM_PROMPT_RPG w.

(** *** What holds of the wizard while it runs *)

Definition question (i : nat) : option Question := nth_error RPG_QUESTIONS i.

(** The choices of the question with the given id. *)
Definition choicesOf (qid : string) : list string :=
  flat_map (fun q => if String.eqb (id q) qid then choices q else []) RPG_QUESTIONS.

(** The checkboxes on screen for a question and the answers: those of a
    multi-choice question, each checked when its choice is an answer. *)
Definition shownBoxes (q : Question) (a : Answers) : list Control :=
  match qtype q with
  | q_multi =>
      map (fun ch => let on := includes ch (capabilities a) in
                     {| value := ch; checked := on; selected := on |}) (choices q)
  | _ => []
  end.

Definition AnswersOk (a : Answers) : Prop :=
  NoDup (capabilities a)
  /\ incl (capabilities a) (choicesOf "capabilities")
  /\ List.length (capabilities a) <= 3
  /\ preferred_name (identity a) = trim (name a)
  /\ (domain a = "" \/ In (domain a) (choicesOf "domain"))
  /\ (style a = "" \/ In (style a) (choicesOf "style")).

(** Every question before the one on screen has a valid answer. *)
Definition earlierValid (z : Wizard) : bool :=
  forallb (fun q => isValid q (answers z)) (firstn (currentIndex z) RPG_QUESTIONS).

Definition Consistent (z : Wizard) : Prop :=
  match question (currentIndex z) with
  | Some q =>
      backDisabled z = (currentIndex z =? 0)
      /\ nextDisabled z = negb (isValid q (answers z))
      /\ controls z = shownBoxes q (answers z)
  | None => False
  end
  /\ AnswersOk (answers z)
  /\ earlierValid z = true
  /\ (reviewHidden z = false -> hidden z = true /\ currentIndex z = 5).

(** Every mandatory question is answered. *)
Definition Complete (a : Answers) : Prop :=
  truthy (trim (name a)) = true
  /\ preferred_name (identity a) = trim (name a)
  /\ In (domain a) (choicesOf "domain")
  /\ In (style a) (choicesOf "style")
  /\ 1 <= List.length (capabilities a) <= 3
  /\ NoDup (capabilities a)
  /\ incl (capabilities a) (choicesOf "capabilities").

(** What [render] needs of the wizard it draws. *)
Definition Drawable (z : Wizard) : Prop :=
  currentIndex z < List.length RPG_QUESTIONS
  /\ AnswersOk (answers z)
  /\ earlierValid z = true
  /\ (reviewHidden z = false -> hidden z = true /\ currentIndex z = 5).

(** The wizard within the page: while the review screen is open, the
    prompt stored by [submit] is the one generated from the answers. *)
Definition WInv (w : World) : Prop :=
  Consistent (wizard w)
  /\ (reviewHidden (wizard w) = false ->
      rpg_system_prompt (session w)
      = Some (generateSystemPrompt (answers (wizard w)))).

(** A user who answers every question and finishes. *)
Definition answering : list Event :=
  [ typeText "Rishi"; clickNext; pickRadio 5; clickNext; pickRadio 3; clickNext;
    toggleBox 1; clickNext; clickNext; clickNext ].

(** *** The loading screen

    [submit] opens the review from a timer, 5.5 s after the click; until
    then the questions stay on screen and their listeners, Enter among
    them, run as before. *)

(** [submit] up to its [setTimeout]: the prompt is generated and stored,
    and the callback armed for 5.5 s later will show it. *)
Definition submitNow (w : World) : World * string :=
  let generatedPrompt := generateSystemPrompt (answers (wizard w)) in
  (set_session (set_rpg_system_prompt (Some generatedPrompt) (session w)) w,
   generatedPrompt).

(** The callback of the timer of [submit]. *)
Definition submitTimer (generatedPrompt : string) (w : World) : World :=
  upd_wizard (fun z => showReview generatedPrompt (hide z)) w.

(** The page with the timers of [submit] that are still to fire, oldest
    first, each with the prompt it holds. *)
Definition Loading : Type := (World * list string)%type.

(** What happens next: the user does something, or the oldest timer
    fires. *)
Inductive Tick := user (e : Event) | timerFires.

Definition goNextNow (tzString : string) (s : Loading) : Loading :=
  let '(w, timers) := s in
  if currentIndex (wizard w) <? List.length RPG_QUESTIONS - 1
  then (goNext tzString w, timers)
  else let '(w', generatedPrompt) := submitNow w in
       (w', (timers ++ [generatedPrompt])%list).

(** One onTick.  While a timer is pending the wizard is still on screen, so
    its listeners run as before. *)
Definition onTick (tzString : string) (t : Tick) (s : Loading) : Loading :=
  let '(w, timers) := s in
  let z := wizard w in
  match t with
  | user clickNext =>
      if hidden z || nextDisabled z then s else goNextNow tzString s
  | user pressEnter =>
      if negb (hidden z) && negb (nextDisabled z) then goNextNow tzString s else s
  | user e => (step tzString e w, timers)
  | timerFires =>
      match timers with
      | [] => s
      | generatedPrompt :: later => (submitTimer generatedPrompt w, later)
      end
  end.

Definition onTicks (tzString : string) (l : list Tick) (s : Loading) : Loading :=
  fold_left (fun s t => onTick tzString t s) l s.

(** A user who lets every loading screen finish before doing anything
    else. *)
Definition patiently (tzString : string) (events : list Event) (s : Loading) : Loading :=
  fold_left (fun s e => onTick tzString timerFires (onTick tzString (user e) s)) events s.

(** Typing into the last question while the loading screen is up. *)
Definition typingWhileLoading : list Tick :=
  (map user answering ++ [user (typeText "Be brief."); timerFires])%list.

(** Enter pressed once more while the loading screen is up. *)
Definition enterTwice : list Tick :=
  (map user answering
   ++ [user pressEnter; timerFires; user (startOver false); user clickBack; timerFires])%list.

End Questionnaire.

(** ** Utilities: the HTML escaper, the event-stream reader, the settings proxy *)

Module Utils.
Import JS.

(** [/c/]: the character [c] at the head of the subject. *)
Definition matchChar (c : ascii) (s : string) : option nat :=
  match s with
  | String x _ => if Ascii.eqb x c then Some 1 else None
  | "" => None
  end.

Definition dquote : ascii := ascii_of_nat 34.

(** [escapeHtml] on a string (any other value is returned as it is). *)
Definition escapeHtml (unsafe : string) : string :=
  replaceAll (matchChar "'") "&#039;"
    (replaceAll (matchChar dquote) "&quot;"
       (replaceAll (matchChar ">") "&gt;"
          (replaceAll (matchChar "<") "&lt;"
             (replaceAll (matchChar "&") "&amp;" unsafe)))).

(** What one character becomes. *)
Definition escapeChar (c : ascii) : string :=
  if Ascii.eqb c "&" then "&amp;"
  else if Ascii.eqb c "<" then "&lt;"
  else if Ascii.eqb c ">" then "&gt;"
  else if Ascii.eqb c dquote then "&quot;"
  else if Ascii.eqb c "'" then "&#039;"
  else String c "".

Fixpoint escapeAll (s : string) : string :=
  match s with
  | "" => ""
  | String c r => escapeChar c ++ escapeAll r
  end.

Fixpoint hasChar (c : ascii) (s : string) : bool :=
  match s with
  | "" => false
  | String x r => Ascii.eqb x c || hasChar c r
  end.

(** The first occurrence of [sep] in [s]: the text before it and the text
    after it ([s.indexOf(sep)] with the two slices). *)
Fixpoint cut (sep s : string) : option (string * string) :=
  match stripPrefix sep s with
  | Some rest => Some ("", rest)
  | None =>
      match s with
      | "" => None
      | String c r =>
          match cut sep r with
          | Some (x, y) => Some (String c x, y)
          | None => None
          end
      end
  end.

(** [s.split(sep)] for a separator that is not empty: [fuel] bounds the
    number of pieces, and the length of [s] is enough. *)
Fixpoint splitFuel (fuel : nat) (sep s : string) : list string :=
  match fuel with
  | 0 => [s]
  | S f =>
      match cut sep s with
      | Some (x, y) => x :: splitFuel f sep y
      | None => [s]
      end
  end.

Definition split (sep s : string) : list string := splitFuel (String.length s) sep s.

Fixpoint concat (l : list string) : string :=
  match l with
  | [] => ""
  | x :: r => x ++ concat r
  end.

(** [readSSE(response, onData)].  The body arrives in chunks, decoded as
    they come; [parse] is [JSON.parse], [None] where it throws.  The result
    lists the payloads handed to [onData], in order. *)
Section SSE.

Variable Payload : Type.
Variable parse : string -> option Payload.

(** The inner loop: the [data: ] lines of one event. *)
Definition dataLines (part : string) : list Payload :=
  flat_map (fun line =>
              match stripPrefix "data: " line with
              | Some json =>
                  match parse json with
                  | Some payload => [payload]
                  | None => []
                  end
              | None => []
              end)
           (split nl part).

(** One turn of the [while] loop: [st] is the buffer with the payloads
    delivered so far. *)
Definition onChunk (st : string * list Payload) (chunk : string)
  : string * list Payload :=
  let buffer := fst st ++ chunk in
  let parts := split (nl ++ nl) buffer in
  (last parts "", (snd st ++ flat_map dataLines (removelast parts))%list).

Definition readSSE (chunks : list string) : list Payload :=
  snd (fold_left onChunk chunks ("", [])).

End SSE.

(** [AppSettings]: [localStorage] is a list of items.  [this.keys[key]]
    looks [key] up in the object [keys] and then along its prototype
    chain. *)
Definition Storage : Type := list (string * string).

Definition keys : list (string * string) :=
  [ ("theme", "local_ai_theme");
    ("accent", "local_ai_accent");
    ("wallOpacity", "local_ai_wall_opacity");
    ("wallUrl", "local_ai_wall_url") ].

(** The properties of [Object.prototype], which [keys] inherits. *)
Definition inherited : list string :=
  [ "constructor"; "hasOwnProperty"; "isPrototypeOf"; "propertyIsEnumerable";
    "toLocaleString"; "toString"; "valueOf"; "__defineGetter__";
    "__defineSetter__"; "__lookupGetter__"; "__lookupSetter__"; "__proto__" ].

Fixpoint setItem (k v : string) (s : Storage) : Storage :=
  match s with
  | [] => [(k, v)]
  | (k', v') :: r => if String.eqb k' k then (k', v) :: r else (k', v') :: setItem k v r
  end.

Section Settings.

(** [String(v)] for the value [v] inherited under a name, as
    [localStorage] takes it for the name of an item: the text of a built-in
    function, which the engine writes as it likes. *)
Variable textOf : string -> string.

(** [this.keys[key]] when it is truthy, as the name of an item. *)
Definition itemName (key : string) : option string :=
  match lookup key keys with
  | Some k => Some k
  | None => if existsb (String.eqb key) inherited then Some (textOf key) else None
  end.

Definition get (key defaultVal : string) (s : Storage) : string :=
  match itemName key with
  | Some k =>
      match lookup k s with
      | Some v => if truthy v then v else defaultVal
      | None => defaultVal
      end
  | None => defaultVal
  end.

Definition set (key val : string) (s : Storage) : Storage :=
  match itemName key with
  | Some k => setItem k val s
  | None => s
  end.

End Settings.

(** One pass over the characters of a string. *)
Fixpoint mapChars (f : ascii -> string) (s : string) : string :=
  match s with
  | "" => ""
  | String c r => f c ++ mapChars f r
  end.

(** The callback of [typeInterval] in [api.chat], while the reply streams:
    [assistantMsgContent] is the text received so far, [displayedContent]
    the text on screen. *)
Definition chunkSize (diff : nat) : nat :=
  if 120 <? diff then 12 else if 60 <? diff then 6 else if 30 <? diff then 3 else 1.

Definition typeInterval (assistantMsgContent displayedContent : string) : string :=
  if String.length displayedContent <? String.length assistantMsgContent then
    let diff := String.length assistantMsgContent - String.length displayedContent in
    displayedContent
      ++ substring (String.length displayedContent) (chunkSize diff) assistantMsgContent
  else displayedContent.

End Utils.

(** ** What a handler leaves on the page: the vocabulary of the statements *)

Module Page.
Import JS FRT.

(** The blocks a step leaves on the narrator surface once it is over. *)
Definition staticBlocks (st : Step) : list Block :=
  match st with
  | line a _ segs => [lineDiv a (fullSpans segs)]
  | pause _ => []
  | list_ a items => [listDiv a (map (fun item => (bullet, item)) items)]
  | dotsErase _ _ _ _ => []
  | image a src => [img a src]
  | markup k a static html txt => [markupBlock k a (staticInner static html txt)]
  end.

(** The page as [enterFirstRunStep1] has set it up when it renders the
    first part. *)
Definition booted (w : World) : World :=
  let w := match rpg_system_prompt (session w) with
           | Some stored =>
               if truthy stored
               then upd_app (fun a => set_tutorialSystemPromptText stored
                                        (set_tutorialSystemPromptId "custom" a)) w
               else w
           | None => w
           end in
  let w := upd_frt (set_stage boot) w in
  let w := upd_dom (fun d =>
             set_overlayDisplayed true
               (set_bodyClasses
                  (addClass "frt-boot"
                     (addClass "is-dimmed"
                        (addClass "first-run-tutorial" (bodyClasses d)))) d)) w in
  let w := upd_dom (set_backDisabled true) (setNavEnabled true w) in
  let w := upd_dom (set_promptDisabled true) w in
  upd_frt (set_stage script) w.

(** [if (part.onEnter) handleNarratorHook(part.onEnter)] *)
Definition enter (h : option Hook) (w : World) : World :=
  match h with Some h => handleNarratorHook h w | None => w end.

(** The hook of the part at a play-head. *)
Definition hookOf (h : Track * nat) : option Hook :=
  match getPart (fst h) (snd h) with
  | Some p => onEnter p
  | None => None
  end.

(** The hooks that leave the active prompt alone. *)
Definition keepsPrompt (h : option Hook) : bool :=
  match h with
  | Some SWAP_PROMPT_PIRATE | Some SWAP_PROMPT_DEFAULT => false
  | _ => true
  end.

(** The parts from the second prompt swap to the final review. *)
Definition afterSwap (h : Track * nat) : bool :=
  match fst h with
  | FRT.system_prompt => (8 <=? snd h) && (snd h <=? 12)
  | context => (1 <=? snd h) && (snd h <=? 4)
  | memory => (1 <=? snd h) && (snd h <=? 5)
  | _ => false
  end.

(** A click on one of the two buttons of the navigation bar. *)
Inductive Press := pressNext | pressBack.

Definition press (clicks : nat -> bool) (b : Press) (w : World) : World :=
  match b with
  | pressNext => btnNext_click clicks w
  | pressBack => clickBack clicks w
  end.

(** The sample run one part before the final review, and the same with a
    staged item that does not parse. *)
Definition beforeReview : World :=
  Nat.iter 9 (btnNext_click Start.quiet) Run.resumed.
Definition garbled : World :=
  set_session (set_tutorial_tier_b (Some None) (session beforeReview)) beforeReview.

(** The first part of the sample run while it types. *)
Definition typingFirst : World := upd_frt (set_isTyping true) Run.atIntro.

End Page.

(** ** Staged data: the vocabulary of the statements *)

Module Staged.
Import JS FRT Commit.

(** A staged value that is sent: not [null], and a string only when it is
    trimmed and not empty. *)
Definition sendable (v : JVal) : Prop :=
  match v with
  | JNull => False
  | JStr s => s <> "" /\ trim s = s
  | JOther _ => True
  end.

(** An entry of tier B that is kept. *)
Definition validB (kv : string * JVal) : bool :=
  truthy (trim (fst kv)) && keepVal (trimVal (snd kv)).

(** The body of the loop over [Object.entries(tierB)]. *)
Definition stepB (m : JObject) (kv : string * JVal) : JObject :=
  let k := trim (fst kv) in
  let v := trimVal (snd kv) in
  if truthy k && keepVal v then mapSet k v m else m.

(** The value of the last kept entry whose trimmed key is [k]. *)
Fixpoint lastValue (k : string) (entries : JObject) (acc : option JVal) : option JVal :=
  match entries with
  | [] => acc
  | kv :: r =>
      lastValue k r
        (if validB kv && String.eqb k (trim (fst kv)) then Some (trimVal (snd kv)) else acc)
  end.

End Staged.

(** * Properties *)

Import JS.

(** ** Strings *)

Lemma append_nil_r (s : string) : s ++ "" = s.
Proof. induction s as [|c s IH]; simpl; [reflexivity | now rewrite IH]. Qed.

Lemma append_assoc (a b c : string) : (a ++ b) ++ c = a ++ (b ++ c).
Proof. induction a as [|x a IH]; simpl; [reflexivity | now rewrite IH]. Qed.

Lemma truthy_append_r (s t : string) : truthy t = true -> truthy (s ++ t) = true.
Proof. destruct s; simpl; auto. Qed.

Lemma truthy_false (s : string) : truthy s = false -> s = "".
Proof. destruct s; simpl; [reflexivity | discriminate]. Qed.

Lemma trimEnd_app_fixed (s t : string) :
  truthy t = true -> trimEnd t = t -> trimEnd (s ++ t) = s ++ t.
Proof.
  intros Ht Hfix. induction s as [|c s IH]; simpl; [exact Hfix|].
  rewrite IH, (truthy_append_r s t Ht), andb_false_r. reflexivity.
Qed.

Lemma trimEnd_idem (s : string) : trimEnd (trimEnd s) = trimEnd s.
Proof.
  induction s as [|c s IH]; simpl; [reflexivity|].
  destruct (isWhiteSpace c && negb (truthy (trimEnd s))) eqn:E; simpl;
    [reflexivity | now rewrite IH, E].
Qed.

Lemma trimEnd_trim (s : string) : trimEnd (trim s) = trim s.
Proof. apply trimEnd_idem. Qed.

Lemma trimStart_head (c : ascii) (r : string) :
  isWhiteSpace c = false -> trimStart (String c r) = String c r.
Proof. intros H. simpl. now rewrite H. Qed.

Lemma trimStart_length s : String.length (trimStart s) <= String.length s.
Proof. induction s as [|c s IH]; simpl; [lia|]. destruct (isWhiteSpace c); simpl; lia. Qed.

Lemma trimStart_idem s : trimStart (trimStart s) = trimStart s.
Proof.
  induction s as [|c s IH]; simpl; [reflexivity|].
  destruct (isWhiteSpace c) eqn:E; [exact IH | simpl; now rewrite E].
Qed.

Lemma trimStart_trimEnd x : trimStart x = x -> trimStart (trimEnd x) = trimEnd x.
Proof.
  destruct x as [|c r]; [reflexivity|]. simpl.
  destruct (isWhiteSpace c) eqn:E.
  - intros H. pose proof (trimStart_length r) as L. rewrite H in L. simpl in L. lia.
  - intros _. simpl. now rewrite E.
Qed.

Lemma trim_idem s : trim (trim s) = trim s.
Proof.
  unfold trim. rewrite (trimStart_trimEnd (trimStart s)) by apply trimStart_idem.
  apply trimEnd_idem.
Qed.

(** ** The prompt generator *)

Section PromptGrammar.
Import RPG.

Lemma customClause_fixed (a : Answers) (s : string) :
  truthy (customClause a) = true ->
  trimEnd (s ++ customClause a) = s ++ customClause a.
Proof.
  unfold customClause.
  destruct (truthy (custom a) && truthy (trim (custom a))) eqn:E; [|discriminate].
  intros _. apply andb_true_iff in E as [_ E].
  rewrite <- !append_assoc.
  apply trimEnd_app_fixed; [exact E | apply trimEnd_trim].
Qed.

(** When the capabilities clause is a sentence ending in a full stop, the
    final [trim] changes nothing and the prompt is the plain concatenation
    of its clauses. *)
Lemma generateSystemPrompt_shape (a : Answers) (body : string) :
  capabilitiesClause a = nl ++ nl ++ body ++ "." ->
  generateSystemPrompt a
  = (promptHead a ++ nl ++ nl) ++ (body ++ ".") ++ customClause a.
Proof.
  intros Hc. unfold generateSystemPrompt, promptHead. cbv zeta. rewrite Hc.
  unfold trim.
  match goal with
  | |- trimEnd (trimStart ?P) = _ =>
      assert (HS : trimStart P = P) by reflexivity; rewrite HS; clear HS
  end.
  destruct (truthy (customClause a)) eqn:E.
  - rewrite customClause_fixed by exact E.
    now rewrite !append_assoc.
  - apply truthy_false in E. rewrite E, !append_nil_r.
    rewrite <- !append_assoc.
    rewrite trimEnd_app_fixed by reflexivity.
    reflexivity.
Qed.

Lemma capabilities_occur (a : Answers) (body : string) :
  capabilitiesClause a = nl ++ nl ++ body ++ "." ->
  occursIn (body ++ ".") (generateSystemPrompt a).
Proof.
  intros Hc. exists (promptHead a ++ nl ++ nl), (customClause a).
  now apply generateSystemPrompt_shape.
Qed.

(** C4: the capabilities clause of the generated prompt.  Three
    capabilities Coding, Research, Writing give the sentence "You excel at
    coding, research, and writing."; one capability gives "You specialize in
    <cap>." and two are joined with " and ", each capability in lower case. *)
Theorem generateSystemPrompt_capabilities_grammar (a : Answers) :
  occursIn "You excel at coding, research, and writing."
    (generateSystemPrompt (withCapabilities a ["Coding"; "Research"; "Writing"]))
  /\ (forall c,
        occursIn ("You specialize in " ++ toLowerCase c ++ ".")
          (generateSystemPrompt (withCapabilities a [c])))
  /\ (forall c1 c2,
        occursIn ("You excel at " ++ toLowerCase c1 ++ " and " ++ toLowerCase c2 ++ ".")
          (generateSystemPrompt (withCapabilities a [c1; c2])))
  /\ (forall c1 c2 c3,
        occursIn ("You excel at " ++ toLowerCase c1 ++ ", " ++ toLowerCase c2
                  ++ ", and " ++ toLowerCase c3 ++ ".")
          (generateSystemPrompt (withCapabilities a [c1; c2; c3]))).
Proof.
  assert (H3 : forall c1 c2 c3,
             occursIn ("You excel at " ++ toLowerCase c1 ++ ", " ++ toLowerCase c2
                       ++ ", and " ++ toLowerCase c3 ++ ".")
               (generateSystemPrompt (withCapabilities a [c1; c2; c3]))).
  { intros c1 c2 c3.
    pose proof (capabilities_occur (withCapabilities a [c1; c2; c3])
                  ("You excel at " ++ toLowerCase c1 ++ ", " ++ toLowerCase c2
                   ++ ", and " ++ toLowerCase c3)) as H.
    rewrite !append_assoc in H. apply H.
    unfold capabilitiesClause. simpl. rewrite ?append_assoc. reflexivity. }
  repeat split.
  - exact (H3 "Coding" "Research" "Writing").
  - intros c.
    pose proof (capabilities_occur (withCapabilities a [c])
                  ("You specialize in " ++ toLowerCase c)) as H.
    rewrite !append_assoc in H. apply H.
    unfold capabilitiesClause. simpl. rewrite ?append_assoc. reflexivity.
  - intros c1 c2.
    pose proof (capabilities_occur (withCapabilities a [c1; c2])
                  ("You excel at " ++ toLowerCase c1 ++ " and " ++ toLowerCase c2)) as H.
    rewrite !append_assoc in H. apply H.
    unfold capabilitiesClause. simpl. rewrite ?append_assoc. reflexivity.
  - exact H3.
Qed.

End PromptGrammar.

(** ** The multi-choice cap *)

Section MultiChoice.
Import RPG.

Lemma nth_error_updateControl (f : Control -> Control) (cs : list Control) :
  forall i c, nth_error cs i = Some c ->
              nth_error (updateControl i f cs) i = Some (f c).
Proof.
  induction cs as [|x cs IH]; intros [|i] c H; simpl in *; try discriminate.
  - now inversion H.
  - now apply IH.
Qed.

Lemma updateControl_undo (f g : Control -> Control) (cs : list Control) :
  forall i c, nth_error cs i = Some c -> g (f c) = c ->
              updateControl i g (updateControl i f cs) = cs.
Proof.
  induction cs as [|x cs IH]; intros [|i] c H Hgf; simpl in *; try discriminate.
  - inversion H; subst. now rewrite Hgf.
  - f_equal. now apply (IH i c).
Qed.

(** C8: with [maxChoices] answers already stored, checking one more choice
    changes nothing: the answers are as before and the checkbox just
    checked is unchecked again; the wizard is in the state it was in. *)
Theorem clickChoice_beyond_max (q : Question) (i : nat) (w : Wizard) (ctl : Control) :
  nth_error (controls w) i = Some ctl ->
  checked ctl = false ->
  maxChoices q <= List.length (capabilities (answers w)) ->
  clickChoice q i w = w
  /\ answers (clickChoice q i w) = answers w
  /\ option_map checked (nth_error (controls (clickChoice q i w)) i) = Some false.
Proof.
  intros Hnth Hun Hmax.
  assert (E : clickChoice q i w = w).
  { unfold clickChoice, onChange.
    destruct w as [ci an cs bd nd hd rh ev cc sd stx]; simpl in *.
    rewrite (nth_error_updateControl _ cs i ctl Hnth). simpl.
    rewrite Hun. simpl.
    apply Nat.leb_le in Hmax. rewrite Hmax.
    unfold withControls; simpl. f_equal.
    apply (updateControl_undo _ _ cs i ctl Hnth).
    destruct ctl as [v ch sl]; simpl in *. now subst. }
  rewrite E. repeat split. now rewrite Hnth; simpl; rewrite Hun.
Qed.

End MultiChoice.

(** ** The typewriter under a skip request *)

Section Typewriter.
Import FRT.

Variable clicks : nat -> bool.

(** [waitLoop] never stops for lack of fuel: with [den >= 1] every slice
    adds at least one to [elapsed * den], so any two fuels that cover the
    remaining distance give the same result. *)
Lemma waitLoop_fuel (num den : nat) :
  1 <= den ->
  forall fuel fuel' elapsed c,
    num <= fuel + elapsed * den -> num <= fuel' + elapsed * den ->
    waitLoop clicks fuel elapsed num den c = waitLoop clicks fuel' elapsed num den c.
Proof.
  intros Hden. induction fuel as [|f IH]; intros fuel' elapsed c H1 H2.
  - destruct fuel' as [|f']; [reflexivity|]. simpl.
    destruct (elapsed * den <? num) eqn:E; [|reflexivity].
    apply Nat.ltb_lt in E. simpl in H1. lia.
  - destruct fuel' as [|f']; simpl.
    + destruct (elapsed * den <? num) eqn:E; [|reflexivity].
      apply Nat.ltb_lt in E. simpl in H2. lia.
    + destruct (elapsed * den <? num) eqn:E; [|reflexivity].
      destruct (fst c); [reflexivity|].
      apply IH; nia.
Qed.

Lemma typeChar_full (text : string) :
  forall rest content c,
    content ++ rest = text -> fst (typeChar clicks text content rest c) = text.
Proof.
  induction rest as [|ch r IH]; intros content c H; simpl.
  - destruct (fst c); simpl; [reflexivity|]. now rewrite append_nil_r in H.
  - destruct (fst c); simpl; [reflexivity|].
    apply IH. now rewrite append_assoc.
Qed.

(** Whatever the clicks, the element ends with the whole text. *)
Lemma typeWriter_full (text : string) (c : Cancel) :
  fst (typeWriter clicks text c) = text.
Proof.
  unfold typeWriter. destruct (fst c); [reflexivity|]. now apply typeChar_full.
Qed.

(** With the flag already set the promise resolves at once: no timer is
    waited for and the flag is as it was. *)
Lemma typeWriter_skipped (text : string) (c : Cancel) :
  fst c = true -> typeWriter clicks text c = (text, c).
Proof. intros H. unfold typeWriter. now rewrite H. Qed.

(** Once the flag is set during the animation it stays set to its end. *)
Lemma typeChar_flag_kept (text : string) :
  forall rest content c,
    fst c = true -> snd (typeChar clicks text content rest c) = c.
Proof. intros [|ch r] content c H; simpl; now rewrite H. Qed.

Lemma renderSegments_full (isInstant : bool) :
  forall segs c,
    fst (fst (renderSegments clicks isInstant segs c)) = fullSpans segs.
Proof.
  induction segs as [|sg r IH]; intros c; simpl; [reflexivity|].
  destruct isInstant.
  - specialize (IH c). destruct (renderSegments clicks true r c) as [[sp ft] c2].
    simpl in *. now rewrite IH.
  - pose proof (typeWriter_full (text sg) c) as Ht.
    destruct (typeWriter clicks (text sg) c) as [content c1]. simpl in Ht.
    specialize (IH c1). destruct (renderSegments clicks false r c1) as [[sp ft] c2].
    simpl in *. now rewrite IH, Ht.
Qed.

(** A click at wait [k] of the animation, none before: the promise resolves
    at that very wait, the element holding the whole text. *)
Lemma typeChar_skip_at (text : string) :
  forall k rest content p,
    k < String.length rest ->
    (forall j, j < k -> clicks (p + j) = false) ->
    clicks (p + k) = true ->
    typeChar clicks text content rest (false, p) = (text, (true, p + k + 1)).
Proof.
  induction k as [|k IH]; intros [|ch r] content p Hlen Hno Hyes;
    simpl in Hlen; try lia; simpl.
  - rewrite Nat.add_0_r in Hyes. rewrite Hyes.
    replace (p + 0 + 1) with (S p) by lia.
    destruct r; reflexivity.
  - pose proof (Hno 0 ltac:(lia)) as H0. rewrite Nat.add_0_r in H0. rewrite H0.
    replace (p + S k + 1) with (S p + k + 1) by lia.
    apply IH; [lia | | now replace (S p + k) with (p + S k) by lia].
    intros j Hj. replace (S p + j) with (p + S j) by lia. apply Hno. lia.
Qed.

(** C7: a [line] step under any schedule of clicks, so with the skip flag
    set before the animation, at any timer wait during it, or never.  When
    the step is over the surface has gained one line whose spans hold the
    whole text of every segment; every typewriter run ends with the whole
    text; and a click at wait [k] of a run makes its promise resolve at that
    wait with the whole text in place.  The renderer is a total function of
    the schedule: the promise always resolves, a skip is no error. *)
Theorem line_step_full_text_under_skip
    (a : Align) (segs : list Segment) (surface : list Block) (c : Cancel) :
  fst (renderStep clicks (line a false segs) (surface, c))
  = (surface ++ [lineDiv a (fullSpans segs)])%list
  /\ (forall text c0, fst (typeWriter clicks text c0) = text)
  /\ (forall text p k,
        k < String.length text ->
        (forall j, j < k -> clicks (p + j) = false) ->
        clicks (p + k) = true ->
        typeWriter clicks text (false, p) = (text, (true, p + k + 1))).
Proof.
  split; [|split; [intros; apply typeWriter_full|]].
  - simpl. pose proof (renderSegments_full false segs c) as H.
    destruct (renderSegments clicks false segs c) as [[sp ft] c1]. simpl in *.
    now rewrite H.
  - intros text p k Hk Hno Hyes. unfold typeWriter. simpl.
    now apply typeChar_skip_at.
Qed.

End Typewriter.

(** A click during the third wait of "Hello": the text is complete at once. *)

Lemma line_step_full_text_under_skip_witness :
  FRT.typeWriter (fun n => n =? 2) "Hello" (false, 0) = ("Hello", (true, 3)).
Proof.
  refine (proj2 (proj2 (line_step_full_text_under_skip (fun n => n =? 2)
                          FRT.AlignLeft [] [] (false, 0))) "Hello" 0 2 _ _ _).
  - simpl; lia.
  - intros [|[|j]] Hj; [reflexivity | reflexivity | lia].
  - reflexivity.
Defined.

Lemma clickChoice_beyond_max_witness :
  let q := {| RPG.id := "capabilities"; RPG.qtype := RPG.q_multi; RPG.optional := false;
              RPG.validated := false; RPG.maxChoices := 3;
              RPG.choices := ["Writing & Brainstorming"; "Coding & Technical Problems";
                              "Research & Learning"; "Personal Productivity";
                              "Creative Projects"; "General Conversation"] |} in
  let a := RPG.withCapabilities Start.initialAnswers
             ["Writing & Brainstorming"; "Coding & Technical Problems";
              "Research & Learning"] in
  let w := RPG.render
             (RPG.withScreens 3 false true
                (RPG.withAnswers a
                   (FRT.wizard (Start.freshWorld "LOOKS GOOD" "USE THIS PROMPT" true)))) in
  RPG.answers (RPG.clickChoice q 3 w) = a
  /\ option_map RPG.checked (nth_error (RPG.controls (RPG.clickChoice q 3 w)) 3)
     = Some false.
Proof.
  intros q a w.
  refine (proj2 (clickChoice_beyond_max q 3 w
                   {| RPG.value := "Personal Productivity"; RPG.checked := false;
                      RPG.selected := false |} _ _ _)).
  - reflexivity.
  - reflexivity.
  - simpl; lia.
Defined.

(** ** The narrator *)

Section Narrator.
Import FRT Run.

(** Case analysis on every test of the goal. *)
Ltac break_if :=
  repeat match goal with
         | |- context [if ?b then _ else _] => destruct b
         end.

(** *** Name substitution only writes the record of used tracks *)

Lemma namesOnly_refl w : namesOnly w w.
Proof. exists (nameUsedByTrack (frt w)). destruct w as [[] ? ? ? ? ? ?]; reflexivity. Qed.

Lemma namesOnly_trans w1 w2 w3 : namesOnly w1 w2 -> namesOnly w2 w3 -> namesOnly w1 w3.
Proof. intros [L1 ->] [L2 ->]. exists L2. destruct w1 as [[] ? ? ? ? ? ?]; reflexivity. Qed.

Lemma replaceNamePlaceholder_frame txt w :
  namesOnly w (snd (replaceNamePlaceholder txt w)).
Proof.
  unfold replaceNamePlaceholder.
  break_if; simpl; try apply namesOnly_refl.
  all: eexists; reflexivity.
Qed.

Lemma mapState_frame {A B} (f : A -> World -> B * World) :
  (forall x w, namesOnly w (snd (f x w))) ->
  forall l w, namesOnly w (snd (mapState f l w)).
Proof.
  intros Hf. induction l as [|x r IH]; intros w; simpl; [apply namesOnly_refl|].
  specialize (Hf x w). destruct (f x w) as [y w1]. simpl in Hf.
  specialize (IH w1). destruct (mapState f r w1) as [ys w2]. simpl in *.
  eapply namesOnly_trans; eassumption.
Qed.

Lemma processSegment_frame sg w : namesOnly w (snd (processSegment sg w)).
Proof.
  unfold processSegment. pose proof (replaceNamePlaceholder_frame (text sg) w) as H.
  destruct (replaceNamePlaceholder (text sg) w). exact H.
Qed.

Lemma processStep_frame st w : namesOnly w (snd (processStep st w)).
Proof.
  destruct st; simpl; try apply namesOnly_refl.
  - pose proof (mapState_frame processSegment processSegment_frame segments w) as H.
    destruct (mapState processSegment segments w). exact H.
  - pose proof (mapState_frame replaceNamePlaceholder replaceNamePlaceholder_frame items w) as H.
    destruct (mapState replaceNamePlaceholder items w). exact H.
Qed.

Lemma replaceIfPresent_frame txt w : namesOnly w (snd (replaceIfPresent txt w)).
Proof.
  unfold replaceIfPresent. destruct (truthy txt);
    [apply replaceNamePlaceholder_frame | apply namesOnly_refl].
Qed.

Lemma processPartWithName_frame p w :
  namesOnly w (snd (processPartWithName p w))
  /\ requires (fst (processPartWithName p w)) = requires p
  /\ onEnter (fst (processPartWithName p w)) = onEnter p.
Proof.
  unfold processPartWithName.
  pose proof (mapState_frame processStep processStep_frame (steps p) w) as H1.
  destruct (mapState processStep (steps p) w) as [steps' w1].
  pose proof (replaceIfPresent_frame (idleLine p) w1) as H2.
  destruct (replaceIfPresent (idleLine p) w1) as [idle w2].
  pose proof (replaceIfPresent_frame (clickAttemptLine p) w2) as H3.
  destruct (replaceIfPresent (clickAttemptLine p) w2) as [click w3].
  pose proof (replaceIfPresent_frame (typingAttemptLine p) w3) as H4.
  destruct (replaceIfPresent (typingAttemptLine p) w3) as [typing w4].
  pose proof (replaceIfPresent_frame (earlyClickLine p) w4) as H5.
  destruct (replaceIfPresent (earlyClickLine p) w4) as [early w5].
  simpl in *. repeat split.
  repeat (eapply namesOnly_trans; [eassumption|]). apply namesOnly_refl.
Qed.

Lemma handleNarratorHook_frame h w :
  frt (handleNarratorHook h w) = frt w
  /\ first_run_complete (handleNarratorHook h w) = first_run_complete w
  /\ session (handleNarratorHook h w) = session w
  /\ userPreferredName (handleNarratorHook h w) = userPreferredName w.
Proof. destruct h; repeat split. Qed.

(** *** What rendering a part leaves behind

    Whatever the clicks: the stage and the track are kept, the play-head
    is on the part, nothing is typing, the gate is the part's, and storage
    is untouched. *)
Lemma renderPart_spec clicks i w p :
  getPart (track (frt w)) i = Some p ->
  let w' := renderPart clicks i w in
  stage (frt w') = stage (frt w)
  /\ track (frt w') = track (frt w)
  /\ partIndex (frt w') = i
  /\ isTyping (frt w') = false
  /\ skipRequested (frt w') = false
  /\ requiredAction (frt w') = gateOf p (requiredAction (frt w))
  /\ first_run_complete w' = first_run_complete w
  /\ session w' = session w
  /\ userPreferredName w' = userPreferredName w.
Proof.
  intros Hp. unfold renderPart. rewrite Hp.
  destruct (processPartWithName_frame p w) as ([L HL] & Hreq & Hent).
  destruct (processPartWithName p w) as [part w1]. simpl in HL, Hreq, Hent.
  subst w1. unfold gateOf. rewrite <- Hreq. clear Hreq Hent.
  set (wa := clearNarrator _).
  assert (Ha : frt wa = set_skipRequested false (set_isTyping true (set_partIndex i (set_nameUsedByTrack L (frt w))))
               /\ first_run_complete wa = first_run_complete w /\ session wa = session w /\ userPreferredName wa = userPreferredName w)
    by (repeat split).
  clearbody wa.
  set (wb := match onEnter part with Some h => handleNarratorHook h wa | None => wa end).
  assert (Hb : frt wb = frt wa /\ first_run_complete wb = first_run_complete wa /\ session wb = session wa /\ userPreferredName wb = userPreferredName wa).
  { subst wb. destruct (onEnter part); [apply handleNarratorHook_frame | repeat split]. }
  clearbody wb.
  destruct (renderSteps clicks (steps part) (textSurface (dom wb), (skipRequested (frt wb), 0))) as [surface c].
  destruct Ha as (Ha1 & Ha2 & Ha3 & Ha4). destruct Hb as (Hb1 & Hb2 & Hb3 & Hb4).
  rewrite Ha1 in Hb1.
  destruct (requires part); cbv zeta;
  match goal with |- context [if isDeadEnd ?x then _ else _] => destruct (isDeadEnd x) end;
  unfold showOptional; simpl; break_if; simpl;
  rewrite ?Hb1, ?Hb2, ?Hb3, ?Hb4, ?Ha2, ?Ha3, ?Ha4; simpl; repeat split.
Qed.

(** *** The tutorial class stays on [body] until the tutorial ends *)

Lemma contains_addClass c d l :
  contains c (addClass d l) = contains c l || String.eqb c d.
Proof.
  unfold addClass. destruct (contains d l) eqn:E.
  - destruct (String.eqb_spec c d) as [->|]; [now rewrite E | now rewrite orb_false_r].
  - unfold contains. rewrite existsb_app. simpl. now rewrite orb_false_r.
Qed.

Lemma contains_removeClass c d l :
  contains c (removeClass d l) = contains c l && negb (String.eqb c d).
Proof.
  unfold contains, removeClass. induction l as [|x l IH]; simpl; [reflexivity|].
  destruct (String.eqb_spec x d) as [->|Hxd]; simpl.
  - rewrite IH. destruct (String.eqb_spec c d); simpl; [now rewrite !andb_false_r | reflexivity].
  - rewrite IH. destruct (String.eqb_spec c x) as [->|]; simpl; [|reflexivity].
    destruct (String.eqb_spec x d); [contradiction | reflexivity].
Qed.


Lemma handleNarratorHook_inTutorial h w : inTutorial (handleNarratorHook h w) = inTutorial w.
Proof.
  unfold inTutorial. destruct h; simpl; try reflexivity; break_if;
  repeat (rewrite contains_addClass || rewrite contains_removeClass); simpl;
  rewrite ?orb_false_r, ?andb_true_r; reflexivity.
Qed.

Lemma renderPart_inTutorial clicks i w : inTutorial (renderPart clicks i w) = inTutorial w.
Proof.
  unfold renderPart. destruct (getPart (track (frt w)) i) as [p|]; [|reflexivity].
  destruct (processPartWithName_frame p w) as ([L HL] & _ & _).
  destruct (processPartWithName p w) as [part w1]. simpl in HL. subst w1.
  set (wa := clearNarrator _).
  assert (Ha : inTutorial wa = inTutorial w) by reflexivity. clearbody wa.
  set (wb := match onEnter part with Some h => handleNarratorHook h wa | None => wa end).
  assert (Hb : inTutorial wb = inTutorial wa).
  { subst wb. destruct (onEnter part); [apply handleNarratorHook_inTutorial | reflexivity]. }
  clearbody wb. rewrite Ha in Hb. clear Ha.
  destruct (renderSteps clicks (steps part) (textSurface (dom wb), (skipRequested (frt wb), 0))) as [surface c].
  destruct (requires part); cbv zeta;
  match goal with |- context [if isDeadEnd ?x then _ else _] => destruct (isDeadEnd x) end;
  unfold showOptional; simpl; break_if; simpl; exact Hb.
Qed.

(** *** Forward actions and the play-head *)

(** Every index from 1 to the last of a track holds a part. *)
Lemma getPart_exists t i : 1 <= i -> i <= getMaxPart t -> exists p, getPart t i = Some p.
Proof.
  intros H1 H2.
  destruct t; cbv in H2;
  do 13 (destruct i as [|i]; [try lia; eexists; vm_compute; reflexivity|]); lia.
Qed.



Lemma gatePending_satisfy w : gatePending (satisfy w) = false.
Proof. unfold gatePending, satisfy. simpl. now destruct (kind (requiredAction (frt w))). Qed.

Lemma playhead_satisfy w : playhead (satisfy w) = playhead w.
Proof. reflexivity. Qed.

Lemma forward_advance clicks w : settled w -> forward clicks w = advance clicks (satisfy w).
Proof.
  intros [Hs Ht]. unfold forward, btnNext_click.
  replace (stage (frt (satisfy w))) with script by (symmetry; exact Hs).
  replace (isTyping (frt (satisfy w))) with false by (symmetry; exact Ht).
  now rewrite gatePending_satisfy.
Qed.

(** One forward action with no gate pending: the narrator stays settled,
    the play-head moves as [headStep] says, and only the step off the last
    part of the memory track ends the tutorial. *)
Lemma forward_sim clicks w :
  settled w ->
  settled (forward clicks w)
  /\ playhead (forward clicks w) = headStep (playhead w)
  /\ inTutorial (forward clicks w) = (inTutorial w && negb (atFinalPart (playhead w)))
  /\ (atFinalPart (playhead w) = false ->
      first_run_complete (forward clicks w) = first_run_complete w
      /\ session (forward clicks w) = session w).
Proof.
  intros Hset. rewrite (forward_advance clicks w Hset). destruct Hset as [Hs Ht].
  unfold advance, playhead, headStep, atFinalPart, isDeadEnd.
  change (track (frt (satisfy w))) with (track (frt w)).
  change (partIndex (frt (satisfy w))) with (partIndex (frt w)).
  set (t := track (frt w)) in *. set (i := partIndex (frt w)) in *.
  destruct (track_eqb t model && (i =? 4)) eqn:Edead.
  { unfold settled, inTutorial. simpl. fold t i.
    apply andb_true_iff in Edead as [Et Ei]. destruct t; try discriminate. simpl.
    rewrite andb_true_r. repeat split; assumption. }
  destruct (i <? getMaxPart t) eqn:Elt.
  - apply Nat.ltb_lt in Elt.
    destruct (getPart_exists t (S i)) as [p Hp]; [lia | lia |].
    pose proof (renderPart_spec clicks (S i) (satisfy w) p Hp) as H.
    pose proof (renderPart_inTutorial clicks (S i) (satisfy w)) as Hin.
    cbv zeta in H. destruct H as (H1 & H2 & H3 & H4 & _ & _ & H7 & H8 & _).
    unfold settled. simpl fst. simpl snd. rewrite H1, H2, H3, H4, Hin, H7, H8.
    change (inTutorial (satisfy w)) with (inTutorial w).
    assert (Hnf : track_eqb t memory && (getMaxPart memory <=? i) = false).
    { destruct t; cbn [track_eqb andb]; try reflexivity. apply Nat.leb_gt. exact Elt. }
    rewrite Hnf, andb_true_r. repeat split; assumption.
  - assert (Hrender : forall x, settled x -> partIndex (frt x) = 0 ->
              first_run_complete x = first_run_complete w -> session x = session w ->
              inTutorial x = inTutorial w ->
              settled (renderPart clicks 1 x)
              /\ (track (frt (renderPart clicks 1 x)), partIndex (frt (renderPart clicks 1 x)))
                 = (track (frt x), 1)
              /\ inTutorial (renderPart clicks 1 x) = inTutorial w
              /\ first_run_complete (renderPart clicks 1 x) = first_run_complete w
              /\ session (renderPart clicks 1 x) = session w).
    { intros x [Hxs Hxt] _ Hxf Hxse Hxi.
      destruct (getPart_exists (track (frt x)) 1) as [p Hp];
        [lia | destruct (track (frt x)); cbv; lia |].
      pose proof (renderPart_spec clicks 1 x p Hp) as H.
      pose proof (renderPart_inTutorial clicks 1 x) as Hin.
      cbv zeta in H. destruct H as (H1 & H2 & H3 & H4 & _ & _ & H7 & H8 & _).
      unfold settled. rewrite H1, H2, H3, H4, Hin, H7, H8.
      repeat split; assumption. }
    apply Nat.ltb_ge in Elt.
    destruct t eqn:Etr; cbn [track_eqb andb fst snd negb]; rewrite ?andb_true_r.
    + match goal with |- context [renderPart clicks 1 ?x] =>
        destruct (Hrender x) as (R1 & R2 & R3 & R4 & R5) end;
        try reflexivity; try (split; assumption).
      { unfold inTutorial. simpl. rewrite !contains_addClass. simpl.
        now rewrite !orb_false_r. }
      rewrite R2, R3. repeat split; try apply R1; assumption.
    + unfold settled, showOptional, inTutorial. simpl.
      rewrite !contains_addClass. simpl. rewrite !orb_false_r.
      fold t i. subst t. repeat split; try assumption. now rewrite Etr.
    + match goal with |- context [renderPart clicks 1 ?x] =>
        destruct (Hrender x) as (R1 & R2 & R3 & R4 & R5) end;
        try reflexivity; try (split; assumption).
      rewrite R2, R3. repeat split; try apply R1; assumption.
    + match goal with |- context [renderPart clicks 1 ?x] =>
        destruct (Hrender x) as (R1 & R2 & R3 & R4 & R5) end;
        try reflexivity; try (split; assumption).
      rewrite R2, R3. repeat split; try apply R1; assumption.
    + apply Nat.leb_le in Elt. rewrite Elt.
      unfold settled, endTutorial, inTutorial. simpl. fold t i. subst t.
      rewrite andb_false_r.
      repeat split; try assumption; try discriminate.
      * now rewrite Etr.
      * unfold contains. apply not_true_is_false. intros Hex.
        apply existsb_exists in Hex as (c & Hin & Hc).
        apply filter_In in Hin as [_ Hf]. apply String.eqb_eq in Hc. subst c.
        discriminate Hf.
Qed.

Lemma forward_iter clicks n : forall w,
  settled w ->
  settled (Nat.iter n (forward clicks) w)
  /\ playhead (Nat.iter n (forward clicks) w) = Nat.iter n headStep (playhead w).
Proof.
  induction n as [|n IH]; intros w Hw; simpl; [now split|].
  destruct (IH w Hw) as [Hs Hp].
  destruct (forward_sim clicks _ Hs) as (H1 & H2 & _).
  split; [exact H1 | now rewrite H2, Hp].
Qed.


Lemma forward_iter_frame clicks n : forall w,
  settled w ->
  noFinalBefore n (playhead w) = true ->
  first_run_complete (Nat.iter n (forward clicks) w) = first_run_complete w
  /\ session (Nat.iter n (forward clicks) w) = session w
  /\ inTutorial (Nat.iter n (forward clicks) w) = inTutorial w.
Proof.
  induction n as [|n IH]; intros w Hw Hnf; simpl; [repeat split|].
  unfold noFinalBefore in Hnf. rewrite seq_S, forallb_app in Hnf.
  apply andb_true_iff in Hnf as [Hnf Hlast]. simpl in Hlast.
  rewrite andb_true_r in Hlast. apply negb_true_iff in Hlast.
  destruct (IH w Hw Hnf) as (I1 & I2 & I3).
  destruct (forward_iter clicks n w Hw) as [Hs Hp].
  destruct (forward_sim clicks _ Hs) as (_ & _ & H3 & H4).
  rewrite Hp in H3, H4. rewrite Hlast in H3. destruct (H4 Hlast) as [H5 H6].
  rewrite H5, H6, H3, I1, I2, I3, andb_true_r. repeat split.
Qed.

Lemma head_intro_stuck n : Nat.iter (8 + n) headStep (intro, 1) = (model, 4).
Proof. induction n as [|n IH]; [reflexivity|]. rewrite Nat.add_succ_r. simpl Nat.iter. simpl in IH. rewrite IH. reflexivity. Qed.

Lemma head_intro_cases n :
  let h := Nat.iter n headStep (intro, 1) in
  (fst h = intro \/ fst h = model) /\ atFinalPart h = false.
Proof.
  destruct (Nat.lt_ge_cases n 8) as [Hlt|Hge].
  - do 8 (destruct n as [|n]; [cbv; auto|]). lia.
  - replace n with (8 + (n - 8)) by lia. rewrite head_intro_stuck. cbv. auto.
Qed.

Lemma noFinalBefore_intro n : noFinalBefore n (intro, 1) = true.
Proof.
  unfold noFinalBefore. apply forallb_forall. intros k _.
  apply negb_true_iff. apply head_intro_cases.
Qed.



Lemma endTutorial_tornDown w : tornDown (endTutorial w).
Proof.
  unfold tornDown, endTutorial. simpl. repeat split.
  intros c Hin. apply filter_In in Hin as [_ Hf]. now apply negb_true_iff in Hf.
Qed.

Lemma modelLoaded_spec clicks w :
  settled w -> inTutorial w = true ->
  settled (modelLoaded clicks w)
  /\ playhead (modelLoaded clicks w) = (FRT.system_prompt, 1)
  /\ inTutorial (modelLoaded clicks w) = true
  /\ first_run_complete (modelLoaded clicks w) = first_run_complete w.
Proof.
  intros [Hs Ht] Hin. unfold modelLoaded. cbv zeta.
  change (bodyClasses (dom (upd_dom (set_promptDisabled false) w))) with (bodyClasses (dom w)).
  fold (inTutorial w). rewrite Hin.
  match goal with |- context [renderPart clicks 1 ?x] => set (x0 := x) end.
  destruct (getPart_exists FRT.system_prompt 1) as [p Hp]; [lia | cbv; lia |].
  pose proof (renderPart_spec clicks 1 x0 p Hp) as H.
  pose proof (renderPart_inTutorial clicks 1 x0) as Hi.
  cbv zeta in H. destruct H as (H1 & H2 & H3 & H4 & _ & _ & H7 & _).
  unfold settled, playhead. rewrite H1, H2, H3, H4, Hi, H7.
  subst x0. unfold inTutorial. simpl. rewrite !contains_removeClass. fold (inTutorial w).
  rewrite Hin. repeat split; assumption.
Qed.

(** *** How a render settles *)

Lemma hookThrows_final h s : hookThrows h s = true -> h = SHOW_FINAL_REVIEW.
Proof. destruct h; simpl; intros H; try discriminate; reflexivity. Qed.

Lemma renderPartOutcome_spec clicks i w p :
  getPart (track (frt w)) i = Some p ->
  (if match onEnter p with Some h => hookThrows h (session w) | None => false end
   then exists L,
          renderPartOutcome clicks i w
          = rejected
              (clearNarrator
                 (setNavEnabled false
                    (upd_frt (fun n => set_skipRequested false
                                         (set_isTyping true (set_partIndex i n)))
                       (upd_frt (set_nameUsedByTrack L) w))))
   else renderPartOutcome clicks i w = resolved (renderPart clicks i w)).
Proof.
  intros Hp. unfold renderPartOutcome. rewrite Hp.
  destruct (processPartWithName_frame p w) as ([L HL] & _ & Hent).
  destruct (processPartWithName p w) as [part w1]. cbn [fst snd] in HL, Hent.
  subst w1. rewrite Hent.
  destruct (onEnter p) as [h|]; [|reflexivity].
  change (session (clearNarrator _)) with (session w).
  destruct (hookThrows h (session w)); [exists L|]; reflexivity.
Qed.

Lemma renderPartOutcome_resolved clicks i w p w' :
  getPart (track (frt w)) i = Some p ->
  renderPartOutcome clicks i w = resolved w' ->
  w' = renderPart clicks i w
  /\ match onEnter p with Some h => hookThrows h (session w) | None => false end = false.
Proof.
  intros Hp Ho. pose proof (renderPartOutcome_spec clicks i w p Hp) as H.
  destruct (match onEnter p with Some h => hookThrows h (session w) | None => false end).
  - destruct H as [L H]. rewrite H in Ho. discriminate.
  - rewrite H in Ho. split; [congruence | reflexivity].
Qed.

Lemma renderPartOutcome_rejected clicks i w p w' :
  getPart (track (frt w)) i = Some p ->
  renderPartOutcome clicks i w = rejected w' ->
  onEnter p = Some SHOW_FINAL_REVIEW
  /\ stagedReadable (session w) = false
  /\ exists L, w' = clearNarrator
                      (setNavEnabled false
                         (upd_frt (fun n => set_skipRequested false
                                              (set_isTyping true (set_partIndex i n)))
                            (upd_frt (set_nameUsedByTrack L) w))).
Proof.
  intros Hp Ho. pose proof (renderPartOutcome_spec clicks i w p Hp) as H.
  destruct (onEnter p) as [h|].
  - destruct (hookThrows h (session w)) eqn:E.
    + destruct H as [L H]. rewrite H in Ho.
      pose proof (hookThrows_final _ _ E) as ->. simpl in E.
      apply negb_true_iff in E. repeat split; [exact E|].
      exists L. congruence.
    + rewrite H in Ho. discriminate.
  - rewrite H in Ho. discriminate.
Qed.

Lemma renderPartOutcome_readable clicks i x p :
  getPart (track (frt x)) i = Some p -> stagedReadable (session x) = true ->
  renderPartOutcome clicks i x = resolved (renderPart clicks i x).
Proof.
  intros Hp Hr. pose proof (renderPartOutcome_spec clicks i x p Hp) as H.
  destruct (onEnter p) as [h|]; [|exact H].
  destruct h; cbn [hookThrows] in H; try exact H.
  rewrite Hr in H. exact H.
Qed.

Lemma final_review_resolves clicks x :
  track (frt x) = memory -> stagedReadable (session x) = true ->
  renderPartOutcome clicks 5 x = resolved (renderPart clicks 5 x).
Proof.
  intros Ht Hr.
  destruct (getPart_exists memory 5) as [p Hp]; [lia | cbv; lia |].
  rewrite <- Ht in Hp.
  exact (renderPartOutcome_readable clicks 5 x p Hp Hr).
Qed.

Lemma modelLoaded_session clicks w : session (modelLoaded clicks w) = session w.
Proof.
  unfold modelLoaded. cbv zeta.
  destruct (contains "first-run-tutorial" _); [|reflexivity].
  match goal with |- context [renderPart clicks 1 ?x] => set (x0 := x) end.
  destruct (getPart_exists FRT.system_prompt 1) as [p Hp]; [lia | cbv; lia |].
  pose proof (renderPart_spec clicks 1 x0 p Hp) as H.
  cbv zeta in H. destruct H as (_ & _ & _ & _ & _ & _ & _ & H8 & _).
  rewrite H8. reflexivity.
Qed.

Lemma session_satisfy w : session (satisfy w) = session w.
Proof. reflexivity. Qed.

Lemma track_satisfy w : track (frt (satisfy w)) = track (frt w).
Proof. reflexivity. Qed.

Lemma advance_into_final_review clicks x :
  playhead x = (memory, 4) ->
  advance clicks (satisfy x) = renderPart clicks 5 (satisfy x).
Proof.
  intros Hh. rewrite <- playhead_satisfy in Hh. unfold playhead in Hh.
  apply pair_equal_spec in Hh as [Rt Ri].
  unfold advance, isDeadEnd. rewrite Rt, Ri.
  change (track_eqb memory model && (4 =? 4)) with false.
  change (4 <? getMaxPart memory) with true. cbv iota. reflexivity.
Qed.

(** C2, as the code has it.  From part 1 of the intro track, forward
    actions with no gate pending and nothing typing walk the intro and
    model tracks and stop at part 4 of the model track, the dead end that
    only loading a model leaves: the play-head never enters the memory track
    and the first-run flag is never written.  Once the loaded model has
    moved the narrator to part 1 of [system_prompt], nineteen forward
    actions reach part 4 of the memory track.  The next one renders the
    final review, whose hook parses the staged items: when these are
    readable the render resolves, on the last part of the memory track, and
    one more forward action ends the tutorial: flag stored, overlay gone,
    no tutorial class left on [body]. *)
Theorem forward_clicks_end_to_end clicks w :
  settled w -> playhead w = (intro, 1) -> inTutorial w = true ->
  stagedReadable (session w) = true ->
  let fwd := forward clicks in
  let atLoader := Nat.iter 8 fwd w in
  let resumed := modelLoaded clicks atLoader in
  playhead atLoader = (model, 4)
  /\ (forall n, 8 <= n -> playhead (Nat.iter n fwd w) = (model, 4))
  /\ (forall n, fst (playhead (Nat.iter n fwd w)) <> memory
                /\ first_run_complete (Nat.iter n fwd w) = first_run_complete w)
  /\ playhead resumed = (FRT.system_prompt, 1)
  /\ playhead (Nat.iter 19 fwd resumed) = (memory, 4)
  /\ renderPartOutcome clicks 5 (satisfy (Nat.iter 19 fwd resumed))
     = resolved (Nat.iter 20 fwd resumed)
  /\ playhead (Nat.iter 20 fwd resumed) = (memory, 5)
  /\ first_run_complete (Nat.iter 20 fwd resumed) = first_run_complete w
  /\ tornDown (Nat.iter 21 fwd resumed).
Proof.
  intros Hw Hh Hin Hread. cbv zeta.
  set (atLoader := Nat.iter 8 (forward clicks) w).
  set (resumed := modelLoaded clicks atLoader).
  assert (Hiter : forall n, settled (Nat.iter n (forward clicks) w)
                            /\ playhead (Nat.iter n (forward clicks) w) = Nat.iter n headStep (intro, 1)).
  { intros n. rewrite <- Hh. now apply forward_iter. }
  assert (Hframe : forall n, first_run_complete (Nat.iter n (forward clicks) w) = first_run_complete w
                             /\ inTutorial (Nat.iter n (forward clicks) w) = true
                             /\ session (Nat.iter n (forward clicks) w) = session w).
  { intros n. destruct (forward_iter_frame clicks n w Hw) as (F1 & F2 & F3).
    - rewrite Hh. apply noFinalBefore_intro.
    - split; [exact F1 | split; [now rewrite F3 | exact F2]]. }
  destruct (modelLoaded_spec clicks atLoader) as (M1 & M2 & M3 & M4);
    [apply Hiter | apply Hframe |].
  fold resumed in M1, M2, M3, M4.
  assert (M5 : session resumed = session w).
  { unfold resumed. rewrite modelLoaded_session. apply Hframe. }
  destruct (forward_iter clicks 20 resumed M1) as [R1 R2].
  destruct (forward_iter_frame clicks 20 resumed M1) as (R3 & _ & _);
    [rewrite M2; vm_compute; reflexivity|].
  rewrite M2 in R2.
  destruct (forward_iter clicks 19 resumed M1) as [Q1 Q2].
  destruct (forward_iter_frame clicks 19 resumed M1) as (_ & Q3 & _);
    [rewrite M2; vm_compute; reflexivity|].
  rewrite M2 in Q2.
  assert (E19 : Nat.iter 19 headStep (FRT.system_prompt, 1) = (memory, 4)) by (vm_compute; reflexivity).
  rewrite E19 in Q2.
  assert (Hout : renderPartOutcome clicks 5 (satisfy (Nat.iter 19 (forward clicks) resumed))
                 = resolved (Nat.iter 20 (forward clicks) resumed)).
  { assert (E20 : Nat.iter 20 (forward clicks) resumed
                  = forward clicks (Nat.iter 19 (forward clicks) resumed))
      by exact (Nat.iter_succ 19 World (forward clicks) resumed).
    rewrite E20.
    rewrite (forward_advance clicks _ Q1).
    rewrite (advance_into_final_review clicks _ Q2).
    apply final_review_resolves.
    - rewrite track_satisfy.
      unfold playhead in Q2. apply pair_equal_spec in Q2 as [Qt _]. exact Qt.
    - rewrite session_satisfy, Q3, M5. exact Hread. }
  assert (Hend : tornDown (Nat.iter 21 (forward clicks) resumed)).
  { rewrite Nat.iter_succ.
    rewrite (forward_advance clicks _ R1).
    rewrite <- playhead_satisfy in R2. unfold playhead in R2.
    apply pair_equal_spec in R2 as [Rt Ri].
    unfold advance, isDeadEnd. rewrite Rt, Ri.
    change (track_eqb memory model && (5 =? 4)) with false.
    change (5 <? getMaxPart memory) with false. cbv iota.
    apply endTutorial_tornDown. }
  split; [|split; [|split; [|split; [|split; [|split; [|split; [|split]]]]]]].
  - unfold atLoader. destruct (Hiter 8) as [_ ->]. reflexivity.
  - intros n Hn. destruct (Hiter n) as [_ ->].
    replace n with (8 + (n - 8)) by lia. apply head_intro_stuck.
  - intros n. split; [|apply Hframe].
    destruct (Hiter n) as [_ ->].
    destruct (head_intro_cases n) as [[H|H] _]; cbv zeta in H; rewrite H; discriminate.
  - exact M2.
  - exact Q2.
  - exact Hout.
  - exact R2.
  - rewrite R3, M4. apply Hframe.
  - exact Hend.
Qed.

(** *** The chat gates *)

(** A mismatched submission at a [chat_repeat] gate: one more attempt, and
    the soft pass once the attempts reach [soft_after]. *)
Lemma chat_repeat_mismatch w a b n m r :
  isTutorialChat w = true -> isGenerating (app w) = false ->
  gate w = repeatGate a b n -> mismatched b m ->
  let w' := chat m (Some r) w in
  gate w' = {| kind := Some chat_repeat; satisfied := n <=? S a; attempts := S a;
               baselineQuestion := b; soft_after := Some n |}
  /\ navLocked (dom w') = (if n <=? S a then false else navLocked (dom w))
  /\ isTutorialChat w' = true /\ isGenerating (app w') = false
  /\ playhead w' = playhead w /\ stage (frt w') = stage (frt w)
  /\ isTyping (frt w') = isTyping (frt w).
Proof.
  intros Ht Hg Hgate [Hne Hmis]. unfold gate in *. cbv zeta.
  apply String.eqb_neq in Hmis.
  unfold chat. rewrite Hne, Hg, Ht. cbn [negb orb].
  unfold checkRequiredAction, gatePending, isTutorialChat, playhead in *.
  simpl. rewrite Hgate. simpl. rewrite trim_idem. fold (orEmpty b). rewrite Hmis.
  simpl.
  destruct (n <=? S a) eqn:E; unfold showOptional; simpl; rewrite ?Hgate; simpl;
    repeat split; assumption.
Qed.

Lemma chat_when_satisfied w m r :
  satisfied (gate w) = true ->
  gate (chat m r w) = gate w /\ navLocked (dom (chat m r w)) = navLocked (dom w).
Proof.
  intros Hs. unfold gate in *. unfold chat.
  destruct (negb (truthy (trim m)) || isGenerating (app w)); [now split|].
  destruct (isTutorialChat w); [|now split].
  destruct r as [content|]; [|now split].
  unfold checkRequiredAction, gatePending. simpl. rewrite Hs.
  destruct (kind (requiredAction (frt w))); now split.
Qed.

(** The comparison is blind to case and to surrounding white space. *)
Lemma chat_repeat_match w a b n m r :
  isTutorialChat w = true -> isGenerating (app w) = false ->
  gate w = repeatGate a b n -> matching b m ->
  satisfied (gate (chat m (Some r) w)) = true
  /\ navLocked (dom (chat m (Some r) w)) = false.
Proof.
  intros Ht Hg Hgate [Hne Hm]. unfold gate in *.
  apply String.eqb_eq in Hm.
  unfold chat. rewrite Hne, Hg, Ht. cbn [negb orb].
  unfold checkRequiredAction, gatePending.
  simpl. rewrite Hgate. simpl. rewrite trim_idem. fold (orEmpty b). rewrite Hm.
  now split.
Qed.

(** C3: a [chat_repeat] gate with [soft_after = 2] and no attempt yet.
    After one mismatched submission it is still unsatisfied; after the
    second it is satisfied and the navigation bar is unlocked, and it stays
    so whatever is submitted next. *)
Theorem chat_repeat_soft_pass_after_two w b m1 m2 r1 r2 :
  isTutorialChat w = true -> isGenerating (app w) = false ->
  gate w = repeatGate 0 b 2 ->
  mismatched b m1 -> mismatched b m2 ->
  let w1 := chat m1 (Some r1) w in
  let w2 := chat m2 (Some r2) w1 in
  satisfied (gate w1) = false
  /\ satisfied (gate w2) = true
  /\ navLocked (dom w2) = false
  /\ gatePending w2 = false
  /\ forall m3 r3, satisfied (gate (chat m3 r3 w2)) = true
                   /\ navLocked (dom (chat m3 r3 w2)) = false.
Proof.
  intros Ht Hg Hgate H1 H2 w1 w2.
  destruct (chat_repeat_mismatch w 0 b 2 m1 r1 Ht Hg Hgate H1)
    as (G1 & _ & T1 & I1 & _).
  fold w1 in G1, T1, I1.
  destruct (chat_repeat_mismatch w1 1 b 2 m2 r2 T1 I1 G1 H2)
    as (G2 & N2 & _).
  fold w2 in G2, N2. simpl in G2, N2.
  repeat split.
  - now rewrite G1.
  - now rewrite G2.
  - exact N2.
  - unfold gatePending. fold (gate w2). now rewrite G2.
  - destruct (chat_when_satisfied w2 m3 r3) as [E _]; [now rewrite G2|].
    rewrite E. now rewrite G2.
  - destruct (chat_when_satisfied w2 m3 r3) as [_ E]; [now rewrite G2|].
    now rewrite E.
Qed.

(** A forward click on a pending [chat_repeat] gate: one more attempt,
    nothing else of the narrator moves. *)
Lemma btnNext_gate_blocked clicks w a b n :
  stage (frt w) = script -> isTyping (frt w) = false ->
  gate w = repeatGate a b n ->
  let w' := btnNext_click clicks w in
  gate w' = repeatGate (S a) b n
  /\ playhead w' = playhead w
  /\ stage (frt w') = script /\ isTyping (frt w') = false
  /\ isTutorialChat w' = isTutorialChat w
  /\ isGenerating (app w') = isGenerating (app w)
  /\ navLocked (dom w') = navLocked (dom w).
Proof.
  intros Hs Ht Hgate. unfold gate in *. cbv zeta.
  unfold btnNext_click. rewrite Hs, Ht.
  unfold gatePending. rewrite Hgate. cbn [kind satisfied repeatGate negb].
  unfold gateBlocked. rewrite Hgate. cbn [kind repeatGate].
  unfold showOptional, isTutorialChat, playhead.
  match goal with |- context [if ?b then _ else _] => destruct b end;
    simpl; rewrite ?Hgate; repeat split; assumption.
Qed.

(** C10: a forward click the gate blocks and a mismatched submission add to
    the same [attempts].  With [soft_after = 2], two blocked clicks bring it
    to 2 without moving the play-head or satisfying the gate, and a single
    mismatched submission then makes it 3, satisfies the gate and unlocks
    the navigation bar. *)
Theorem blocked_clicks_count_as_attempts clicks w b m r :
  stage (frt w) = script -> isTyping (frt w) = false ->
  isTutorialChat w = true -> isGenerating (app w) = false ->
  gate w = repeatGate 0 b 2 ->
  mismatched b m ->
  let w1 := btnNext_click clicks w in
  let w2 := btnNext_click clicks w1 in
  let w3 := chat m (Some r) w2 in
  attempts (gate w1) = 1
  /\ attempts (gate w2) = 2
  /\ satisfied (gate w2) = false
  /\ playhead w2 = playhead w
  /\ attempts (gate w3) = 3
  /\ satisfied (gate w3) = true
  /\ navLocked (dom w3) = false
  /\ gatePending w3 = false.
Proof.
  intros Hs Ht Htc Hg Hgate Hm w1 w2 w3.
  destruct (btnNext_gate_blocked clicks w 0 b 2 Hs Ht Hgate)
    as (G1 & P1 & S1 & T1 & C1 & I1 & _).
  fold w1 in G1, P1, S1, T1, C1, I1.
  destruct (btnNext_gate_blocked clicks w1 1 b 2 S1 T1 G1)
    as (G2 & P2 & _ & _ & C2 & I2 & _).
  fold w2 in G2, P2, C2, I2.
  rewrite C1, Htc in C2. rewrite I1, Hg in I2.
  destruct (chat_repeat_mismatch w2 2 b 2 m r C2 I2 G2 Hm) as (G3 & N3 & _).
  fold w3 in G3, N3. simpl in G3, N3.
  repeat split.
  - now rewrite G1.
  - now rewrite G2.
  - now rewrite G2.
  - now rewrite P2, P1.
  - now rewrite G3.
  - now rewrite G3.
  - exact N3.
  - unfold gatePending. fold (gate w3). now rewrite G3.
Qed.

(** C6: rendering a part without [requires] leaves the gate with kind
    [null] and satisfied, and the next forward click goes straight to the
    part of the handler that moves the play-head: the gate branch is not
    taken. *)
Theorem ungated_part_never_blocks clicks clicks' i w p :
  stage (frt w) <> boot ->
  getPart (track (frt w)) i = Some p -> requires p = None ->
  let w' := renderPart clicks i w in
  kind (gate w') = None
  /\ satisfied (gate w') = true
  /\ gatePending w' = false
  /\ btnNext_click clicks' w' = advance clicks' w'.
Proof.
  intros Hs Hp Hr. cbv zeta.
  destruct (renderPart_spec clicks i w p Hp) as (H1 & _ & _ & H4 & _ & H6 & _).
  unfold gateOf in H6. rewrite Hr in H6.
  assert (Hb : btnNext_click clicks' (renderPart clicks i w)
               = advance clicks' (renderPart clicks i w)).
  { unfold btnNext_click. rewrite H1, H4.
    unfold gatePending. rewrite H6. cbn [kind noGate].
    destruct (stage (frt w)); [reflexivity | contradiction | reflexivity]. }
  unfold gate, gatePending. rewrite H6, Hb. repeat split.
Qed.

End Narrator.

(** ** Committing *)

Section Committing.
Import FRT Run Commit.

Lemma commitPayload_dom (f : Dom -> Dom) (w : World) :
  commitPayload (upd_dom f w) = commitPayload w.
Proof. reflexivity. Qed.

(** C9: a failed final commit, whether the request is rejected, answered
    with an error, or cannot be built.  The confirm button is enabled again
    with its label, the error line shows "Failed to save. Please try again."
    (an alert where the page has no error line), the review overlay is as
    it was, and nothing staged has changed: session storage, the active
    prompt, the wizard with its editor, the narrator and the first-run flag,
    so that the retry sends the same request.  The wizard's own commit fails
    the same way.  Only a successful commit ends the tutorial. *)
Theorem commit_failure_keeps_staged_data (clicks : nat -> bool) (resp : Response)
    (prompt : string) (w : World) :
  resp <> Ok \/ commitPayload w = None ->
  let w' := btnFinalReviewConfirm_click resp w in
  let z' := saveSystemPrompt clicks prompt resp w in
  (confirmDisabled (dom w') = false
   /\ confirmText (dom w') = confirmText (dom w)
   /\ (if hasErrorDiv (dom w)
       then errorDisplayed (dom w') = true /\ errorText (dom w') = failedToSave
       else alerts (dom w') = (alerts (dom w) ++ [failedToSave])%list)
   /\ finalReviewHidden (dom w') = finalReviewHidden (dom w)
   /\ session w' = session w /\ app w' = app w /\ wizard w' = wizard w
   /\ frt w' = frt w /\ first_run_complete w' = first_run_complete w
   /\ userPreferredName w' = userPreferredName w
   /\ commitPayload w' = commitPayload w)
  /\ (resp <> Ok ->
      RPG.saveDisabled (wizard z') = false
      /\ RPG.saveText (wizard z') = RPG.saveText (wizard w)
      /\ RPG.editorValue (wizard z') = RPG.editorValue (wizard w)
      /\ RPG.reviewHidden (wizard z') = RPG.reviewHidden (wizard w)
      /\ RPG.answers (wizard z') = RPG.answers (wizard w)
      /\ session z' = session w /\ app z' = app w /\ frt z' = frt w
      /\ userPreferredName z' = userPreferredName w)
  /\ (commitPayload w <> None -> tornDown (btnFinalReviewConfirm_click Ok w')).
Proof.
  intros Hfail. cbv zeta.
  assert (Hw' : btnFinalReviewConfirm_click resp w
                = let w1 := upd_dom (fun d => set_confirmText (confirmText (dom w))
                                               (set_confirmDisabled false
                                                  (set_confirmText "SAVING..."
                                                     (set_confirmDisabled true d)))) w in
                  if hasErrorDiv (dom w)
                  then upd_dom (fun d => set_errorDisplayed true
                                           (set_errorText failedToSave d)) w1
                  else upd_dom (fun d => set_alerts (alerts d ++ [failedToSave])%list d) w1).
  { unfold btnFinalReviewConfirm_click. rewrite commitPayload_dom.
    destruct (commitPayload w) eqn:Ep; destruct resp; try reflexivity.
    destruct Hfail as [H|H]; [now contradiction H | discriminate H]. }
  rewrite Hw'. cbv zeta. split; [|split].
  - destruct (hasErrorDiv (dom w)) eqn:He; simpl; repeat split;
      destruct w as [n a d z f se u]; destruct d; reflexivity.
  - intros Hr. unfold saveSystemPrompt. destruct resp; [now contradiction Hr | |];
      simpl; repeat split; destruct w as [n a d z f se u]; destruct z; reflexivity.
  - intros Hp. unfold btnFinalReviewConfirm_click.
    rewrite commitPayload_dom.
    destruct (hasErrorDiv (dom w)); rewrite !commitPayload_dom;
      destruct (commitPayload w); try (now contradiction Hp);
      apply endTutorial_tornDown.
Qed.

End Committing.

(** ** A first run, evaluated *)

Section FirstRun.
Import FRT Run.

(** Every render starts its gate without a baseline question. *)
Lemma renderPart_resets_baseline clicks i w p :
  getPart (track (frt w)) i = Some p ->
  baselineQuestion (gate (renderPart clicks i w)) = None.
Proof.
  intros Hp. destruct (renderPart_spec clicks i w p Hp) as (_ & _ & _ & _ & _ & H6 & _).
  unfold gate. rewrite H6. unfold gateOf. now destruct (requires p).
Qed.

(** C1, on the code: the first question "What's 2+2?" is recorded as the
    baseline of the [chat_any] gate of part 4, but the renders of parts 5,
    6 and 7 each reset the gate, so the [chat_repeat] gate of part 7 starts
    without a baseline and "  what's 2+2?  " counts as a mismatch. *)
Theorem repeat_gate_loses_recorded_baseline :
  playhead atChatAny = (FRT.system_prompt, 4)
  /\ kind (gate atChatAny) = Some chat_any
  /\ baselineQuestion (gate asked) = Some "What's 2+2?"
  /\ playhead atRepeat = (FRT.system_prompt, 7)
  /\ gate atRepeat = repeatGate 0 None 2
  /\ gate repeatedOnce = repeatGate 1 None 2
  /\ navLocked (dom repeatedOnce) = true.
Proof. vm_compute. repeat split. Qed.

(** C5, on the code: the track is marked as having used the name by the
    first text processed in it, with or without a placeholder.  Right after
    the wizard stores the name, part 11 of [system_prompt] is rendered: its
    first line has no placeholder, and the placeholder of its second line,
    the first of the track since the name exists, is removed. *)
Theorem first_placeholder_removed_after_plain_text :
  userPreferredName resumed = "Rishi"
  /\ playhead resumed = (FRT.system_prompt, 11)
  /\ textSurface (dom resumed)
     = [ lineDiv AlignLeft [span "" "There we go."];
         lineDiv AlignLeft [span "" "You've just set your first system prompt."];
         lineDiv AlignLeft
           [span "" "From now on, that's the script I'll follow when we talk."] ]
  /\ fst (replaceNamePlaceholder "Thanks, {name}."
            (snd (replaceNamePlaceholder "There we go." stored))) = "Thanks."
  /\ fst (replaceNamePlaceholder "{name}, meet {name}." stored) = "Rishi, meet Rishi.".
Proof. vm_compute. repeat split. Qed.

(** The example of the claim holds when the first text processed in the
    track is the one with the placeholder. *)
Lemma name_first_use_then_removed :
  fst (replaceNamePlaceholder "Thanks, {name}." stored) = "Thanks, Rishi."
  /\ fst (replaceNamePlaceholder "Thanks, {name}."
            (snd (replaceNamePlaceholder "Thanks, {name}." stored))) = "Thanks.".
Proof. vm_compute. repeat split. Qed.

(** C2 as stated fails: from part 1 of the intro track no number of forward
    actions brings the play-head to the last part of the memory track. *)
Lemma forward_clicks_alone_never_reach_memory :
  ~ exists n, playhead (Nat.iter n (forward Start.quiet) atIntro)
              = (memory, getMaxPart memory).
Proof.
  intros [n Hn].
  assert (Hs : settled atIntro) by (split; reflexivity).
  destruct (forward_iter Start.quiet n atIntro Hs) as [_ Hp].
  rewrite Hp in Hn. change (playhead atIntro) with (intro, 1) in Hn.
  destruct (head_intro_cases n) as [[H|H] _]; cbv zeta in H;
    rewrite Hn in H; discriminate H.
Qed.

Lemma forward_clicks_end_to_end_witness :
  playhead (Nat.iter 8 (forward Start.quiet) atIntro) = (model, 4)
  /\ playhead (Nat.iter 20 (forward Start.quiet)
                 (modelLoaded Start.quiet (Nat.iter 8 (forward Start.quiet) atIntro)))
     = (memory, 5)
  /\ tornDown (Nat.iter 21 (forward Start.quiet)
                 (modelLoaded Start.quiet (Nat.iter 8 (forward Start.quiet) atIntro))).
Proof.
  pose proof (forward_clicks_end_to_end Start.quiet atIntro) as H.
  cbv zeta in H.
  destruct H as (H1 & _ & _ & _ & _ & _ & H5 & _ & H7).
  - split; reflexivity.
  - reflexivity.
  - reflexivity.
  - vm_compute; reflexivity.
  - exact (conj H1 (conj H5 H7)).
Defined.

Lemma chat_repeat_soft_pass_after_two_witness :
  satisfied (gate repeatedOnce) = false
  /\ satisfied (gate softPassed) = true
  /\ navLocked (dom softPassed) = false.
Proof.
  pose proof (chat_repeat_soft_pass_after_two atRepeat None
                "  what's 2+2?  " "  what's 2+2?  " "Four, matey." "Four, matey.") as H.
  cbv zeta in H.
  destruct H as (H1 & H2 & H3 & _).
  - vm_compute; reflexivity.
  - vm_compute; reflexivity.
  - vm_compute; reflexivity.
  - split; [reflexivity | vm_compute; discriminate].
  - split; [reflexivity | vm_compute; discriminate].
  - exact (conj H1 (conj H2 H3)).
Defined.

Lemma blocked_clicks_count_as_attempts_witness :
  let w2 := Nat.iter 2 (btnNext_click Start.quiet) atRepeat in
  playhead w2 = (FRT.system_prompt, 7)
  /\ attempts (gate w2) = 2
  /\ satisfied (gate (chat "Tell me a fact about the ocean." (Some "Arr.") w2)) = true.
Proof.
  pose proof (blocked_clicks_count_as_attempts Start.quiet atRepeat None
                "Tell me a fact about the ocean." "Arr.") as H.
  cbv zeta in H.
  destruct H as (_ & H2 & _ & H4 & _ & H6 & _).
  - reflexivity.
  - reflexivity.
  - vm_compute; reflexivity.
  - vm_compute; reflexivity.
  - vm_compute; reflexivity.
  - split; [reflexivity | vm_compute; discriminate].
  - cbv zeta. exact (conj H4 (conj H2 H6)).
Defined.

Lemma ungated_part_never_blocks_witness :
  gatePending (renderPart Start.quiet 5 asked) = false
  /\ btnNext_click Start.quiet (renderPart Start.quiet 5 asked)
     = advance Start.quiet (renderPart Start.quiet 5 asked).
Proof.
  destruct (getPart FRT.system_prompt 5) as [p|] eqn:Hp; [|discriminate Hp].
  pose proof (ungated_part_never_blocks Start.quiet Start.quiet 5 asked p) as H.
  cbv zeta in H.
  destruct H as (_ & _ & H3 & H4).
  - vm_compute; discriminate.
  - exact Hp.
  - vm_compute in Hp. injection Hp as <-. reflexivity.
  - exact (conj H3 H4).
Defined.

Lemma commit_failure_keeps_staged_data_witness :
  let w' := Commit.btnFinalReviewConfirm_click Commit.NotOk atFinalReview in
  confirmDisabled (dom w') = false
  /\ errorDisplayed (dom w') = true
  /\ session w' = session atFinalReview
  /\ first_run_complete w' = None.
Proof.
  pose proof (commit_failure_keeps_staged_data Start.quiet Commit.NotOk "" atFinalReview) as H.
  cbv zeta in H.
  destruct H as ((H1 & _ & H3 & _ & H5 & _ & _ & _ & H9 & _) & _).
  - left; discriminate.
  - cbv zeta. change (hasErrorDiv (dom atFinalReview)) with true in H3.
    destruct H3 as [H3 _].
    refine (conj H1 (conj H3 (conj H5 _))).
    rewrite H9. reflexivity.
Defined.

End FirstRun.

(** * Further properties

    What the handlers beside the ones above do: the rendering of a part,
    the navigation buttons, the chat, the data staged for the final commit,
    the questionnaire and the helpers of the page. *)

(** ** Rendering a part and the navigation around it *)

Section Pages.
Import FRT Run Page.

Section RenderAll.

Variable clicks : nat -> bool.

Lemma renderItems_full : forall items c,
  fst (renderItems clicks items c) = map (fun item => (bullet, item)) items.
Proof.
  induction items as [|item r IH]; intros c; simpl; [reflexivity|].
  pose proof (typeWriter_full clicks bullet c) as Hb.
  destruct (typeWriter clicks bullet c) as [b c1]. simpl in Hb.
  pose proof (typeWriter_full clicks item c1) as Ht.
  destruct (typeWriter clicks item c1) as [t c2]. simpl in Ht.
  specialize (IH (autoReadPause clicks item c2)).
  destruct (renderItems clicks r (autoReadPause clicks item c2)) as [lis c4].
  simpl in *. now rewrite Hb, Ht, IH.
Qed.

Lemma renderStep_surface st surface c :
  fst (renderStep clicks st (surface, c)) = (surface ++ staticBlocks st)%list.
Proof.
  destruct st; simpl.
  - pose proof (renderSegments_full clicks instant segments c) as H.
    destruct (renderSegments clicks instant segments c) as [[sp ft] c1].
    simpl in *. now rewrite H.
  - rewrite app_nil_r. now destruct (fst c).
  - pose proof (renderItems_full items c) as H.
    destruct (renderItems clicks items c) as [lis c1]. simpl in *. now rewrite H.
  - rewrite app_nil_r. now destruct (typeWriter clicks "..." c).
  - reflexivity.
  - reflexivity.
Qed.

Lemma renderSteps_surface : forall sts surface c,
  fst (renderSteps clicks sts (surface, c))
  = (surface ++ flat_map staticBlocks sts)%list.
Proof.
  unfold renderSteps.
  induction sts as [|st r IH]; intros surface c; cbn [fold_left flat_map];
    [simpl; now rewrite app_nil_r|].
  pose proof (renderStep_surface st surface c) as H.
  destruct (renderStep clicks st (surface, c)) as [s1 c1]. simpl in H. subst s1.
  rewrite IH. now rewrite <- app_assoc.
Qed.

End RenderAll.

(** X2: whatever the clicks while it types, a render that resolves leaves
    the text surface with every step of the part in full, in order (the
    part as [processPartWithName] gives it; the part whose hook fills in
    the context packet apart, whose markup that hook rewrites).  A render
    that is rejected leaves the surface empty and the narrator typing on
    that part. *)
Theorem renderPart_surface clicks i w p :
  getPart (track (frt w)) i = Some p ->
  (forall w', renderPartOutcome clicks i w = resolved w' ->
     onEnter p <> Some LOAD_CONTEXT_PACKET ->
     textSurface (dom w')
     = flat_map staticBlocks (steps (fst (processPartWithName p w))))
  /\ (forall w', renderPartOutcome clicks i w = rejected w' ->
        textSurface (dom w') = [] /\ isTyping (frt w') = true
        /\ playhead w' = (track (frt w), i)).
Proof.
  intros Hp. split.
  - intros w' Ho _. destruct (renderPartOutcome_resolved clicks i w p w' Hp Ho) as [-> _].
    clear Ho.
    unfold renderPart. rewrite Hp.
    destruct (processPartWithName_frame p w) as ([L HL] & _ & _).
    destruct (processPartWithName p w) as [part w1]. simpl in HL. subst w1.
    cbn [fst].
    set (wa := clearNarrator _).
    assert (Ha : textSurface (dom wa) = []) by reflexivity.
    clearbody wa.
    set (wb := match onEnter part with Some h => handleNarratorHook h wa | None => wa end).
    assert (Hb : textSurface (dom wb) = []).
    { subst wb. destruct (onEnter part) as [h|]; [|exact Ha].
      destruct h; simpl; assumption. }
    clearbody wb.
    pose proof (renderSteps_surface clicks (steps part) (textSurface (dom wb))
                  (skipRequested (frt wb), 0)) as H1.
    destruct (renderSteps clicks _ _) as [s1 c1]. simpl in H1. subst s1.
    rewrite Hb. cbn [app].
    destruct (requires part); cbv zeta;
      match goal with |- context [if isDeadEnd ?x then _ else _] => destruct (isDeadEnd x) end;
      unfold showOptional; simpl;
      repeat match goal with |- context [if ?b then _ else _] => destruct b end;
      reflexivity.
  - intros w' Ho. destruct (renderPartOutcome_rejected clicks i w p w' Hp Ho) as (_ & _ & L & ->).
    repeat split.
Qed.

(** X4: while the required action of the part is not satisfied, a click on
    Next moves nowhere: same part, gate still pending, nothing committed,
    same text; and, unless a line is still being typed, a hint is shown. *)
Theorem pending_gate_blocks_forward clicks w :
  stage (frt w) <> boot -> gatePending w = true ->
  let w' := btnNext_click clicks w in
  playhead w' = playhead w
  /\ gatePending w' = true
  /\ first_run_complete w' = first_run_complete w
  /\ textSurface (dom w') = textSurface (dom w)
  /\ (isTyping (frt w) = false -> truthy (optional (dom w')) = true).
Proof.
  intros Hs Hg. cbv zeta. unfold btnNext_click.
  destruct (stage (frt w)) eqn:Es; try (now contradiction Hs).
  - destruct (isTyping (frt w)) eqn:Et.
    + unfold playhead, gatePending in *. simpl. repeat split; try assumption. discriminate.
    + rewrite Hg. unfold gateBlocked, gatePending, playhead, showOptional in *.
      destruct (kind (requiredAction (frt w))) as [[| |]|] eqn:Ek; try discriminate Hg;
        simpl; rewrite ?Ek; simpl;
        try (destruct (attempts (requiredAction (frt w))) as [|[|[|a]]]; simpl);
        rewrite ?Ek; simpl; repeat split; assumption.
  - destruct (isTyping (frt w)) eqn:Et.
    + destruct (getPart (track (frt w)) (partIndex (frt w))) as [p|];
        unfold showOptional, playhead, gatePending in *;
        [destruct (negb (truthy (earlyClickLine p)))|]; simpl;
        repeat split; try assumption; discriminate.
    + rewrite Hg. unfold gateBlocked, gatePending, playhead, showOptional in *.
      destruct (kind (requiredAction (frt w))) as [[| |]|] eqn:Ek; try discriminate Hg;
        simpl; rewrite ?Ek; simpl;
        try (destruct (attempts (requiredAction (frt w))) as [|[|[|a]]]; simpl);
        rewrite ?Ek; simpl; repeat split; assumption.
Qed.


(** X6: while a line is being typed, a click on Next or on Back only asks
    to skip the typing: the part, the gate and the text stay as they are.
    A click on Back does so when the button is enabled; on the disabled
    button, as on the first part, it does nothing at all. *)
Theorem click_while_typing_only_skips clicks w :
  stage (frt w) <> boot -> isTyping (frt w) = true ->
  let n := btnNext_click clicks w in
  let b := clickBack clicks w in
  skipRequested (frt n) = true
  /\ (backDisabled (dom w) = false -> skipRequested (frt b) = true)
  /\ (backDisabled (dom w) = true -> b = w)
  /\ playhead n = playhead w /\ playhead b = playhead w
  /\ gate n = gate w /\ gate b = gate w
  /\ textSurface (dom n) = textSurface (dom w)
  /\ textSurface (dom b) = textSurface (dom w)
  /\ isTyping (frt n) = true /\ isTyping (frt b) = true.
Proof.
  intros Hs Ht. cbv zeta. unfold clickBack, btnNext_click, btnBack_click. rewrite Ht.
  destruct (backDisabled (dom w)); destruct (stage (frt w)) eqn:Es;
    try (now contradiction Hs);
    try (destruct (getPart (track (frt w)) (partIndex (frt w))) as [p|];
         unfold showOptional, playhead, gate;
         [destruct (negb (truthy (earlyClickLine p)))|]);
    unfold playhead, gate; simpl; repeat split; try assumption; try discriminate.
Qed.



(** X8: under a [chat_any] gate any answered, non-blank message satisfies
    the gate: it is recorded as the baseline question, no attempt is
    counted, and Next is enabled on the same part. *)
Theorem chat_any_takes_any_message m r w :
  truthy (trim m) = true -> isGenerating (app w) = false -> isTutorialChat w = true ->
  kind (gate w) = Some chat_any -> satisfied (gate w) = false ->
  let w' := chat m (Some r) w in
  satisfied (gate w') = true
  /\ baselineQuestion (gate w') = Some (trim m)
  /\ attempts (gate w') = attempts (gate w)
  /\ navLocked (dom w') = false
  /\ playhead w' = playhead w.
Proof.
  intros Hm Hg Ht Hk Hs. unfold gate in *. cbv zeta. unfold chat.
  rewrite Hm, Hg, Ht. cbn [negb orb].
  unfold checkRequiredAction, gatePending, playhead. simpl. rewrite Hk, Hs. simpl.
  rewrite trim_idem. repeat split.
Qed.

(** X9: no chat message confirms the final review: under its gate
    [api.chat] leaves the gate, the Next button and the first-run flag as
    they are, whatever the message and the reply. *)
Theorem chat_never_confirms_review m r w :
  kind (gate w) = Some final_review_confirm ->
  gate (chat m r w) = gate w /\ navLocked (dom (chat m r w)) = navLocked (dom w)
  /\ first_run_complete (chat m r w) = first_run_complete w.
Proof.
  intros Hk. unfold gate in *. unfold chat.
  destruct (negb (truthy (trim m)) || isGenerating (app w)); [repeat split|].
  destruct (isTutorialChat w); [|repeat split].
  destruct r as [content|]; [|repeat split].
  unfold checkRequiredAction, gatePending. simpl. rewrite Hk.
  destruct (negb (satisfied (requiredAction (frt w)))); repeat split.
Qed.

(** Class lists under [addClass] and [removeClass]. *)

Lemma removeClass_absent d l : contains d l = false -> removeClass d l = l.
Proof.
  unfold contains, removeClass. induction l as [|x l IH]; simpl; [reflexivity|].
  rewrite String.eqb_sym.
  destruct (String.eqb x d); simpl; [discriminate|]. intros H. now rewrite IH.
Qed.

Lemma removeClass_idem d l : removeClass d (removeClass d l) = removeClass d l.
Proof.
  apply removeClass_absent. rewrite contains_removeClass, String.eqb_refl. simpl.
  apply andb_false_r.
Qed.

Lemma addClass_present c l : contains c l = true -> addClass c l = l.
Proof. intros H. unfold addClass. now rewrite H. Qed.

Lemma addClass_idem c l : addClass c (addClass c l) = addClass c l.
Proof.
  apply addClass_present. rewrite contains_addClass, String.eqb_refl. apply orb_true_r.
Qed.

Lemma show_idem z : RPG.show (RPG.show z) = RPG.show z.
Proof. destruct z. reflexivity. Qed.

(** X10: every narrator hook is idempotent: running [handleNarratorHook]
    twice with the same hook gives the state that running it once
    gives. *)
Theorem hooks_are_idempotent h w :
  handleNarratorHook h (handleNarratorHook h w) = handleNarratorHook h w.
Proof.
  destruct w as [n a d z f se u]. destruct d as [cl nl bd ts op ov pd fh cd ct he et ed al].
  destruct h; cbv -[addClass removeClass contains RPG.show negb]; try reflexivity.
  - f_equal. f_equal.
    set (cl3 := addClass "frt-pulse-model" (addClass "frt-with-rail"
                  (addClass "frt-allow-right-rail" cl))).
    assert (E : addClass "frt-pulse-model" (addClass "frt-with-rail"
                  (addClass "frt-allow-right-rail"
                     (if negb (contains "frt-right-sidebar-unlocked" cl3)
                      then removeClass "frt-allow-right-sidebar" cl3 else cl3)))
                = (if negb (contains "frt-right-sidebar-unlocked" cl3)
                   then removeClass "frt-allow-right-sidebar" cl3 else cl3)).
    { assert (C : forall c, contains c cl3 = true -> c <> "frt-allow-right-sidebar" ->
                        contains c (if negb (contains "frt-right-sidebar-unlocked" cl3)
                                    then removeClass "frt-allow-right-sidebar" cl3 else cl3) = true).
      { intros c Hc Hne. destruct (negb _); [|exact Hc].
        rewrite contains_removeClass, Hc. apply String.eqb_neq in Hne. now rewrite Hne. }
      rewrite (addClass_present "frt-allow-right-rail"),
              (addClass_present "frt-with-rail"),
              (addClass_present "frt-pulse-model"); try reflexivity;
        apply C; try discriminate; subst cl3;
        repeat rewrite contains_addClass; simpl; rewrite ?orb_true_r; reflexivity. }
    rewrite E.
    destruct (negb (contains "frt-right-sidebar-unlocked" cl3)) eqn:Eu.
    + rewrite contains_removeClass. simpl. rewrite andb_true_r.
      rewrite Eu. apply removeClass_idem.
    + now rewrite Eu.
  - f_equal. f_equal.
    rewrite (addClass_present "frt-split-with-chat").
    + apply removeClass_idem.
    + rewrite contains_removeClass, contains_addClass, String.eqb_refl.
      now rewrite orb_true_r.
  - f_equal. f_equal.
    set (r := removeClass "frt-split-with-chat" cl).
    rewrite (removeClass_absent "frt-split-with-chat").
    + rewrite (addClass_present "frt-split")
        by (rewrite !contains_addClass, String.eqb_refl; simpl;
            rewrite orb_false_r; apply orb_true_r).
      apply addClass_idem.
    + rewrite !contains_addClass. subst r. rewrite contains_removeClass, String.eqb_refl.
      simpl. now rewrite andb_false_r.
Qed.

Ltac break_if :=
  repeat match goal with
         | |- context [if ?b then _ else _] => destruct b
         end.

(** What a hook leaves alone. *)

Lemma handleNarratorHook_nav h w :
  navLocked (dom (handleNarratorHook h w)) = navLocked (dom w)
  /\ backDisabled (dom (handleNarratorHook h w)) = backDisabled (dom w)
  /\ overlayDisplayed (dom (handleNarratorHook h w)) = overlayDisplayed (dom w)
  /\ alerts (dom (handleNarratorHook h w)) = alerts (dom w).
Proof. destruct h; repeat split. Qed.

Lemma renderPart_enabled_controls clicks i w p :
  getPart (track (frt w)) i = Some p ->
  let w' := renderPart clicks i w in
  navLocked (dom w')
  = (match requires p with Some _ => true | None => false end
     || (track_eqb (track (frt w)) model && (i =? 4)))
  /\ backDisabled (dom w') = (i <=? 1)
  /\ gatePending w' = match requires p with Some _ => true | None => false end
  /\ overlayDisplayed (dom w') = overlayDisplayed (dom w)
  /\ alerts (dom w') = alerts (dom w).
Proof.
  intros Hp. cbv zeta. unfold renderPart. rewrite Hp.
  destruct (processPartWithName_frame p w) as ([L HL] & Hreq & _).
  destruct (processPartWithName p w) as [part w1]. simpl in HL, Hreq.
  subst w1. rewrite <- Hreq. clear Hreq.
  set (wa := clearNarrator _).
  assert (Ha : track (frt wa) = track (frt w) /\ partIndex (frt wa) = i
               /\ overlayDisplayed (dom wa) = overlayDisplayed (dom w)
               /\ alerts (dom wa) = alerts (dom w))
    by (repeat split).
  clearbody wa.
  set (wb := match onEnter part with Some h => handleNarratorHook h wa | None => wa end).
  assert (Hb : track (frt wb) = track (frt w) /\ partIndex (frt wb) = i
               /\ overlayDisplayed (dom wb) = overlayDisplayed (dom w)
               /\ alerts (dom wb) = alerts (dom w)).
  { subst wb. destruct (onEnter part) as [h|]; [|exact Ha].
    destruct Ha as (A1 & A2 & A3 & A4).
    destruct (handleNarratorHook_frame h wa) as (F & _).
    destruct (handleNarratorHook_nav h wa) as (_ & _ & N3 & N4).
    rewrite F, N3, N4. repeat split; assumption. }
  clearbody wb. destruct Hb as (B1 & B2 & B3 & B4).
  destruct (renderSteps clicks _ _) as [s1 c1].
  unfold isDeadEnd, gatePending.
  destruct (requires part); cbv zeta; simpl; rewrite B1, B2;
    destruct (track_eqb (track (frt w)) model && (i =? 4));
    unfold showOptional; simpl;
    try (destruct (lastOptionalKind (frt wb)) as [k|];
         [destruct (String.eqb k "final-instruction")|]);
    simpl; rewrite ?B2, ?B3, ?B4; repeat split.
Qed.

(** X3: after a render that resolves, the navigation bar is locked
    ([frt-nav-locked]) exactly when the part has a required action or is
    part 4 of the model track, Back is disabled exactly on the first part,
    a gate is pending exactly when the part requires an action, and neither
    the overlay nor the alerts change.  A render that is rejected leaves
    the bar locked, the narrator typing, the gate of the part before and
    the final review as it was. *)
Theorem renderPart_navigation clicks i w p :
  getPart (track (frt w)) i = Some p ->
  (forall w', renderPartOutcome clicks i w = resolved w' ->
     navLocked (dom w')
     = (match requires p with Some _ => true | None => false end
        || (track_eqb (track (frt w)) model && (i =? 4)))
     /\ backDisabled (dom w') = (i <=? 1)
     /\ gatePending w' = match requires p with Some _ => true | None => false end
     /\ overlayDisplayed (dom w') = overlayDisplayed (dom w)
     /\ alerts (dom w') = alerts (dom w))
  /\ (forall w', renderPartOutcome clicks i w = rejected w' ->
        navLocked (dom w') = true
        /\ backDisabled (dom w') = (i <=? 1)
        /\ isTyping (frt w') = true
        /\ requiredAction (frt w') = requiredAction (frt w)
        /\ finalReviewHidden (dom w') = finalReviewHidden (dom w)
        /\ overlayDisplayed (dom w') = overlayDisplayed (dom w)
        /\ alerts (dom w') = alerts (dom w)).
Proof.
  intros Hp. split.
  - intros w' Ho. destruct (renderPartOutcome_resolved clicks i w p w' Hp Ho) as [-> _].
    exact (renderPart_enabled_controls clicks i w p Hp).
  - intros w' Ho. destruct (renderPartOutcome_rejected clicks i w p w' Hp Ho) as (_ & _ & L & ->).
    repeat split.
Qed.

Lemma renderPart_page clicks i w p :
  getPart (track (frt w)) i = Some p -> onEnter p = None ->
  let w' := renderPart clicks i w in
  bodyClasses (dom w') = bodyClasses (dom w)
  /\ promptDisabled (dom w') = promptDisabled (dom w)
  /\ finalReviewHidden (dom w') = finalReviewHidden (dom w)
  /\ app w' = app w /\ wizard w' = wizard w.
Proof.
  intros Hp He. cbv zeta. unfold renderPart. rewrite Hp.
  destruct (processPartWithName_frame p w) as ([L HL] & _ & Hent).
  destruct (processPartWithName p w) as [part w1]. simpl in HL, Hent.
  subst w1. rewrite He in Hent. rewrite Hent.
  destruct (renderSteps clicks _ _) as [s1 c1].
  destruct (requires part); cbv zeta;
    match goal with |- context [if isDeadEnd ?x then _ else _] => destruct (isDeadEnd x) end;
    unfold showOptional; simpl;
    try (destruct (lastOptionalKind (frt w)) as [k|];
         [destruct (String.eqb k "final-instruction")|]);
    simpl; repeat split.
Qed.

Lemma first_part_plain t :
  exists p, getPart t 1 = Some p /\ onEnter p = None /\ requires p = None.
Proof. destruct t; vm_compute; eexists; (split; [reflexivity | split; reflexivity]). Qed.

Lemma enterFirstRunStep1_booted clicks w :
  enterFirstRunStep1 clicks w = renderPart clicks 1 (booted w).
Proof. reflexivity. Qed.

Lemma booted_spec w :
  stage (frt (booted w)) = script
  /\ track (frt (booted w)) = track (frt w)
  /\ bodyClasses (dom (booted w))
     = addClass "frt-boot" (addClass "is-dimmed"
         (addClass "first-run-tutorial" (bodyClasses (dom w))))
  /\ overlayDisplayed (dom (booted w)) = true
  /\ promptDisabled (dom (booted w)) = true
  /\ session (booted w) = session w
  /\ first_run_complete (booted w) = first_run_complete w
  /\ tutorialSystemPromptText (app (booted w))
     = (match rpg_system_prompt (session w) with
        | Some stored => if truthy stored then stored
                         else tutorialSystemPromptText (app w)
        | None => tutorialSystemPromptText (app w)
        end).
Proof.
  unfold booted.
  destruct (rpg_system_prompt (session w)) as [s|]; [destruct (truthy s)|]; repeat split.
Qed.

(** X11: [enterFirstRunStep1] starts the tutorial on part 1 of the current
    track with nothing left typing: page dimmed, overlay shown, prompt
    input disabled, no gate, Next enabled and Back disabled.  A non-empty
    prompt stored by an earlier questionnaire becomes the tutorial's
    prompt; the session store is not written. *)
Theorem enterFirstRunStep1_spec clicks w :
  let w' := enterFirstRunStep1 clicks w in
  settled w'
  /\ playhead w' = (track (frt w), 1)
  /\ inTutorial w' = true
  /\ contains "is-dimmed" (bodyClasses (dom w')) = true
  /\ overlayDisplayed (dom w') = true
  /\ promptDisabled (dom w') = true
  /\ gatePending w' = false
  /\ navLocked (dom w') = false
  /\ backDisabled (dom w') = true
  /\ tutorialSystemPromptText (app w')
     = (match rpg_system_prompt (session w) with
        | Some stored => if truthy stored then stored
                         else tutorialSystemPromptText (app w)
        | None => tutorialSystemPromptText (app w)
        end)
  /\ session w' = session w
  /\ first_run_complete w' = first_run_complete w.
Proof.
  cbv zeta. rewrite enterFirstRunStep1_booted.
  destruct (booted_spec w) as (X1 & Ht & X2 & X3 & X4 & X5 & X6 & X7).
  destruct (first_part_plain (track (frt w))) as (p & Hp & He & Hr).
  rewrite <- Ht in Hp.
  destruct (renderPart_spec clicks 1 (booted w) p Hp)
    as (S1 & S2 & S3 & S4 & _ & S6 & S7 & S8 & _).
  destruct (renderPart_enabled_controls clicks 1 (booted w) p Hp) as (N1 & N2 & N3 & N4 & _).
  destruct (renderPart_page clicks 1 (booted w) p Hp He) as (P1 & P2 & _ & P4 & _).
  unfold settled, playhead, inTutorial.
  rewrite S1, S2, S3, S4, S7, S8, N1, N2, N3, N4, P1, P2, P4, Hr, Ht.
  rewrite X1, X2, X3, X4, X5, X6, X7, !contains_addClass.
  cbn [String.eqb Ascii.eqb Bool.eqb andb orb Nat.eqb Nat.leb].
  rewrite ?andb_false_r, ?orb_false_r, ?orb_true_r. repeat split.
Qed.

Lemma renderPart_surface_witness :
  (exists p, getPart intro 2 = Some p
     /\ textSurface (dom (renderPart Start.quiet 2 atIntro))
        = flat_map staticBlocks (steps (fst (processPartWithName p atIntro))))
  /\ forall w', renderPartOutcome Start.quiet 5 garbled = rejected w' ->
       textSurface (dom w') = [].
Proof.
  split.
  - destruct (getPart intro 2) as [p|] eqn:Hp; [|discriminate Hp].
    exists p. split; [reflexivity|].
    destruct (renderPart_surface Start.quiet 2 atIntro p Hp) as [H _].
    apply H.
    + apply (renderPartOutcome_readable Start.quiet 2 atIntro p Hp). vm_compute; reflexivity.
    + vm_compute in Hp. injection Hp as <-. discriminate.
  - intros w' Ho.
    destruct (getPart memory 5) as [p|] eqn:Hp; [|discriminate Hp].
    destruct (renderPart_surface Start.quiet 5 garbled p Hp) as [_ H].
    apply (H w' Ho).
Defined.

Lemma renderPart_navigation_witness :
  navLocked (dom (renderPart Start.quiet 4 atPrompt)) = true
  /\ backDisabled (dom (renderPart Start.quiet 4 atPrompt)) = false
  /\ gatePending (renderPart Start.quiet 4 atPrompt) = true.
Proof.
  destruct (getPart FRT.system_prompt 4) as [p|] eqn:Hp; [|discriminate Hp].
  destruct (renderPart_navigation Start.quiet 4 atPrompt p Hp) as [H _].
  destruct (H (renderPart Start.quiet 4 atPrompt)) as (H1 & H2 & H3 & _).
  - apply (renderPartOutcome_readable Start.quiet 4 atPrompt p Hp). vm_compute; reflexivity.
  - vm_compute in Hp. injection Hp as <-.
    exact (conj H1 (conj H2 H3)).
Defined.

Lemma pending_gate_blocks_forward_witness :
  playhead (btnNext_click Start.quiet atChatAny) = (FRT.system_prompt, 4)
  /\ gatePending (btnNext_click Start.quiet atChatAny) = true.
Proof.
  pose proof (pending_gate_blocks_forward Start.quiet atChatAny) as H.
  cbv zeta in H. destruct H as (H1 & H2 & _).
  - vm_compute; discriminate.
  - vm_compute; reflexivity.
  - exact (conj H1 H2).
Defined.


Lemma click_while_typing_only_skips_witness :
  clickBack Start.quiet typingFirst = typingFirst
  /\ skipRequested (frt (btnNext_click Start.quiet typingFirst)) = true
  /\ skipRequested (frt (clickBack Start.quiet (upd_frt (set_isTyping true) atChatAny))) = true.
Proof.
  pose proof (click_while_typing_only_skips Start.quiet typingFirst) as H.
  pose proof (click_while_typing_only_skips Start.quiet
                (upd_frt (set_isTyping true) atChatAny)) as H'.
  cbv zeta in H, H'.
  destruct H as (H1 & _ & H3 & _); [vm_compute; discriminate | reflexivity |].
  destruct H' as (_ & H2 & _); [vm_compute; discriminate | reflexivity |].
  split; [apply H3; vm_compute; reflexivity | split; [exact H1 | apply H2; vm_compute; reflexivity]].
Defined.


Lemma chat_any_takes_any_message_witness :
  satisfied (gate (chat "What's 2+2?" (Some "4") atChatAny)) = true
  /\ baselineQuestion (gate (chat "What's 2+2?" (Some "4") atChatAny))
     = Some "What's 2+2?"
  /\ navLocked (dom (chat "What's 2+2?" (Some "4") atChatAny)) = false.
Proof.
  pose proof (chat_any_takes_any_message "What's 2+2?" "4" atChatAny) as H.
  cbv zeta in H. destruct H as (H1 & H2 & _ & H4 & _).
  - reflexivity.
  - vm_compute; reflexivity.
  - vm_compute; reflexivity.
  - vm_compute; reflexivity.
  - vm_compute; reflexivity.
  - exact (conj H1 (conj H2 H4)).
Defined.

Lemma chat_never_confirms_review_witness :
  gate (chat "LOOKS GOOD" (Some "Aye.") atFinalReview) = gate atFinalReview
  /\ first_run_complete (chat "LOOKS GOOD" (Some "Aye.") atFinalReview) = None.
Proof.
  destruct (chat_never_confirms_review "LOOKS GOOD" (Some "Aye.") atFinalReview)
    as (H1 & _ & H3).
  - vm_compute; reflexivity.
  - split; [exact H1 | rewrite H3; vm_compute; reflexivity].
Defined.

(** *** After a rejected render *)

Lemma press_while_typing clicks b x :
  stage (frt x) = script -> isTyping (frt x) = true ->
  let y := press clicks b x in
  stage (frt y) = script /\ isTyping (frt y) = true
  /\ playhead y = playhead x
  /\ textSurface (dom y) = textSurface (dom x)
  /\ finalReviewHidden (dom y) = finalReviewHidden (dom x)
  /\ gate y = gate x
  /\ first_run_complete y = first_run_complete x
  /\ session y = session x.
Proof.
  intros Hs Ht. cbv zeta. destruct b; unfold press, clickBack, btnNext_click, btnBack_click;
    rewrite ?Ht, ?Hs.
  - destruct (getPart (track (frt x)) (partIndex (frt x))) as [p|];
      unfold showOptional, playhead, gate;
      [destruct (negb (truthy (earlyClickLine p)))|]; simpl; repeat split; assumption.
  - destruct (backDisabled (dom x)); unfold playhead, gate; simpl; repeat split; assumption.
Qed.

(** X25: when a staged item does not parse, the render of the final
    review is rejected by its hook, and from then on clicks on Next and
    Back change nothing but the skip flag and the aside: the narrator
    stays typing on that part with an empty surface, the final review stays
    hidden, and neither the gate, the first-run flag nor the session
    changes. *)
Theorem unreadable_staging_blocks_the_review clicks i w p w' :
  getPart (track (frt w)) i = Some p ->
  stage (frt w) = script ->
  renderPartOutcome clicks i w = rejected w' ->
  (onEnter p = Some SHOW_FINAL_REVIEW /\ stagedReadable (session w) = false)
  /\ forall presses,
       let w'' := fold_left (fun x b => press clicks b x) presses w' in
       playhead w'' = (track (frt w), i)
       /\ isTyping (frt w'') = true
       /\ textSurface (dom w'') = []
       /\ finalReviewHidden (dom w'') = finalReviewHidden (dom w)
       /\ gate w'' = gate w
       /\ first_run_complete w'' = first_run_complete w
       /\ session w'' = session w.
Proof.
  intros Hp Hs Ho.
  destruct (renderPartOutcome_rejected clicks i w p w' Hp Ho) as (He & Hr & L & Hw').
  split; [exact (conj He Hr)|].
  assert (H0 : stage (frt w') = script /\ isTyping (frt w') = true
               /\ playhead w' = (track (frt w), i)
               /\ textSurface (dom w') = []
               /\ finalReviewHidden (dom w') = finalReviewHidden (dom w)
               /\ gate w' = gate w
               /\ first_run_complete w' = first_run_complete w
               /\ session w' = session w).
  { subst w'. repeat split. exact Hs. }
  clear Hw' Ho. revert H0. generalize w'. clear w'.
  intros w' H0 presses. revert w' H0.
  induction presses as [|b r IH]; intros x (I1 & I2 & I3 & I4 & I5 & I6 & I7 & I8); cbn [fold_left].
  - repeat split; assumption.
  - apply IH.
    destruct (press_while_typing clicks b x I1 I2) as (P1 & P2 & P3 & P4 & P5 & P6 & P7 & P8).
    rewrite P3, P4, P5, P6, P7, P8. repeat split; assumption.
Qed.

Lemma unreadable_staging_blocks_the_review_witness :
  exists w', renderPartOutcome Start.quiet 5 garbled = rejected w'
    /\ playhead (btnNext_click Start.quiet (clickBack Start.quiet (btnNext_click Start.quiet w')))
       = (memory, 5)
    /\ isTyping (frt (btnNext_click Start.quiet
                        (clickBack Start.quiet (btnNext_click Start.quiet w')))) = true
    /\ finalReviewHidden
         (dom (btnNext_click Start.quiet
                 (clickBack Start.quiet (btnNext_click Start.quiet w')))) = true.
Proof.
  destruct (renderPartOutcome Start.quiet 5 garbled) as [w'|w'] eqn:Ho;
    [vm_compute in Ho; discriminate Ho|].
  exists w'. split; [reflexivity|].
  destruct (getPart memory 5) as [p|] eqn:Hp; [|discriminate Hp].
  destruct (unreadable_staging_blocks_the_review Start.quiet 5 garbled p w' Hp) as [_ H].
  - vm_compute; reflexivity.
  - exact Ho.
  - destruct (H [pressNext; pressBack; pressNext]) as (P1 & P2 & _ & P4 & _).
    cbn [fold_left press] in P1, P2, P4.
    split; [exact P1 | split; [exact P2 | rewrite P4; vm_compute; reflexivity]].
Defined.

End Pages.

(** ** The data staged for the final commit *)

Section StagedData.
Import FRT Run Commit Staged.


Lemma keepVal_sendable v : keepVal (trimVal v) = true -> sendable (trimVal v).
Proof.
  destruct v as [|s|j]; simpl; intros H; [discriminate | | exact I].
  split; [|apply trim_idem]. intros E. rewrite E in H. discriminate.
Qed.



Lemma tierBEntries_fold entries : tierBEntries entries = fold_left stepB entries [].
Proof. reflexivity. Qed.

Lemma mapSet_keys k v m :
  map fst (mapSet k v m)
  = if existsb (String.eqb k) (map fst m) then map fst m else (map fst m ++ [k])%list.
Proof.
  induction m as [|[k' v'] r IH]; simpl; [reflexivity|].
  rewrite (String.eqb_sym k k').
  destruct (String.eqb k' k); simpl; [reflexivity|].
  rewrite IH. now destruct (existsb (String.eqb k) (map fst r)).
Qed.

Lemma lookup_mapSet k k' v m :
  lookup k (mapSet k' v m) = if String.eqb k k' then Some v else lookup k m.
Proof.
  induction m as [|[k1 v1] r IH]; simpl.
  - reflexivity.
  - destruct (String.eqb_spec k1 k') as [->|Hne]; simpl.
    + now destruct (String.eqb k k').
    + rewrite IH. destruct (String.eqb_spec k k1) as [->|]; [|reflexivity].
      destruct (String.eqb_spec k1 k'); [contradiction | reflexivity].
Qed.

Lemma existsb_eqb_In k l : existsb (String.eqb k) l = true <-> In k l.
Proof.
  rewrite existsb_exists. split.
  - intros (x & Hx & E). apply String.eqb_eq in E. now subst.
  - intros H. exists k. split; [exact H | apply String.eqb_refl].
Qed.

Lemma mapSet_NoDup k v m : NoDup (map fst m) -> NoDup (map fst (mapSet k v m)).
Proof.
  intros H. rewrite mapSet_keys.
  destruct (existsb (String.eqb k) (map fst m)) eqn:E; [exact H|].
  apply NoDup_app; [exact H | constructor; [intros [] | constructor] |].
  intros x Hx [<-|[]]. apply existsb_eqb_In in Hx. rewrite Hx in E. discriminate.
Qed.

Lemma mapSet_Forall (P : string * JVal -> Prop) k v m :
  Forall P m -> P (k, v) -> Forall P (mapSet k v m).
Proof.
  intros H Hkv. induction H as [|[k1 v1] r H1 H2 IH]; simpl.
  - constructor; [exact Hkv | constructor].
  - destruct (String.eqb_spec k1 k) as [->|_]; constructor; assumption.
Qed.

Lemma fold_stepB_inv entries : forall m,
  NoDup (map fst m) ->
  Forall (fun kv => fst kv <> "" /\ trim (fst kv) = fst kv /\ sendable (snd kv)) m ->
  let m' := fold_left stepB entries m in
  NoDup (map fst m')
  /\ Forall (fun kv => fst kv <> "" /\ trim (fst kv) = fst kv /\ sendable (snd kv)) m'
  /\ forall k, lookup k m' = lastValue k entries (lookup k m).
Proof.
  induction entries as [|[k0 v0] r IH]; intros m Hnd Hall; cbv zeta.
  - simpl. auto.
  - cbn [fold_left lastValue].
    assert (Hs : NoDup (map fst (stepB m (k0, v0)))
                 /\ Forall (fun kv => fst kv <> "" /\ trim (fst kv) = fst kv
                                      /\ sendable (snd kv)) (stepB m (k0, v0))
                 /\ forall k, lookup k (stepB m (k0, v0))
                              = if validB (k0, v0) && String.eqb k (trim (fst (k0, v0)))
                                then Some (trimVal (snd (k0, v0))) else lookup k m).
    { unfold stepB, validB. cbn [fst snd].
      destruct (truthy (trim k0)) eqn:Ek; [destruct (keepVal (trimVal v0)) eqn:Ev|];
        cbn [andb]; auto.
      split; [now apply mapSet_NoDup | split].
      - apply mapSet_Forall; [exact Hall|]. cbn [fst snd].
        split; [intros E; rewrite E in Ek; discriminate|].
        split; [apply trim_idem | now apply keepVal_sendable].
      - intros k. apply lookup_mapSet. }
    destruct Hs as (S1 & S2 & S3).
    destruct (IH _ S1 S2) as (I1 & I2 & I3). cbv zeta in I3.
    repeat split; auto. intros k. now rewrite I3, S3.
Qed.

(** X15: the tier B object sent at the final commit has no key twice,
    every key is trimmed and not empty, every value is sendable, and the
    value of a key is that of the last staged entry kept for it. *)
Theorem tierBEntries_deduplicated entries :
  NoDup (map fst (tierBEntries entries))
  /\ (forall k v, In (k, v) (tierBEntries entries) ->
        k <> "" /\ trim k = k /\ sendable v)
  /\ (forall k, lookup k (tierBEntries entries) = lastValue k entries None).
Proof.
  rewrite tierBEntries_fold.
  destruct (fold_stepB_inv entries [] (NoDup_nil _) (Forall_nil _)) as (H1 & H2 & H3).
  split; [exact H1 | split; [|exact H3]].
  intros k v Hin. rewrite Forall_forall in H2. exact (H2 _ Hin).
Qed.


Lemma tierBEntries_deduplicated_witness :
  "units" <> "" /\ trim "units" = "units" /\ sendable (JStr "metric").
Proof.
  destruct (tierBEntries_deduplicated
              [(" units", JStr "imperial"); ("units ", JStr " metric "); ("pet", JNull)])
    as (_ & H & _).
  apply (H "units" (JStr "metric")). vm_compute. left; reflexivity.
Defined.

End StagedData.

(** ** Saving the questionnaire's prompt, and stepping back after it *)

Section Resuming.
Import FRT Run Page.

Lemma renderPart_hooked clicks i w p :
  getPart (track (frt w)) i = Some p ->
  let w' := renderPart clicks i w in
  bodyClasses (dom w') = bodyClasses (dom (enter (onEnter p) w))
  /\ promptDisabled (dom w') = promptDisabled (dom (enter (onEnter p) w))
  /\ finalReviewHidden (dom w') = finalReviewHidden (dom (enter (onEnter p) w))
  /\ app w' = app (enter (onEnter p) w)
  /\ wizard w' = wizard (enter (onEnter p) w).
Proof.
  intros Hp. cbv zeta. unfold renderPart. rewrite Hp.
  destruct (processPartWithName_frame p w) as ([L HL] & _ & Hent).
  destruct (processPartWithName p w) as [part w1]. simpl in HL, Hent.
  subst w1. rewrite <- Hent. clear Hent.
  set (wa := clearNarrator _).
  assert (Ha : bodyClasses (dom wa) = bodyClasses (dom w)
               /\ promptDisabled (dom wa) = promptDisabled (dom w)
               /\ finalReviewHidden (dom wa) = finalReviewHidden (dom w)
               /\ app wa = app w /\ wizard wa = wizard w) by (repeat split).
  clearbody wa.
  set (wb := match onEnter part with Some h => handleNarratorHook h wa | None => wa end).
  assert (Hb : bodyClasses (dom wb) = bodyClasses (dom (enter (onEnter part) w))
               /\ promptDisabled (dom wb) = promptDisabled (dom (enter (onEnter part) w))
               /\ finalReviewHidden (dom wb) = finalReviewHidden (dom (enter (onEnter part) w))
               /\ app wb = app (enter (onEnter part) w)
               /\ wizard wb = wizard (enter (onEnter part) w)).
  { subst wb. destruct Ha as (A1 & A2 & A3 & A4 & A5).
    destruct (onEnter part) as [h|]; [|simpl; auto].
    destruct h; simpl; rewrite ?A1, ?A2, ?A3, ?A4, ?A5; repeat split. }
  clearbody wb. destruct Hb as (B1 & B2 & B3 & B4 & B5).
  destruct (renderSteps clicks _ _) as [s1 c1].
  destruct (requires part); cbv zeta;
    match goal with |- context [if isDeadEnd ?x then _ else _] => destruct (isDeadEnd x) end;
    unfold showOptional; simpl;
    try (destruct (lastOptionalKind (frt wb)) as [k|];
         [destruct (String.eqb k "final-instruction")|]);
    simpl; rewrite ?B1, ?B2, ?B3, ?B4, ?B5; repeat split.
Qed.

Lemma part11 :
  exists p, getPart FRT.system_prompt 11 = Some p
            /\ onEnter p = Some DISABLE_SPLIT_CHAT /\ requires p = None.
Proof. vm_compute. eexists. split; [reflexivity | split; reflexivity]. Qed.

Lemma saveSystemPrompt_effect clicks prompt w :
  inTutorial w = true -> truthy prompt = true ->
  let w' := Commit.saveSystemPrompt clicks prompt Commit.Ok w in
  let who := RPG.identity (RPG.answers (wizard w)) in
  let shown := if truthy (RPG.preferred_name who)
               then RPG.preferred_name who else "Anonymous" in
  (playhead w' = (FRT.system_prompt, 11)
   /\ isTyping (frt w') = false /\ gatePending w' = false)
  /\ (userPreferredName w' = shown /\ truthy shown = true
      /\ user_preferred_name (session w') = Some shown
      /\ rpg_system_prompt (session w') = Some prompt
      /\ rpg_tier_a (session w') = Some (Some (Commit.identityObject who)))
  /\ (tutorialSystemPromptText (app w') = prompt
      /\ tutorialSystemPromptId (app w') = "custom"
      /\ Commit.stagedPrompt w' = prompt
      /\ tutorialHistory (app w') = [])
  /\ (promptDisabled (dom w') = true /\ isTutorialChat w' = false
      /\ inTutorial w' = true
      /\ RPG.hidden (wizard w') = true /\ RPG.reviewHidden (wizard w') = true)
  /\ (forall b d,
        Commit.parseStaged (tutorial_tier_b (session w)) = Some b ->
        Commit.parseStaged (tutorial_defaults (session w)) = Some d ->
        Commit.commitPayload w'
        = Some {| Commit.system_prompt := prompt;
                  Commit.tier_a := Commit.cleanTierA (Commit.identityObject who);
                  Commit.tier_b := Commit.tierBEntries b;
                  Commit.defaults := d;
                  Commit.tutorial_completed := true |}).
Proof.
  intros Hin Hp. cbv zeta. unfold Commit.saveSystemPrompt.
  match goal with |- context [if contains _ (bodyClasses (dom ?x)) then _ else _] =>
    replace (contains "first-run-tutorial" (bodyClasses (dom x))) with true
      by (symmetry; exact Hin) end.
  match goal with |- context [renderPart clicks 11 ?x] => set (x0 := x) end.
  destruct part11 as (p & Hg & He & Hr).
  assert (Hx : track (frt x0) = FRT.system_prompt) by reflexivity.
  rewrite <- Hx in Hg.
  destruct (renderPart_spec clicks 11 x0 p Hg) as (_ & S2 & S3 & S4 & _ & _ & _ & S8 & S9).
  destruct (renderPart_enabled_controls clicks 11 x0 p Hg) as (_ & _ & N3 & _).
  destruct (renderPart_hooked clicks 11 x0 p Hg) as (P1 & P2 & _ & P4 & P5).
  pose proof (renderPart_inTutorial clicks 11 x0) as Hi.
  rewrite He in P1, P2, P4, P5. rewrite Hr in N3.
  unfold playhead, isTutorialChat, Commit.commitPayload, Commit.stagedPrompt.
  rewrite Hi, S2, S3, S4, S8, S9, N3, P1, P2, P4, P5, Hx.
  assert (Hs : truthy (if truthy (RPG.preferred_name (RPG.identity (RPG.answers (wizard w))))
                       then RPG.preferred_name (RPG.identity (RPG.answers (wizard w)))
                       else "Anonymous") = true).
  { destruct (truthy (RPG.preferred_name _)) eqn:E; [exact E | reflexivity]. }
  subst x0. unfold inTutorial in *.
  cbn [handleNarratorHook enter upd_app upd_dom upd_wizard upd_frt set_app set_dom set_wizard
       set_frt set_session set_userPreferredName
       app dom wizard session userPreferredName frt
       set_tutorialHistory set_tutorialSystemPromptText set_tutorialSystemPromptId
       tutorialHistory tutorialSystemPromptText tutorialSystemPromptId
       set_promptDisabled set_bodyClasses promptDisabled bodyClasses
       set_rpg_tier_a set_user_preferred_name set_rpg_system_prompt
       rpg_tier_a user_preferred_name rpg_system_prompt tutorial_tier_b tutorial_defaults
       RPG.withSaveButton RPG.withScreens RPG.hidden RPG.reviewHidden
       Commit.parseStaged].
  unfold orItem.
  rewrite !contains_addClass, !contains_removeClass, Hin, Hp, String.eqb_refl.
  cbn [negb andb orb String.eqb Ascii.eqb Bool.eqb].
  rewrite ?andb_false_r, ?orb_false_r, ?andb_false_l.
  repeat split; try assumption.
  intros b d Hb Hd. now rewrite Hb, Hd.
Qed.

(** X12: when the server accepts the prompt, [saveSystemPrompt] stores the
    prompt, the name ("Anonymous" when none was given) and the identity
    in the session, makes the prompt the tutorial's active prompt with an
    empty history, closes the questionnaire and resumes at part 11 of the
    system-prompt track; the final commit would then send exactly this
    prompt and the cleaned identity. *)
Theorem saveSystemPrompt_resumes clicks prompt w :
  inTutorial w = true -> truthy prompt = true ->
  let w' := Commit.saveSystemPrompt clicks prompt Commit.Ok w in
  let who := RPG.identity (RPG.answers (wizard w)) in
  let shown := if truthy (RPG.preferred_name who)
               then RPG.preferred_name who else "Anonymous" in
  (playhead w' = (FRT.system_prompt, 11)
   /\ isTyping (frt w') = false /\ gatePending w' = false)
  /\ (userPreferredName w' = shown /\ truthy shown = true
      /\ user_preferred_name (session w') = Some shown
      /\ rpg_system_prompt (session w') = Some prompt
      /\ rpg_tier_a (session w') = Some (Some (Commit.identityObject who)))
  /\ (tutorialSystemPromptText (app w') = prompt
      /\ tutorialSystemPromptId (app w') = "custom"
      /\ Commit.stagedPrompt w' = prompt
      /\ tutorialHistory (app w') = [])
  /\ (promptDisabled (dom w') = true /\ isTutorialChat w' = false
      /\ inTutorial w' = true
      /\ RPG.hidden (wizard w') = true /\ RPG.reviewHidden (wizard w') = true)
  /\ (forall b d,
        Commit.parseStaged (tutorial_tier_b (session w)) = Some b ->
        Commit.parseStaged (tutorial_defaults (session w)) = Some d ->
        Commit.commitPayload w'
        = Some {| Commit.system_prompt := prompt;
                  Commit.tier_a := Commit.cleanTierA (Commit.identityObject who);
                  Commit.tier_b := Commit.tierBEntries b;
                  Commit.defaults := d;
                  Commit.tutorial_completed := true |}).
Proof. exact (saveSystemPrompt_effect clicks prompt w). Qed.

Lemma enter_app h x y : app x = app y -> app (enter h x) = app (enter h y).
Proof.
  intros E. destruct h as [[]|]; cbn [enter handleNarratorHook upd_app upd_dom upd_wizard
    set_app set_dom set_wizard app]; rewrite ?E; reflexivity.
Qed.

Lemma enter_keeps h w :
  keepsPrompt h = true ->
  tutorialSystemPromptText (app (enter h w)) = tutorialSystemPromptText (app w)
  /\ tutorialSystemPromptId (app (enter h w)) = tutorialSystemPromptId (app w).
Proof. destruct h as [[]|]; intros H; try discriminate H; split; reflexivity. Qed.

Lemma forward_app clicks w :
  settled w -> atFinalPart (playhead w) = false ->
  app (forward clicks w) = app (enter (hookOf (headStep (playhead w))) w).
Proof.
  intros Hset Hnf. rewrite (forward_advance clicks w Hset). destruct Hset as [Hs Ht].
  unfold advance, playhead, headStep, atFinalPart, isDeadEnd in *.
  change (track (frt (satisfy w))) with (track (frt w)).
  change (partIndex (frt (satisfy w))) with (partIndex (frt w)).
  cbn [fst snd] in Hnf.
  set (t := track (frt w)) in *. set (i := partIndex (frt w)) in *.
  destruct (track_eqb t model && (i =? 4)) eqn:Edead.
  { apply andb_true_iff in Edead as [Et Ei]. destruct t; try discriminate.
    apply Nat.eqb_eq in Ei. rewrite Ei. reflexivity. }
  destruct (i <? getMaxPart t) eqn:Elt.
  - apply Nat.ltb_lt in Elt.
    destruct (getPart_exists t (S i)) as [p Hp]; [lia | lia |].
    destruct (renderPart_hooked clicks (S i) (satisfy w) p Hp) as (_ & _ & _ & H4 & _).
    rewrite H4. unfold hookOf. cbn [fst snd]. rewrite Hp.
    now apply enter_app.
  - assert (Hrender : forall x t', track (frt x) = t' -> app x = app w ->
              app (renderPart clicks 1 x) = app (enter (hookOf (t', 1)) w)).
    { intros x t' Hx Ha.
      destruct (first_part_plain t') as (p & Hp & He & _).
      rewrite <- Hx in Hp.
      destruct (renderPart_hooked clicks 1 x p Hp) as (_ & _ & _ & H4 & _).
      rewrite H4. unfold hookOf. cbn [fst snd]. rewrite <- Hx, Hp.
      now apply enter_app. }
    apply Nat.ltb_ge in Elt.
    destruct t eqn:Etr; cbn [track_eqb andb fst snd negb] in *.
    + apply Hrender; reflexivity.
    + unfold showOptional. cbn [truthy negb andb].
      assert (Hh : hookOf (model, i) = None).
      { unfold hookOf. cbn [fst snd].
        destruct i as [|[|[|[|[|i]]]]]; try (cbv in Elt; lia); try reflexivity.
        - discriminate Edead.
        - clear. unfold getPart. cbn. destruct i; reflexivity. }
      rewrite Hh. reflexivity.
    + apply Hrender; reflexivity.
    + apply Hrender; reflexivity.
    + apply Nat.leb_le in Elt. rewrite Elt in Hnf. discriminate Hnf.
Qed.

Lemma afterSwap_step h :
  afterSwap h = true -> atFinalPart h = false ->
  afterSwap (headStep h) = true /\ keepsPrompt (hookOf (headStep h)) = true.
Proof.
  destruct h as [t i]. intros Ha Hf.
  destruct t; try discriminate Ha;
    do 13 (destruct i as [|i]; [try discriminate Ha; try discriminate Hf;
                                split; vm_compute; reflexivity|]);
    discriminate Ha.
Qed.

Lemma forward_keeps_prompt clicks n : forall w,
  settled w -> afterSwap (playhead w) = true -> noFinalBefore n (playhead w) = true ->
  let w' := Nat.iter n (forward clicks) w in
  settled w'
  /\ playhead w' = Nat.iter n headStep (playhead w)
  /\ afterSwap (playhead w') = true
  /\ tutorialSystemPromptText (app w') = tutorialSystemPromptText (app w)
  /\ tutorialSystemPromptId (app w') = tutorialSystemPromptId (app w)
  /\ session w' = session w.
Proof.
  induction n as [|n IH]; intros w Hw Ha Hnf; cbv zeta; [simpl; repeat split; auto; apply Hw|].
  unfold noFinalBefore in Hnf. rewrite seq_S, forallb_app in Hnf.
  apply andb_true_iff in Hnf as [Hnf Hlast]. cbn [forallb Nat.add] in Hlast.
  rewrite andb_true_r in Hlast. apply negb_true_iff in Hlast.
  destruct (IH w Hw Ha Hnf) as (I1 & I2 & I3 & I4 & I5 & I6).
  rewrite !Nat.iter_succ.
  set (x := Nat.iter n (forward clicks) w) in *.
  rewrite <- I2 in Hlast.
  destruct (forward_sim clicks x I1) as (F1 & F2 & _ & F4).
  destruct (F4 Hlast) as [_ F5].
  destruct (afterSwap_step _ I3 Hlast) as [A1 A2].
  pose proof (forward_app clicks x I1 Hlast) as Happ.
  destruct (enter_keeps _ x A2) as [K1 K2].
  rewrite F2, Happ, K1, K2, F5, I4, I5, I6, <- I2.
  repeat split; try assumption; apply F1.
Qed.

Lemma commitPayload_prompt w payload :
  Commit.commitPayload w = Some payload ->
  Commit.system_prompt payload = Commit.stagedPrompt w.
Proof.
  unfold Commit.commitPayload.
  destruct (Commit.parseStaged (rpg_tier_a (session w))); [|discriminate].
  destruct (Commit.parseStaged (tutorial_tier_b (session w))); [|discriminate].
  destruct (Commit.parseStaged (tutorial_defaults (session w))); [|discriminate].
  intros H. injection H as <-. reflexivity.
Qed.

Lemma part8 :
  exists p, getPart FRT.system_prompt 8 = Some p
            /\ onEnter p = Some SWAP_PROMPT_DEFAULT /\ requires p = None.
Proof. vm_compute. eexists. split; [reflexivity | split; reflexivity]. Qed.

(** X13: from part 9 of the system-prompt track, Back re-enters part 8,
    whose hook swaps the tutorial's prompt for the default one.  No part
    entered by going forward restores a prompt saved before: when the user
    goes on to the final review, thirteen parts on, without saving a prompt
    from the questionnaire again, the payload of the commit carries the
    default prompt while the session still holds what it held. *)
Theorem stepping_back_to_the_swap_drops_the_custom_prompt clicks w :
  settled w -> playhead w = (FRT.system_prompt, 9) ->
  let back := btnBack_click clicks w in
  let review := Nat.iter 13 (forward clicks) back in
  (playhead back = (FRT.system_prompt, 8)
   /\ tutorialSystemPromptText (app back) = TUTORIAL_PROMPT_DEFAULT
   /\ tutorialSystemPromptId (app back) = "default"
   /\ session back = session w)
  /\ (forall n, n <= 13 ->
        tutorialSystemPromptText (app (Nat.iter n (forward clicks) back))
        = TUTORIAL_PROMPT_DEFAULT)
  /\ playhead review = (memory, 5)
  /\ session review = session w
  /\ Commit.stagedPrompt review = TUTORIAL_PROMPT_DEFAULT
  /\ (forall payload, Commit.commitPayload review = Some payload ->
        Commit.system_prompt payload = TUTORIAL_PROMPT_DEFAULT).
Proof.
  intros [Hs Ht] Hp. cbv zeta.
  pose proof Hp as Hp'. unfold playhead in Hp'. apply pair_equal_spec in Hp' as [Htr Hi].
  assert (Eb : btnBack_click clicks w = renderPart clicks 8 w).
  { unfold btnBack_click. rewrite Ht, Hi. cbn [Nat.ltb Nat.leb Nat.sub]. reflexivity. }
  rewrite Eb.
  destruct part8 as (p & Hg & He & Hr). rewrite <- Htr in Hg.
  destruct (renderPart_spec clicks 8 w p Hg) as (S1 & S2 & S3 & S4 & _ & _ & _ & S8 & _).
  destruct (renderPart_hooked clicks 8 w p Hg) as (_ & _ & _ & P4 & _).
  rewrite He in P4. cbn [enter handleNarratorHook upd_app set_app app] in P4.
  set (back := renderPart clicks 8 w) in *.
  assert (Hb : settled back) by (split; [rewrite S1; exact Hs | exact S4]).
  assert (Hh : playhead back = (FRT.system_prompt, 8)).
  { unfold playhead. rewrite S2, S3, Htr. reflexivity. }
  assert (Ht8 : tutorialSystemPromptText (app back) = TUTORIAL_PROMPT_DEFAULT)
    by (rewrite P4; reflexivity).
  assert (Hid : tutorialSystemPromptId (app back) = "default")
    by (rewrite P4; reflexivity).
  clearbody back. clear Eb P4 S1 S2 S3 S4 Hg.
  assert (Hk : forall n, n <= 13 ->
             let x := Nat.iter n (forward clicks) back in
             playhead x = Nat.iter n headStep (FRT.system_prompt, 8)
             /\ tutorialSystemPromptText (app x) = TUTORIAL_PROMPT_DEFAULT
             /\ session x = session w).
  { intros n Hn. cbv zeta.
    destruct (forward_keeps_prompt clicks n back Hb) as (_ & K2 & _ & K4 & _ & K6).
    - rewrite Hh. vm_compute. reflexivity.
    - rewrite Hh. clear -Hn.
      do 14 (destruct n as [|n]; [vm_compute; reflexivity|]). lia.
    - rewrite K2, K4, K6, Hh, Ht8, S8. repeat split. }
  split; [|split; [|split; [|split; [|split]]]].
  - exact (conj Hh (conj Ht8 (conj Hid S8))).
  - intros n Hn. apply (Hk n Hn).
  - destruct (Hk 13 (le_n _)) as (K1 & _). rewrite K1. vm_compute. reflexivity.
  - apply (Hk 13 (le_n _)).
  - destruct (Hk 13 (le_n _)) as (_ & K2 & _).
    unfold Commit.stagedPrompt, orItem. rewrite K2. reflexivity.
  - destruct (Hk 13 (le_n _)) as (_ & K2 & _).
    intros payload Hpl. rewrite (commitPayload_prompt _ _ Hpl).
    unfold Commit.stagedPrompt, orItem. rewrite K2. reflexivity.
Qed.

Lemma saveSystemPrompt_resumes_witness :
  playhead resumed = (FRT.system_prompt, 11)
  /\ userPreferredName resumed = "Rishi"
  /\ Commit.stagedPrompt resumed = RPG.generateSystemPrompt rishi.
Proof.
  pose proof (saveSystemPrompt_resumes Start.quiet (RPG.generateSystemPrompt rishi)
                answered) as H.
  cbv zeta in H.
  destruct H as ((H1 & _) & (H2 & _) & (_ & _ & H3 & _) & _).
  - vm_compute; reflexivity.
  - vm_compute; reflexivity.
  - exact (conj H1 (conj H2 H3)).
Defined.

Lemma stepping_back_to_the_swap_drops_the_custom_prompt_witness :
  let part9 := Nat.iter 2 (btnBack_click Start.quiet) resumed in
  tutorialSystemPromptText (app resumed) = RPG.generateSystemPrompt rishi
  /\ tutorialSystemPromptText (app (btnBack_click Start.quiet part9))
     = TUTORIAL_PROMPT_DEFAULT
  /\ Commit.stagedPrompt
       (Nat.iter 13 (forward Start.quiet) (btnBack_click Start.quiet part9))
     = TUTORIAL_PROMPT_DEFAULT.
Proof.
  pose proof (stepping_back_to_the_swap_drops_the_custom_prompt Start.quiet
                (Nat.iter 2 (btnBack_click Start.quiet) resumed)) as H.
  cbv zeta in H.
  destruct H as ((_ & H2 & _) & _ & _ & _ & H5 & _).
  - split; vm_compute; reflexivity.
  - vm_compute; reflexivity.
  - cbv zeta. split; [vm_compute; reflexivity | exact (conj H2 H5)].
Defined.

End Resuming.

(** ** The questionnaire *)

Section Questions.
Import FRT RPG Questionnaire.

Lemma includes_app x l l' : includes x (l ++ l')%list = includes x l || includes x l'.
Proof. apply existsb_app. Qed.

Lemma includes_filter x y l :
  includes x (filter (fun c => negb (String.eqb c y)) l)
  = includes x l && negb (String.eqb x y).
Proof. exact (contains_removeClass x y l). Qed.

Lemma includes_In x l : includes x l = true <-> In x l.
Proof.
  unfold includes. rewrite existsb_exists. split.
  - intros (y & Hy & E). apply String.eqb_eq in E. now subst.
  - intros H. exists x. split; [exact H | apply String.eqb_refl].
Qed.

Lemma NoDup_snoc (x : string) l : NoDup l -> includes x l = false -> NoDup (l ++ [x])%list.
Proof.
  intros H E. apply NoDup_app; [exact H | constructor; [intros [] | constructor] |].
  intros y Hy [<-|[]]. apply includes_In in Hy. rewrite Hy in E. discriminate.
Qed.

Lemma filter_length_le {A} (f : A -> bool) l : List.length (filter f l) <= List.length l.
Proof. induction l as [|x l IH]; simpl; [lia|]. destruct (f x); simpl; lia. Qed.

Lemma length_zero_iff (l : list string) : (List.length l =? 0) = match l with [] => true | _ => false end.
Proof. now destruct l. Qed.

Tactic Notation "wiz_cbn" :=
  cbn [controls withControls updateControl nth_error checked negb value selected
       capabilities answers maxChoices withAnswers withCapabilities map choices
       currentIndex backDisabled nextDisabled hidden reviewHidden qtype id optional
       updateNavigation withNavigation isValid question shownBoxes earlierValid
       firstn forallb RPG_QUESTIONS Nat.eqb name domain style identity custom
       answerText String.eqb Ascii.eqb Bool.eqb andb orb
       setAnswer withIdentity withPreferredName withLocation withTimezone withLanguage
       withEditor goTo hide hideReview showReview withScreens
       preferred_name location timezone language_preferences
       onInput onRadioChange onLocationInput onTimezoneChange onLanguageChange
       renderIdentity RPG.render renderMultiChoice Questionnaire.render
       editorValue charCount].

Tactic Notation "wiz_cbn" "in" hyp(H) :=
  cbn [controls withControls updateControl nth_error checked negb value selected
       capabilities answers maxChoices withAnswers withCapabilities map choices
       currentIndex backDisabled nextDisabled hidden reviewHidden qtype id optional
       updateNavigation withNavigation isValid question shownBoxes earlierValid
       firstn forallb RPG_QUESTIONS Nat.eqb name domain style identity custom
       answerText String.eqb Ascii.eqb Bool.eqb andb orb
       setAnswer withIdentity withPreferredName withLocation withTimezone withLanguage
       withEditor goTo hide hideReview showReview withScreens
       preferred_name location timezone language_preferences
       onInput onRadioChange onLocationInput onTimezoneChange onLanguageChange
       renderIdentity RPG.render renderMultiChoice Questionnaire.render
       editorValue charCount] in H.

Tactic Notation "nav_cbn" :=
  cbn [controls withControls updateControl nth_error checked negb value selected
       capabilities answers maxChoices withAnswers withCapabilities map choices
       currentIndex backDisabled nextDisabled hidden reviewHidden qtype id optional
       updateNavigation withNavigation isValid question shownBoxes earlierValid
       firstn forallb RPG_QUESTIONS Nat.eqb name domain style identity custom
       answerText String.eqb Ascii.eqb Bool.eqb andb orb
       setAnswer withIdentity withPreferredName withLocation withTimezone withLanguage
       withEditor goTo hide hideReview showReview withScreens
       preferred_name location timezone language_preferences
       onInput onRadioChange onLocationInput onTimezoneChange onLanguageChange
       renderIdentity RPG.render renderMultiChoice Questionnaire.render
       editorValue charCount truthy detectTimezone
       goBack onStartOver RPG.show Nat.ltb Nat.leb Nat.sub List.length].

Tactic Notation "nav_cbn" "in" hyp(H) :=
  cbn [controls withControls updateControl nth_error checked negb value selected
       capabilities answers maxChoices withAnswers withCapabilities map choices
       currentIndex backDisabled nextDisabled hidden reviewHidden qtype id optional
       updateNavigation withNavigation isValid question shownBoxes earlierValid
       firstn forallb RPG_QUESTIONS Nat.eqb name domain style identity custom
       answerText String.eqb Ascii.eqb Bool.eqb andb orb
       setAnswer withIdentity withPreferredName withLocation withTimezone withLanguage
       withEditor goTo hide hideReview showReview withScreens
       preferred_name location timezone language_preferences
       onInput onRadioChange onLocationInput onTimezoneChange onLanguageChange
       renderIdentity RPG.render renderMultiChoice Questionnaire.render
       editorValue charCount truthy detectTimezone
       goBack onStartOver RPG.show Nat.ltb Nat.leb Nat.sub List.length] in H.

Lemma clickChoice_consistent q i z :
  question 3 = Some q -> currentIndex z = 3 -> Consistent z ->
  Consistent (clickChoice q i z).
Proof.
  intros Hq Hi Hc. cbv in Hq. injection Hq as <-.
  destruct z as [idx a cs bd nd hd rh ev cc sd st]. simpl in Hi. subst idx.
  destruct a as [nm dm sty caps ident cust].
  destruct Hc as ((Hb & Hn & Hcs) & (A1 & A2 & A3 & A4 & A5 & A6) & He & Hr).
  unfold earlierValid in He.
  wiz_cbn in Hb. wiz_cbn in Hn. wiz_cbn in Hcs. wiz_cbn in He. wiz_cbn in Hr.
  cbn [capabilities name domain style identity] in A1, A2, A3, A4, A5, A6.
  subst bd nd cs.
  destruct i as [|[|[|[|[|[|i]]]]]]; unfold clickChoice, onChange, Consistent; wiz_cbn.
  7: { destruct i; wiz_cbn; repeat split; auto; apply Hr; assumption. }
  all: match goal with
       | |- context [if negb (includes ?c ?l) then _ else _] =>
           destruct (includes c l) eqn:Einc
       end; wiz_cbn;
       [ | match goal with
           | |- context [3 <=? ?n] => destruct (3 <=? n) eqn:Elen
           end ]; wiz_cbn.
  all: unfold AnswersOk; wiz_cbn;
       rewrite ?includes_filter, ?includes_app;
       cbn [includes existsb String.eqb Ascii.eqb Bool.eqb negb andb orb];
       rewrite ?Einc, ?andb_true_r, ?orb_false_r, ?andb_false_r;
       cbn [negb andb orb].
  all: repeat match goal with |- _ /\ _ => split end; try reflexivity; try assumption.
  all: try (apply NoDup_filter; assumption).
  all: try (apply NoDup_snoc; assumption).
  all: try (intros x Hx; apply filter_In in Hx as [Hx _]; now apply A2).
  all: try (pose proof (filter_length_le
                          (fun c => negb (String.eqb c "Writing & Brainstorming")) caps);
            pose proof (filter_length_le
                          (fun c => negb (String.eqb c "Coding & Technical Problems")) caps);
            pose proof (filter_length_le
                          (fun c => negb (String.eqb c "Research & Learning")) caps);
            pose proof (filter_length_le
                          (fun c => negb (String.eqb c "Personal Productivity")) caps);
            pose proof (filter_length_le
                          (fun c => negb (String.eqb c "Creative Projects")) caps);
            pose proof (filter_length_le
                          (fun c => negb (String.eqb c "General Conversation")) caps);
            lia).
  all: try (apply incl_app; [assumption | intros x [<-|[]]; cbv; tauto]).
  all: try (rewrite length_app; apply Nat.leb_gt in Elen; simpl; lia).
  all: try (rewrite ?andb_true_r in He; exact He).
  all: try (etransitivity; [apply filter_length_le | exact A3]).
Qed.

Ltac open_wizard z Hc :=
  let idx := fresh "idx" in
  destruct z as [idx a cs bd nd hd rh ev cc sd st];
  destruct a as [nm dm sty caps ident cust]; destruct ident as [pn loc tzv lang];
  destruct Hc as (Hq & (A1 & A2 & A3 & A4 & A5 & A6) & He & Hr);
  unfold earlierValid in He;
  cbn [answers capabilities name domain style identity preferred_name] in A1, A2, A3, A4, A5, A6;
  destruct idx as [|[|[|[|[|[|idx]]]]]]; [ | | | | | | destruct idx; now (cbv in Hq) ];
  wiz_cbn in Hq; destruct Hq as (Hb & Hn & Hcs); wiz_cbn in He; wiz_cbn in Hr.

Ltac bools :=
  rewrite ?andb_true_r in *;
  repeat match goal with
         | H : _ && _ = true |- _ => apply andb_true_iff in H as [? ?]
         end;
  repeat (apply andb_true_iff; split); solve [assumption | reflexivity].

Ltac close_wizard :=
  unfold Consistent, AnswersOk, earlierValid; nav_cbn;
  repeat match goal with |- _ /\ _ => split end;
  try reflexivity; try assumption;
  try (intros _; split; reflexivity);
  try (let Hx := fresh in
       intros Hx;
       match goal with
       | Hr : _ = false -> _ = true /\ _ |- _ =>
           exfalso; apply Hr in Hx as [Hx _]; discriminate Hx
       end);
  try bools.

Lemma onQuestion_consistent (f : Question -> Wizard -> Wizard) z :
  Consistent z -> hidden z = false ->
  (forall q, question (currentIndex z) = Some q ->
             Consistent (f q z) /\ reviewHidden (f q z) = reviewHidden z) ->
  match question (currentIndex z) with
  | Some q => Consistent (f q z) /\ reviewHidden (f q z) = true
  | None => False
  end.
Proof.
  intros Hc Hh Hf. pose proof Hc as (Hq & _ & _ & Hr).
  destruct (question (currentIndex z)) as [q|]; [|exact Hq].
  destruct (Hf q eq_refl) as [H1 H2]. split; [exact H1|]. rewrite H2.
  destruct (reviewHidden z); [reflexivity|].
  destruct (Hr eq_refl) as [Hx _]. rewrite Hx in Hh. discriminate.
Qed.

Lemma onInput_consistent q v z :
  question (currentIndex z) = Some q -> qtype q = q_text ->
  Consistent z -> Consistent (onInput q v z) /\ reviewHidden (onInput q v z) = reviewHidden z.
Proof.
  intros Hq0 Ht Hc. open_wizard z Hc; cbv in Hq0; injection Hq0 as <-; try discriminate Ht.
  all: close_wizard.
Qed.

Lemma onRadioChange_consistent q i choice z :
  question (currentIndex z) = Some q -> qtype q = q_single ->
  nth_error (choices q) i = Some choice ->
  Consistent z ->
  Consistent (onRadioChange q choice z)
  /\ reviewHidden (onRadioChange q choice z) = reviewHidden z.
Proof.
  intros Hq0 Ht Hch Hc. apply nth_error_In in Hch.
  open_wizard z Hc; cbv in Hq0; injection Hq0 as <-; try discriminate Ht.
  all: cbn [choices] in Hch.
  all: close_wizard.
  all: try (right; exact Hch).
Qed.

Lemma identity_consistent q z :
  question (currentIndex z) = Some q -> qtype q = q_identity -> Consistent z ->
  (forall v, Consistent (onLocationInput v z)
             /\ reviewHidden (onLocationInput v z) = reviewHidden z)
  /\ (forall v, Consistent (onTimezoneChange v z)
                /\ reviewHidden (onTimezoneChange v z) = reviewHidden z)
  /\ (forall v, Consistent (onLanguageChange v z)
                /\ reviewHidden (onLanguageChange v z) = reviewHidden z).
Proof.
  intros Hq0 Ht Hc.
  open_wizard z Hc; cbv in Hq0; injection Hq0 as <-; try discriminate Ht.
  all: (split; [|split]); intros v; close_wizard.
Qed.

Lemma render_consistent tz z :
  Drawable z ->
  Consistent (Questionnaire.render tz z)
  /\ reviewHidden (Questionnaire.render tz z) = reviewHidden z
  /\ hidden (Questionnaire.render tz z) = hidden z
  /\ currentIndex (Questionnaire.render tz z) = currentIndex z
  /\ capabilities (answers (Questionnaire.render tz z)) = capabilities (answers z)
  /\ name (answers (Questionnaire.render tz z)) = name (answers z)
  /\ domain (answers (Questionnaire.render tz z)) = domain (answers z)
  /\ style (answers (Questionnaire.render tz z)) = style (answers z)
  /\ custom (answers (Questionnaire.render tz z)) = custom (answers z).
Proof.
  intros (Hi & (A1 & A2 & A3 & A4 & A5 & A6) & He & Hr).
  destruct z as [idx a cs bd nd hd rh ev cc sd st].
  destruct a as [nm dm sty caps ident cust]; destruct ident as [pn loc tzv lang].
  unfold earlierValid in He.
  cbn [answers capabilities name domain style identity preferred_name] in A1, A2, A3, A4, A5, A6.
  cbn [currentIndex] in Hi.
  destruct idx as [|[|[|[|[|[|idx]]]]]]; [ | | | | | | cbv in Hi; lia ];
    wiz_cbn in He; wiz_cbn in Hr.
  all: try (close_wizard; fail).
  destruct tzv; close_wizard.
Qed.

Ltac review_closed Hr Hh :=
  try (intros Hx; apply Hr in Hx as [Hx _]; rewrite Hx in Hh; discriminate).

Lemma goBack_consistent tz z :
  Consistent z -> hidden z = false ->
  Consistent (goBack tz z) /\ reviewHidden (goBack tz z) = reviewHidden z.
Proof.
  intros Hc Hh. open_wizard z Hc; cbn [hidden] in Hh; subst hd.
  all: try destruct tzv; close_wizard.
Qed.

Ltac world_cbn :=
  cbn [wizard session upd_wizard set_wizard set_session set_rpg_system_prompt
       rpg_system_prompt submit goNext step onQuestion launch handleNarratorHook].

Lemma negb_false_true b : false = negb b -> b = true.
Proof. now destruct b. Qed.

Lemma goNext_invariant tz w :
  WInv w -> hidden (wizard w) = false -> nextDisabled (wizard w) = false ->
  WInv (goNext tz w).
Proof.
  intros [Hc Hs] Hh Hn0. destruct w as [n ap d z f se u]. cbn [wizard session] in *.
  open_wizard z Hc; cbn [hidden nextDisabled] in Hh, Hn0; subst hd;
    rewrite Hn0 in Hn; try apply negb_false_true in Hn; nav_cbn in Hn; subst nd;
    unfold WInv, goNext; world_cbn; nav_cbn; world_cbn.
  all: split; [try destruct tzv; close_wizard | ].
  all: try destruct tzv; nav_cbn;
       try first [ intros _; reflexivity
             | intros Hx; exfalso; apply Hr in Hx as [Hx _]; discriminate Hx ].
Qed.

Lemma review_invariant tz w :
  WInv w -> reviewHidden (wizard w) = false ->
  (forall v, WInv (upd_wizard (withEditor v) w))
  /\ (forall useDefault, WInv (upd_wizard (onStartOver tz useDefault) w)).
Proof.
  intros [Hc Hs] Hrh. destruct w as [n ap d z f se u]. cbn [wizard session] in *.
  open_wizard z Hc; cbn [reviewHidden] in Hrh; subst rh;
    destruct (Hr eq_refl) as [Hh Hi]; try discriminate Hi; subst hd.
  cbn [answers reviewHidden] in Hs. specialize (Hs eq_refl).
  split; [intros v | intros [|]]; unfold WInv; world_cbn; nav_cbn.
  all: split; [close_wizard | ].
  all: try (intros _; exact Hs).
  all: try (intros Hx; discriminate Hx).
Qed.

Lemma multi_is_fourth i q : question i = Some q -> qtype q = q_multi -> i = 3.
Proof.
  intros Hq Ht.
  destruct i as [|[|[|[|[|[|i]]]]]]; try reflexivity;
    try (cbv in Hq; injection Hq as <-; discriminate Ht).
  destruct i; discriminate Hq.
Qed.

Lemma clickChoice_screens q i z :
  reviewHidden (clickChoice q i z) = reviewHidden z
  /\ hidden (clickChoice q i z) = hidden z.
Proof.
  unfold clickChoice, onChange.
  destruct (nth_error _ i) as [ctl|]; [|split; reflexivity].
  destruct (checked ctl); [destruct (_ <=? _)|]; unfold updateNavigation;
    cbn [currentIndex withControls withAnswers];
    destruct (nth_error RPG_QUESTIONS (currentIndex z)); split; reflexivity.
Qed.

Lemma upd_wizard_invariant (f : Wizard -> Wizard) w :
  WInv w -> hidden (wizard w) = false ->
  Consistent (f (wizard w)) -> reviewHidden (f (wizard w)) = reviewHidden (wizard w) ->
  WInv (upd_wizard f w).
Proof.
  intros [Hc Hs] Hh Hf Hr. split; [exact Hf|].
  cbn [wizard upd_wizard set_wizard]. rewrite Hr. intros Hx.
  destruct Hc as (_ & _ & _ & Hrev). apply Hrev in Hx as [Hx _].
  rewrite Hx in Hh. discriminate.
Qed.

Lemma onQuestion_invariant (f : Question -> Wizard -> Wizard) w :
  WInv w ->
  (forall q z, question (currentIndex z) = Some q -> Consistent z ->
               Consistent (f q z) /\ reviewHidden (f q z) = reviewHidden z) ->
  WInv (onQuestion f w).
Proof.
  intros Hw Hf. unfold onQuestion.
  destruct (hidden (wizard w)) eqn:Hh; [exact Hw|].
  destruct (nth_error RPG_QUESTIONS (currentIndex (wizard w))) as [q|] eqn:Hq; [|exact Hw].
  destruct (Hf q (wizard w) Hq (proj1 Hw)) as [H1 H2].
  now apply upd_wizard_invariant.
Qed.

Lemma step_invariant tz e w : WInv w -> WInv (step tz e w).
Proof.
  intros Hw. destruct e; cbn [step].
  - apply onQuestion_invariant; [exact Hw|]. intros q z Hq Hc.
    destruct (qtype q) eqn:Ht; try (split; [assumption | reflexivity]).
    now apply onInput_consistent.
  - apply onQuestion_invariant; [exact Hw|]. intros q z Hq Hc.
    destruct (qtype q) eqn:Ht; try (split; [assumption | reflexivity]).
    destruct (nth_error (choices q) i) as [ch|] eqn:Hch; [|split; [assumption | reflexivity]].
    now apply (onRadioChange_consistent q i).
  - apply onQuestion_invariant; [exact Hw|]. intros q z Hq Hc.
    destruct (qtype q) eqn:Ht; try (split; [assumption | reflexivity]).
    pose proof (multi_is_fourth _ _ Hq Ht) as Hi.
    split; [|apply clickChoice_screens].
    apply clickChoice_consistent; [now rewrite <- Hi | exact Hi | exact Hc].
  - apply onQuestion_invariant; [exact Hw|]. intros q z Hq Hc.
    destruct (qtype q) eqn:Ht; try (split; [assumption | reflexivity]).
    now apply (identity_consistent q z Hq Ht Hc).
  - apply onQuestion_invariant; [exact Hw|]. intros q z Hq Hc.
    destruct (qtype q) eqn:Ht; try (split; [assumption | reflexivity]).
    destruct (nth_error timezoneOptions i) as [v|]; [|split; [assumption | reflexivity]].
    now apply (identity_consistent q z Hq Ht Hc).
  - apply onQuestion_invariant; [exact Hw|]. intros q z Hq Hc.
    destruct (qtype q) eqn:Ht; try (split; [assumption | reflexivity]).
    destruct (nth_error languageOptions i) as [v|]; [|split; [assumption | reflexivity]].
    now apply (identity_consistent q z Hq Ht Hc).
  - destruct (hidden (wizard w)) eqn:Hh; [exact Hw|].
    destruct (backDisabled (wizard w)); [exact Hw|]. cbn [orb].
    destruct (goBack_consistent tz (wizard w) (proj1 Hw) Hh) as [H1 H2].
    now apply upd_wizard_invariant.
  - destruct (hidden (wizard w)) eqn:Hh; [exact Hw|].
    destruct (nextDisabled (wizard w)) eqn:Hn; [exact Hw|]. cbn [orb].
    now apply goNext_invariant.
  - destruct (hidden (wizard w)) eqn:Hh; [exact Hw|].
    destruct (nextDisabled (wizard w)) eqn:Hn; [exact Hw|]. cbn [negb andb].
    now apply goNext_invariant.
  - destruct (reviewHidden (wizard w)) eqn:Hr; [exact Hw|].
    now apply (review_invariant tz w Hw Hr).
  - destruct (reviewHidden (wizard w)) eqn:Hr; [exact Hw|].
    now apply (review_invariant tz w Hw Hr).
Qed.

Lemma run_invariant tz events : forall w, WInv w -> WInv (run tz events w).
Proof.
  unfold run. induction events as [|e r IH]; intros w Hw; cbn [fold_left]; [exact Hw|].
  apply IH. now apply step_invariant.
Qed.

Lemma launch_invariant w :
  AnswersOk (answers (wizard w)) -> reviewHidden (wizard w) = true -> WInv (launch w).
Proof.
  intros HA Hr. destruct w as [n ap d z f se u]. cbn [wizard] in *.
  destruct z as [idx a cs bd nd hd rh ev cc sd st]. cbn [reviewHidden answers] in *. subst rh.
  unfold WInv, launch. cbn [handleNarratorHook upd_wizard set_wizard wizard session].
  split; [|intros Hx; discriminate Hx].
  unfold Consistent, earlierValid. nav_cbn. repeat split; try assumption; try apply HA.
  all: congruence.
Qed.

Lemma truthy_In_choice (v : string) (l : list string) :
  truthy v = true -> v = "" \/ In v l -> In v l.
Proof. intros Ht [->|H]; [discriminate Ht | exact H]. Qed.

Lemma review_complete w :
  WInv w -> reviewHidden (wizard w) = false ->
  Complete (answers (wizard w))
  /\ hidden (wizard w) = true
  /\ currentIndex (wizard w) = 5
  /\ rpg_system_prompt (session w) = Some (generateSystemPrompt (answers (wizard w))).
Proof.
  intros [Hc Hs] Hrh. specialize (Hs Hrh).
  destruct w as [n ap d z f se u]. cbn [wizard session] in *.
  open_wizard z Hc; cbn [reviewHidden] in Hrh; subst rh;
    destruct (Hr eq_refl) as [Hh Hi]; try discriminate Hi; subst hd.
  cbn [answers] in *.
  rewrite ?andb_true_r in He.
  apply andb_true_iff in He as [E1 He]. apply andb_true_iff in He as [E2 He].
  apply andb_true_iff in He as [E3 E4].
  unfold Complete. cbn [name domain style capabilities identity preferred_name].
  repeat split; try assumption.
  - now apply truthy_In_choice.
  - now apply truthy_In_choice.
  - destruct caps; [discriminate E4 | simpl; lia].
Qed.

Lemma consistent_after_run tz events w :
  AnswersOk (answers (wizard w)) -> reviewHidden (wizard w) = true ->
  Consistent (wizard (run tz events (launch w))).
Proof.
  intros HA Hr. apply run_invariant. now apply launch_invariant.
Qed.

Lemma review_after_run tz events w :
  AnswersOk (answers (wizard w)) -> reviewHidden (wizard w) = true ->
  let w' := run tz events (launch w) in
  reviewHidden (wizard w') = false ->
  Complete (answers (wizard w'))
  /\ hidden (wizard w') = true
  /\ rpg_system_prompt (session w')
     = Some (generateSystemPrompt (answers (wizard w'))).
Proof.
  intros HA Hr w' Hv.
  destruct (review_complete w') as (H1 & H2 & _ & H4); [|exact Hv|auto].
  apply run_invariant. now apply launch_invariant.
Qed.



(** The generated prompt begins by naming the user. *)




(** X19: "Start over" on the review screen.  Taking the default prompt
    fills the editor with it and touches neither answers nor session;
    declining goes back to the last question with its answers kept and
    Next enabled, and Next from there shows the review again with the
    prompt generated anew, any edit of the editor lost. *)
Theorem start_over_round_trip tz events w :
  AnswersOk (answers (wizard w)) -> reviewHidden (wizard w) = true ->
  let w1 := run tz events (launch w) in
  reviewHidden (wizard w1) = false ->
  let a := answers (wizard w1) in
  let useDefault := step tz (startOver true) w1 in
  let goBackToQuestions := step tz (startOver false) w1 in
  let again := step tz clickNext goBackToQuestions in
  (editorValue (wizard useDefault) = DEFAULT_PROMPT
   /\ charCount (wizard useDefault) = String.length DEFAULT_PROMPT
   /\ reviewHidden (wizard useDefault) = false
   /\ answers (wizard useDefault) = a
   /\ session useDefault = session w1)
  /\ (reviewHidden (wizard goBackToQuestions) = true
      /\ hidden (wizard goBackToQuestions) = false
      /\ currentIndex (wizard goBackToQuestions) = 5
      /\ nextDisabled (wizard goBackToQuestions) = false
      /\ answers (wizard goBackToQuestions) = a)
  /\ (reviewHidden (wizard again) = false
      /\ hidden (wizard again) = true
      /\ editorValue (wizard again) = generateSystemPrompt a
      /\ charCount (wizard again) = String.length (generateSystemPrompt a)
      /\ answers (wizard again) = a).
Proof.
  intros HA Hr w1 Hv a.
  assert (Hw : WInv w1) by (apply run_invariant; now apply launch_invariant).
  destruct (review_complete w1 Hw Hv) as (_ & Hh & Hi & _).
  subst a. clearbody w1. clear HA Hr w events.
  destruct w1 as [n ap d z f se u]. cbn [wizard] in *.
  destruct z as [idx a cs bd nd hd rh ev cc sd st].
  cbn [reviewHidden hidden currentIndex] in Hv, Hh, Hi. subst rh hd idx.
  cbv zeta. cbn [step wizard reviewHidden upd_wizard set_wizard].
  unfold onStartOver. cbn [List.length RPG_QUESTIONS Nat.sub].
  nav_cbn. cbn [step wizard hidden nextDisabled orb goNext Nat.ltb Nat.leb currentIndex
                List.length RPG_QUESTIONS Nat.sub submit upd_wizard set_wizard
                set_session session].
  nav_cbn.
  repeat split.
Qed.

(** *** The loading screen: a patient user sees what [run] says *)

Lemma submit_halves w :
  submit w = submitTimer (snd (submitNow w)) (fst (submitNow w)).
Proof. unfold submit, submitTimer, submitNow. cbn [fst snd]. reflexivity. Qed.

Lemma step_clickNext tz w :
  step tz clickNext w
  = if hidden (wizard w) || nextDisabled (wizard w) then w else goNext tz w.
Proof. reflexivity. Qed.

Lemma step_pressEnter tz w :
  step tz pressEnter w
  = if negb (hidden (wizard w)) && negb (nextDisabled (wizard w)) then goNext tz w else w.
Proof. reflexivity. Qed.

Lemma goNextNow_then_timer tz w :
  onTick tz timerFires (goNextNow tz (w, [])) = (goNext tz w, []).
Proof.
  unfold goNextNow, goNext.
  destruct (currentIndex (wizard w) <? List.length RPG_QUESTIONS - 1); [reflexivity|].
  unfold submitNow, submit. cbn [onTick app]. unfold submitTimer. reflexivity.
Qed.

Lemma patient_tick tz e w :
  onTick tz timerFires (onTick tz (user e) (w, [])) = (step tz e w, []).
Proof.
  destruct e;
    [reflexivity | reflexivity | reflexivity | reflexivity | reflexivity | reflexivity
    | reflexivity | | | reflexivity | reflexivity].
  - rewrite step_clickNext. cbn [onTick].
    destruct (hidden (wizard w) || nextDisabled (wizard w));
      [reflexivity | apply goNextNow_then_timer].
  - rewrite step_pressEnter. cbn [onTick].
    destruct (negb (hidden (wizard w)) && negb (nextDisabled (wizard w)));
      [apply goNextNow_then_timer | reflexivity].
Qed.

Lemma patiently_run tz events : forall w,
  patiently tz events (w, []) = (run tz events w, []).
Proof.
  unfold patiently, run.
  induction events as [|e r IH]; intros w; cbn [fold_left]; [reflexivity|].
  rewrite patient_tick. apply IH.
Qed.

(** X16: for a user who lets each loading screen finish before doing
    anything else, whatever is typed, picked and clicked in the
    questionnaire, the screen stays consistent with the answers: a question
    is on screen, Back is disabled exactly on the first one, Next is
    disabled exactly when the current answer is not valid, the checked
    boxes are the chosen capabilities (distinct, at most three), every
    earlier question has a valid answer, and no timer is left pending. *)
Theorem wizard_stays_consistent tz events w :
  AnswersOk (answers (wizard w)) -> reviewHidden (wizard w) = true ->
  let s := patiently tz events (launch w, []) in
  Consistent (wizard (fst s)) /\ snd s = [].
Proof.
  intros HA Hr. cbv zeta. rewrite patiently_run. cbn [fst snd].
  split; [|reflexivity].
  exact (consistent_after_run tz events w HA Hr).
Qed.

(** X17: for a user who lets each loading screen finish before doing
    anything else, the review screen is reached only with every question
    answered (a non-blank name, a domain and a style among the choices, one
    to three distinct capabilities), with the questions hidden, and with the
    prompt generated from these answers stored in the session. *)
Theorem review_needs_every_answer tz events w :
  AnswersOk (answers (wizard w)) -> reviewHidden (wizard w) = true ->
  let w' := fst (patiently tz events (launch w, [])) in
  reviewHidden (wizard w') = false ->
  Complete (answers (wizard w'))
  /\ hidden (wizard w') = true
  /\ rpg_system_prompt (session w')
     = Some (generateSystemPrompt (answers (wizard w'))).
Proof.
  intros HA Hr. cbv zeta. rewrite patiently_run. cbn [fst].
  exact (review_after_run tz events w HA Hr).
Qed.


End Questions.

(** A user who answers every question. *)

Section QuestionsAnswered.
Import FRT Run RPG Questionnaire.

Lemma wizard_stays_consistent_witness :
  Consistent (wizard (fst (patiently "EST" answering (launch Run.atLaunch, [])))).
Proof.
  apply (wizard_stays_consistent "EST" answering Run.atLaunch).
  - unfold AnswersOk; set (a := answers (wizard Run.atLaunch)); vm_compute in a; subst a; cbn [capabilities domain style name identity preferred_name List.length]; split; [constructor | split; [intros ? [] | split; [lia | split; [reflexivity | split; left; reflexivity]]]].
  - vm_compute; reflexivity.
Defined.

Lemma review_needs_every_answer_witness :
  Complete (answers (wizard (fst (patiently "EST" answering (launch Run.atLaunch, [])))))
  /\ rpg_system_prompt (session (fst (patiently "EST" answering (launch Run.atLaunch, []))))
     = Some (generateSystemPrompt
               (answers (wizard (fst (patiently "EST" answering (launch Run.atLaunch, [])))))).
Proof.
  pose proof (review_needs_every_answer "EST" answering Run.atLaunch) as H.
  cbv zeta in H.
  destruct H as (H1 & _ & H3).
  - unfold AnswersOk; set (a := answers (wizard Run.atLaunch)); vm_compute in a; subst a; cbn [capabilities domain style name identity preferred_name List.length]; split; [constructor | split; [intros ? [] | split; [lia | split; [reflexivity | split; left; reflexivity]]]].
  - vm_compute; reflexivity.
  - vm_compute; reflexivity.
  - exact (conj H1 H3).
Defined.


Lemma start_over_round_trip_witness :
  let w1 := run "EST" (answering ++ [editPrompt "Be terse."])%list (launch atLaunch) in
  editorValue (wizard (step "EST" clickNext (step "EST" (startOver false) w1)))
  = generateSystemPrompt (answers (wizard w1)).
Proof.
  pose proof (start_over_round_trip "EST" (answering ++ [editPrompt "Be terse."])%list
                atLaunch) as H.
  cbv zeta in H.
  destruct H as (_ & _ & (_ & _ & H3 & _)).
  - unfold AnswersOk; set (a := answers (wizard atLaunch)); vm_compute in a; subst a; cbn [capabilities domain style name identity preferred_name List.length]; split; [constructor | split; [intros ? [] | split; [lia | split; [reflexivity | split; left; reflexivity]]]].
  - vm_compute; reflexivity.
  - vm_compute; reflexivity.
  - exact H3.
Defined.

(** Without that patience the review can show a prompt the answers no
    longer give, and open on any question. *)
Lemma typing_while_loading_outdates_the_prompt :
  let s := onTicks "EST" typingWhileLoading (launch Run.atLaunch, []) in
  reviewHidden (wizard (fst s)) = false
  /\ custom (answers (wizard (fst s))) = "Be brief."
  /\ rpg_system_prompt (session (fst s))
     <> Some (generateSystemPrompt (answers (wizard (fst s))))
  /\ editorValue (wizard (fst s)) <> generateSystemPrompt (answers (wizard (fst s))).
Proof.
  cbv zeta. split; [vm_compute; reflexivity|]. split; [vm_compute; reflexivity|].
  split; intros H; vm_compute in H; discriminate H.
Qed.

Lemma second_timer_reopens_the_review :
  let s := onTicks "EST" enterTwice (launch Run.atLaunch, []) in
  reviewHidden (wizard (fst s)) = false
  /\ hidden (wizard (fst s)) = true
  /\ currentIndex (wizard (fst s)) = 4
  /\ snd s = [].
Proof. vm_compute. repeat split. Qed.

End QuestionsAnswered.

(** ** Helpers of the page: escaping, the event stream, the settings *)

Section Helpers.
Import Utils.

Lemma replaceGo_char c repl :
  (forall m b a, getSubstitution repl m b a = repl) ->
  forall s before,
    replaceGo (matchChar c) repl 0 before s
    = mapChars (fun x => if Ascii.eqb x c then repl else String x "") s.
Proof.
  intros Hs. induction s as [|x r IH]; intros before; [reflexivity|].
  cbn [replaceGo matchChar mapChars].
  destruct (Ascii.eqb x c).
  - now rewrite Hs, IH.
  - now rewrite IH.
Qed.

Lemma mapChars_app f a b : mapChars f (a ++ b) = mapChars f a ++ mapChars f b.
Proof.
  induction a as [|c a IH]; simpl; [reflexivity|]. now rewrite IH, append_assoc.
Qed.

Lemma escapeHtml_unfold s :
  escapeHtml s
  = mapChars (fun x => if Ascii.eqb x "'" then "&#039;" else String x "")
      (mapChars (fun x => if Ascii.eqb x dquote then "&quot;" else String x "")
         (mapChars (fun x => if Ascii.eqb x ">" then "&gt;" else String x "")
            (mapChars (fun x => if Ascii.eqb x "<" then "&lt;" else String x "")
               (mapChars (fun x => if Ascii.eqb x "&" then "&amp;" else String x "") s)))).
Proof.
  unfold escapeHtml, replaceAll.
  rewrite !replaceGo_char by reflexivity. reflexivity.
Qed.

Lemma escapeHtml_one_pass s : escapeHtml s = escapeAll s.
Proof.
  rewrite escapeHtml_unfold.
  induction s as [|c r IH]; [reflexivity|].
  cbn [mapChars escapeAll]. rewrite !mapChars_app, IH. f_equal.
  unfold escapeChar.
  destruct (Ascii.eqb c "&") eqn:E1; [reflexivity|].
  cbn [mapChars append].
  destruct (Ascii.eqb c "<") eqn:E2; [reflexivity|].
  cbn [mapChars append].
  destruct (Ascii.eqb c ">") eqn:E3; [reflexivity|].
  cbn [mapChars append].
  destruct (Ascii.eqb c dquote) eqn:E4; [reflexivity|].
  cbn [mapChars append].
  destruct (Ascii.eqb c "'") eqn:E5; reflexivity.
Qed.

Lemma hasChar_app c a b : hasChar c (a ++ b) = hasChar c a || hasChar c b.
Proof. induction a as [|x a IH]; simpl; [reflexivity|]. now rewrite IH, orb_assoc. Qed.

Lemma escapeChar_clean c x :
  In c ["<"; ">"; dquote; "'"]%char -> hasChar c (escapeChar x) = false.
Proof.
  intros Hc. unfold escapeChar.
  destruct (Ascii.eqb x "&") eqn:E1;
    [|destruct (Ascii.eqb x "<") eqn:E2;
      [|destruct (Ascii.eqb x ">") eqn:E3;
        [|destruct (Ascii.eqb x dquote) eqn:E4;
          [|destruct (Ascii.eqb x "'") eqn:E5]]]].
  1-5: destruct Hc as [<-|[<-|[<-|[<-|[]]]]]; reflexivity.
  destruct Hc as [<-|[<-|[<-|[<-|[]]]]]; cbn [hasChar]; rewrite ?E2, ?E3, ?E4, ?E5;
    reflexivity.
Qed.

Ltac classify c :=
  let E1 := fresh "E" in let E2 := fresh "E" in let E3 := fresh "E" in
  let E4 := fresh "E" in let E5 := fresh "E" in
  destruct (Ascii.eqb c "&") eqn:E1;
    [apply Ascii.eqb_eq in E1
    |destruct (Ascii.eqb c "<") eqn:E2;
      [apply Ascii.eqb_eq in E2
      |destruct (Ascii.eqb c ">") eqn:E3;
        [apply Ascii.eqb_eq in E3
        |destruct (Ascii.eqb c dquote) eqn:E4;
          [apply Ascii.eqb_eq in E4
          |destruct (Ascii.eqb c "'") eqn:E5;
            [apply Ascii.eqb_eq in E5|]]]]].

Lemma escapeAll_inj : forall s t, escapeAll s = escapeAll t -> s = t.
Proof.
  induction s as [|c r IH]; intros [|d u] H.
  - reflexivity.
  - exfalso. cbn [escapeAll] in H. unfold escapeChar in H.
    classify d; discriminate H.
  - exfalso. cbn [escapeAll] in H. unfold escapeChar in H.
    classify c; discriminate H.
  - cbn [escapeAll] in H. unfold escapeChar in H.
    classify c; classify d; subst; cbn [append] in H;
      try discriminate H;
      try (injection H as H; f_equal; now apply IH);
      try (injection H as Hc H; subst;
           first [ now rewrite Ascii.eqb_refl in *
                 | f_equal; now apply IH ]).
Qed.

(** X20: [escapeHtml] escapes each character once, however its five
    replacements are chained: the result holds no angle bracket and no
    quote, different texts stay different, and a text without special
    characters is unchanged. *)
Theorem escapeHtml_safe :
  (forall s, escapeHtml s = escapeAll s)
  /\ (forall s c, In c ["<"; ">"; dquote; "'"]%char -> hasChar c (escapeHtml s) = false)
  /\ (forall s t, escapeHtml s = escapeHtml t -> s = t)
  /\ (forall s, (forall c, In c ["&"; "<"; ">"; dquote; "'"]%char -> hasChar c s = false) ->
                escapeHtml s = s).
Proof.
  split; [exact escapeHtml_one_pass|]. split; [|split].
  - intros s c Hc. rewrite escapeHtml_one_pass.
    induction s as [|x r IH]; [reflexivity|].
    cbn [escapeAll]. now rewrite hasChar_app, escapeChar_clean, IH.
  - intros s t H. rewrite !escapeHtml_one_pass in H. now apply escapeAll_inj.
  - intros s Hs. rewrite escapeHtml_one_pass.
    induction s as [|x r IH]; [reflexivity|].
    cbn [escapeAll].
    assert (Hx : forall c, In c ["&"; "<"; ">"; dquote; "'"]%char -> Ascii.eqb x c = false).
    { intros c Hc. specialize (Hs c Hc). cbn [hasChar] in Hs.
      now apply orb_false_iff in Hs. }
    rewrite IH.
    + unfold escapeChar. rewrite !Hx by (simpl; tauto). reflexivity.
    + intros c Hc. specialize (Hs c Hc). cbn [hasChar] in Hs.
      now apply orb_false_iff in Hs.
Qed.

Lemma length_append (a b : string) :
  String.length (a ++ b) = String.length a + String.length b.
Proof. induction a as [|c a IH]; simpl; [reflexivity | now rewrite IH]. Qed.

Lemma stripPrefix_spec sep : forall s rest,
  stripPrefix sep s = Some rest -> s = sep ++ rest.
Proof.
  induction sep as [|a sep IH]; intros s rest H; simpl in H.
  - now injection H as ->.
  - destruct s as [|b s]; [discriminate|].
    destruct (Ascii.eqb_spec a b) as [->|]; [|discriminate].
    simpl. f_equal. now apply IH.
Qed.

Lemma stripPrefix_app sep : forall s rest b,
  stripPrefix sep s = Some rest -> stripPrefix sep (s ++ b) = Some (rest ++ b).
Proof.
  induction sep as [|a sep IH]; intros s rest b H; simpl in H.
  - injection H as ->. reflexivity.
  - destruct s as [|x s]; [discriminate|]. simpl.
    destruct (Ascii.eqb a x); [now apply IH | discriminate].
Qed.

Lemma stripPrefix_None_app sep : forall s b,
  stripPrefix sep s = None -> String.length sep <= String.length s ->
  stripPrefix sep (s ++ b) = None.
Proof.
  induction sep as [|a sep IH]; intros s b H L; simpl in H; [discriminate|].
  destruct s as [|x s]; [simpl in L; lia|]. simpl in *.
  destruct (Ascii.eqb a x); [apply IH; [exact H | lia] | reflexivity].
Qed.

Lemma cut_spec sep : forall s x y,
  cut sep s = Some (x, y) -> s = x ++ sep ++ y.
Proof.
  induction s as [|c r IH]; intros x y H.
  - simpl in H. destruct (stripPrefix sep "") as [rest|] eqn:E; [|discriminate].
    injection H as <- <-. simpl. now apply stripPrefix_spec.
  - cbn [cut] in H. destruct (stripPrefix sep (String c r)) as [rest|] eqn:E.
    + injection H as <- <-. cbn [append]. now apply stripPrefix_spec.
    + destruct (cut sep r) as [[x' y']|] eqn:Ec; [|discriminate].
      injection H as <- <-. simpl. f_equal. now apply IH.
Qed.

Lemma cut_app sep : forall a x y b,
  cut sep a = Some (x, y) -> cut sep (a ++ b) = Some (x, y ++ b).
Proof.
  induction a as [|c r IH]; intros x y b H.
  - simpl in H. destruct (stripPrefix sep "") as [rest|] eqn:E; [|discriminate].
    injection H as <- <-.
    pose proof (stripPrefix_app sep "" rest b E) as E'. simpl in E'.
    destruct b; simpl; simpl in E'; now rewrite E'.
  - cbn [cut] in H. destruct (stripPrefix sep (String c r)) as [rest|] eqn:E.
    + injection H as <- <-.
      pose proof (stripPrefix_app sep _ rest b E) as E'.
      cbn [append cut] in *. now rewrite E'.
    + destruct (cut sep r) as [[x' y']|] eqn:Ec; [|discriminate].
      injection H as <- <-.
      assert (L : String.length sep <= String.length (String c r)).
      { pose proof (cut_spec sep r x' y' Ec) as Es.
        apply (f_equal String.length) in Es. rewrite !length_append in Es.
        simpl. lia. }
      pose proof (stripPrefix_None_app sep _ b E L) as E'.
      cbn [append cut] in *. rewrite E'. now rewrite (IH x' y' b eq_refl).
Qed.

Lemma cut_shorter sep s x y :
  truthy sep = true -> cut sep s = Some (x, y) -> String.length y < String.length s.
Proof.
  intros Hs H. apply cut_spec in H. apply (f_equal String.length) in H.
  rewrite !length_append in H. destruct sep; [discriminate|]. simpl in H. lia.
Qed.

Lemma cut_empty sep : truthy sep = true -> cut sep "" = None.
Proof. destruct sep; [discriminate | reflexivity]. Qed.

Lemma length_zero (s : string) : String.length s <= 0 -> s = "".
Proof. destruct s; simpl; [reflexivity | lia]. Qed.

Lemma splitFuel_enough sep :
  truthy sep = true ->
  forall f f' s, String.length s <= f -> String.length s <= f' ->
                 splitFuel f sep s = splitFuel f' sep s.
Proof.
  intros Hs. induction f as [|f IH]; intros f' s L L'.
  - apply length_zero in L. subst s. destruct f'; [reflexivity|].
    cbn [splitFuel]. now rewrite cut_empty.
  - destruct f' as [|f'].
    + apply length_zero in L'. subst s. cbn [splitFuel]. now rewrite cut_empty.
    + cbn [splitFuel]. destruct (cut sep s) as [[x y]|] eqn:E; [|reflexivity].
      pose proof (cut_shorter sep s x y Hs E). f_equal. apply IH; lia.
Qed.

Lemma splitFuel_nonempty f sep s : splitFuel f sep s <> [].
Proof. destruct f; simpl; [discriminate|]. destruct (cut sep s) as [[x y]|]; discriminate. Qed.

Lemma removelast_cons {A} (x : A) l : l <> [] -> removelast (x :: l) = x :: removelast l.
Proof. destruct l; [contradiction | reflexivity]. Qed.

Lemma last_cons {A} (x : A) l d : l <> [] -> last (x :: l) d = last l d.
Proof. destruct l; [contradiction | reflexivity]. Qed.

Lemma last_app_nonempty {A} (l l' : list A) d : l' <> [] -> last (l ++ l') d = last l' d.
Proof.
  intros H. induction l as [|x l IH]; [reflexivity|].
  cbn [app]. rewrite last_cons; [exact IH|].
  destruct l; [exact H | discriminate].
Qed.

Lemma split_app_fuel sep b :
  truthy sep = true ->
  forall f a, String.length a <= f ->
    split sep (a ++ b)
    = (removelast (splitFuel f sep a) ++ split sep (last (splitFuel f sep a) "" ++ b))%list.
Proof.
  intros Hs. induction f as [|f IH]; intros a L.
  - apply length_zero in L. subst a. reflexivity.
  - cbn [splitFuel]. destruct (cut sep a) as [[x y]|] eqn:E; [|reflexivity].
    rewrite removelast_cons, last_cons by apply splitFuel_nonempty.
    pose proof (cut_shorter sep a x y Hs E) as Hy.
    rewrite <- app_comm_cons, <- IH by lia.
    unfold split at 1.
    pose proof (cut_app sep a x y b E) as E'.
    pose proof (cut_shorter sep _ x _ Hs E') as Hy'.
    destruct (String.length (a ++ b)) as [|n] eqn:En; [lia|].
    cbn [splitFuel]. rewrite E'. f_equal.
    unfold split. apply splitFuel_enough; [exact Hs | lia | lia].
Qed.

Lemma split_app sep a b :
  truthy sep = true ->
  split sep (a ++ b)
  = (removelast (split sep a) ++ split sep (last (split sep a) "" ++ b))%list.
Proof. intros Hs. apply split_app_fuel; [exact Hs | unfold split; lia]. Qed.

Lemma concat_app l r : concat (l ++ r) = concat l ++ concat r.
Proof. induction l as [|x l IH]; simpl; [reflexivity | now rewrite IH, append_assoc]. Qed.

Section SSEProofs.

Variable Payload : Type.

Variable parse : string -> option Payload.

Lemma fold_onChunk chunks : forall buffer out seen,
  buffer = last (split (nl ++ nl) seen) "" ->
  out = flat_map (dataLines Payload parse) (removelast (split (nl ++ nl) seen)) ->
  let st := fold_left (onChunk Payload parse) chunks (buffer, out) in
  fst st = last (split (nl ++ nl) (seen ++ concat chunks)) ""
  /\ snd st = flat_map (dataLines Payload parse)
                (removelast (split (nl ++ nl) (seen ++ concat chunks))).
Proof.
  induction chunks as [|chunk r IH]; intros buffer out seen Hb Ho; cbv zeta.
  - simpl. rewrite append_nil_r. auto.
  - cbn [fold_left concat]. rewrite <- append_assoc.
    apply IH; unfold onChunk; cbn [fst snd]; subst buffer out.
    + rewrite (split_app (nl ++ nl) seen chunk) by reflexivity.
      rewrite last_app_nonempty by apply splitFuel_nonempty. reflexivity.
    + rewrite (split_app (nl ++ nl) seen chunk) by reflexivity.
      rewrite removelast_app by apply splitFuel_nonempty.
      now rewrite flat_map_app.
Qed.

End SSEProofs.

(** X21: what [readSSE] yields depends on the bytes received, not on how
    the network cut them into chunks: it is the payloads of the data lines
    of every event closed by a blank line.  The text after the last blank
    line is never parsed, so a stream without one yields nothing. *)
Theorem readSSE_chunking (Payload : Type) (parse : string -> option Payload)
    (chunks : list string) :
  readSSE Payload parse chunks
  = flat_map (dataLines Payload parse)
      (removelast (split (nl ++ nl) (concat chunks)))
  /\ (forall chunks', concat chunks' = concat chunks ->
        readSSE Payload parse chunks' = readSSE Payload parse chunks)
  /\ (cut (nl ++ nl) (concat chunks) = None -> readSSE Payload parse chunks = []).
Proof.
  assert (H : forall cs, readSSE Payload parse cs
                         = flat_map (dataLines Payload parse)
                             (removelast (split (nl ++ nl) (concat cs)))).
  { intros cs. unfold readSSE.
    destruct (fold_onChunk Payload parse cs "" [] "" eq_refl eq_refl) as [_ H].
    exact H. }
  split; [apply H | split].
  - intros chunks' E. now rewrite !H, E.
  - intros Hc. rewrite H. unfold split.
    destruct (String.length (concat chunks)); cbn [splitFuel]; [reflexivity|].
    now rewrite Hc.
Qed.

(** [AppSettings] over the local storage. *)

Lemma lookup_setItem k k' v s :
  lookup k (setItem k' v s) = if String.eqb k k' then Some v else lookup k s.
Proof.
  induction s as [|[k1 v1] r IH]; simpl.
  - reflexivity.
  - destruct (String.eqb_spec k1 k') as [->|Hne]; simpl.
    + now destruct (String.eqb k k').
    + rewrite IH. destruct (String.eqb_spec k k1) as [->|]; [|reflexivity].
      destruct (String.eqb_spec k1 k'); [contradiction | reflexivity].
Qed.

Lemma own_keys_apart key key' k k' :
  lookup key keys = Some k -> lookup key' keys = Some k' -> key' <> key -> k' <> k.
Proof.
  intros Hk Hk' Hne ->. apply Hne.
  unfold keys in Hk, Hk'. cbn [lookup] in Hk, Hk'.
  repeat match type of Hk with
         | context [String.eqb key ?c] => destruct (String.eqb_spec key c)
         end; try discriminate Hk;
  repeat match type of Hk' with
         | context [String.eqb key' ?c] => destruct (String.eqb_spec key' c)
         end; try discriminate Hk'; subst; try reflexivity;
  injection Hk as <-; discriminate Hk'.
Qed.

(** X22: [AppSettings.get] after [AppSettings.set] gives the stored value
    (the default for an empty one) and leaves the items of other names
    alone, the four settings having items of their own.  The guard
    [this.keys[key]] also finds what every object inherits: a name such as
    constructor is stored as well, under the text of the inherited value.
    A name that is neither a setting nor inherited, as layers, ctx and
    temp, is never stored and reads as the default. *)
Theorem settings_round_trip (textOf : string -> string)
    (key val defaultVal : string) (s : Storage) :
  (forall k, itemName textOf key = Some k ->
     get textOf key defaultVal (set textOf key val s)
     = (if truthy val then val else defaultVal)
     /\ forall key' k', itemName textOf key' = Some k' -> k' <> k ->
          get textOf key' defaultVal (set textOf key val s) = get textOf key' defaultVal s)
  /\ (forall key' k k', lookup key keys = Some k -> lookup key' keys = Some k' ->
        key' <> key -> k' <> k)
  /\ (itemName textOf key = None ->
      set textOf key val s = s /\ get textOf key defaultVal s = defaultVal)
  /\ (In key ["layers"; "ctx"; "temp"] -> itemName textOf key = None)
  /\ (In key inherited -> itemName textOf key = Some (textOf key)).
Proof.
  split; [|split; [|split; [|split]]].
  - intros k Hk. unfold get, set. rewrite Hk, lookup_setItem, String.eqb_refl.
    split; [reflexivity|].
    intros key' k' Hk' Hne. rewrite Hk', lookup_setItem.
    apply String.eqb_neq in Hne. now rewrite Hne.
  - intros key' k k'. apply own_keys_apart.
  - intros Hk. unfold get, set. now rewrite Hk.
  - intros [<-|[<-|[<-|[]]]]; reflexivity.
  - intros Hin. unfold inherited in Hin. cbn [In] in Hin.
    repeat (destruct Hin as [<-|Hin]; [reflexivity|]). destruct Hin.
Qed.

Lemma substring_skip d : forall n r, substring (String.length d) n (d ++ r) = substring 0 n r.
Proof. induction d as [|c d IH]; intros n r; simpl; [reflexivity | apply IH]. Qed.

Lemma substring_head : forall n r, exists rest, r = substring 0 n r ++ rest.
Proof.
  induction n as [|n IH]; intros r.
  - exists r. now destruct r.
  - destruct r as [|c r]; [exists ""; reflexivity|].
    destruct (IH r) as [rest E]. exists rest. simpl. now rewrite <- E.
Qed.

Lemma substring_head_length : forall n r,
  String.length (substring 0 n r) = Nat.min n (String.length r).
Proof.
  induction n as [|n IH]; intros r; [now destruct r|].
  destruct r as [|c r]; [reflexivity|]. simpl. now rewrite IH.
Qed.

Lemma chunkSize_pos diff : 1 <= chunkSize diff.
Proof. unfold chunkSize. repeat destruct (_ <? _); lia. Qed.

(** X23: the typing timer of [api.chat] always shows a prefix of the
    reply received so far, also when more arrives before the next tick;
    each tick shows strictly more until nothing is left, as many ticks as
    characters remain always suffice, and a fully shown reply does not
    change. *)
Theorem typeInterval_shows_a_growing_prefix received shown rest :
  received = shown ++ rest ->
  (exists rest', received = typeInterval received shown ++ rest'
                 /\ String.length rest' <= String.length rest
                 /\ (rest <> "" -> String.length rest' < String.length rest))
  /\ (forall more, exists rest', received ++ more = typeInterval (received ++ more) shown ++ rest')
  /\ Nat.iter (String.length rest) (typeInterval received) shown = received
  /\ typeInterval received received = received.
Proof.
  intros E.
  assert (Step : forall a d r, a = d ++ r ->
            exists r', a = typeInterval a d ++ r'
                       /\ String.length r' <= String.length r
                       /\ (r <> "" -> String.length r' < String.length r)).
  { intros a d r Ea. unfold typeInterval. rewrite Ea, length_append.
    destruct (String.length d <? String.length d + String.length r) eqn:L.
    - apply Nat.ltb_lt in L. cbv zeta. rewrite substring_skip.
      set (n := chunkSize _). pose proof (chunkSize_pos (String.length d + String.length r - String.length d)) as Hn.
      fold n in Hn.
      destruct (substring_head n r) as [r' Er]. exists r'.
      rewrite append_assoc, <- Er. split; [reflexivity|].
      pose proof (f_equal String.length Er) as El.
      rewrite length_append, substring_head_length in El. split; intros; lia.
    - apply Nat.ltb_ge in L. assert (String.length r = 0) by lia.
      exists r. split; [reflexivity|]. split; [lia|].
      intros Hr. destruct r; [contradiction | simpl in *; lia]. }
  split; [now apply Step|]. split; [|split].
  - intros more. destruct (Step (received ++ more) shown (rest ++ more)) as (r' & H & _).
    + now rewrite E, append_assoc.
    + exists r'. exact H.
  - clear -E Step. remember (String.length rest) as n eqn:Hn.
    assert (Hle : String.length rest <= n) by lia. clear Hn.
    revert shown rest E Hle.
    induction n as [|n IH]; intros shown rest E Hle.
    + destruct rest; [|simpl in Hle; lia]. simpl. now rewrite E, append_nil_r.
    + rewrite Nat.iter_succ_r.
      destruct (Step received shown rest E) as (r' & E' & L1 & L2).
      apply (IH _ r' E').
      destruct rest as [|c rest]; [simpl in *; lia|].
      assert (String.length r' < String.length (String c rest)) by (apply L2; discriminate).
      lia.
  - unfold typeInterval. now rewrite Nat.ltb_irrefl.
Qed.

End Helpers.

(** ** The stored name as a replacement pattern *)

Section StoredName.
Import FRT Utils.

Lemma getSubstitution_plain repl m b a :
  hasChar "$" repl = false -> getSubstitution repl m b a = repl.
Proof.
  induction repl as [|c r IH]; intros H; [reflexivity|].
  cbn [hasChar] in H. apply orb_false_iff in H as [Hc Hr].
  cbn [getSubstitution]. rewrite Hc. now rewrite IH.
Qed.

Lemma matchName_cut s :
  matchName s = match stripPrefix "{name}" s with Some _ => Some 6 | None => None end.
Proof. unfold matchName, startsWith. now destruct (stripPrefix "{name}" s). Qed.

(** Dropping the rest of a match. *)

Lemma replaceGo_skip m repl : forall a before y,
  replaceGo m repl (String.length a) before (a ++ y) = replaceGo m repl 0 (before ++ a) y.
Proof.
  induction a as [|c a IH]; intros before y.
  - simpl. rewrite append_nil_r. now destruct y.
  - cbn [String.length append replaceGo]. rewrite IH.
    now rewrite append_assoc.
Qed.

Lemma substring_zero s : substring 0 0 s = "".
Proof. now destruct s. Qed.

Section Literal.

Variable repl : string.

(** What the replacement text expands to at a match. *)

Variable expansion : string.

Hypothesis expands : forall b a, getSubstitution repl "{name}" b a = expansion.

Lemma replaceGo_none : forall s before,
  cut "{name}" s = None -> replaceGo matchName repl 0 before s = s.
Proof.
  induction s as [|c r IH]; intros before H; [reflexivity|].
  cbn [cut] in H. cbn [replaceGo]. rewrite matchName_cut.
  destruct (stripPrefix "{name}" (String c r)); [discriminate|].
  destruct (cut "{name}" r) as [[x y]|] eqn:E; [discriminate|].
  now rewrite IH.
Qed.

Lemma replaceGo_some : forall s before x y,
  cut "{name}" s = Some (x, y) ->
  replaceGo matchName repl 0 before s
  = x ++ expansion ++ replaceGo matchName repl 0 (before ++ x ++ "{name}") y.
Proof.
  induction s as [|c r IH]; intros before x y H; [discriminate H|].
  cbn [cut] in H. cbn [replaceGo]. rewrite matchName_cut.
  destruct (stripPrefix "{name}" (String c r)) as [rest|] eqn:E.
  - injection H as <- <-. apply stripPrefix_spec in E.
    cbn [append] in E. injection E as -> ->.
    cbn [substring]. rewrite substring_zero, expands. cbn [append]. f_equal.
    etransitivity;
      [apply (replaceGo_skip matchName repl "name}" (before ++ "{") rest)|].
    now rewrite !append_assoc.
  - destruct (cut "{name}" r) as [[x' y']|] eqn:Ec; [|discriminate].
    injection H as <- <-. rewrite (IH _ x' y' eq_refl). cbn [append].
    now rewrite !append_assoc.
Qed.

Lemma join_cons sep x l : l <> [] -> join sep (x :: l) = x ++ sep ++ join sep l.
Proof. destruct l; [contradiction | reflexivity]. Qed.

Lemma replaceGo_split : forall f s before,
  String.length s <= f ->
  replaceGo matchName repl 0 before s = join expansion (splitFuel f "{name}" s).
Proof.
  induction f as [|f IH]; intros s before L.
  - apply length_zero in L. now subst s.
  - cbn [splitFuel]. destruct (cut "{name}" s) as [[x y]|] eqn:E.
    + rewrite (replaceGo_some s before x y E).
      rewrite join_cons by apply splitFuel_nonempty.
      pose proof (cut_shorter "{name}" s x y eq_refl E).
      rewrite IH by lia. reflexivity.
    + cbn [join]. now apply replaceGo_none.
Qed.

Lemma replaceAll_split s :
  replaceAll matchName repl s = join expansion (split "{name}" s).
Proof. unfold replaceAll, split. now apply replaceGo_split. Qed.

End Literal.

Lemma join_split_id : forall f s,
  String.length s <= f -> join "{name}" (splitFuel f "{name}" s) = s.
Proof.
  induction f as [|f IH]; intros s L.
  - reflexivity.
  - cbn [splitFuel]. destruct (cut "{name}" s) as [[x y]|] eqn:E; [|reflexivity].
    rewrite join_cons by apply splitFuel_nonempty.
    pose proof (cut_shorter "{name}" s x y eq_refl E).
    rewrite IH by lia. symmetry. now apply cut_spec.
Qed.

(** X24: [replaceNamePlaceholder] passes the stored name to [replaceAll]
    as a replacement pattern.  A name without a dollar sign replaces every
    placeholder literally; the name "$&" puts the placeholder back, and
    the name "$$" is shown as a single dollar sign. *)
Theorem stored_name_is_a_replacement_pattern (txt : string) (w : World) :
  let name := orItem (userPreferredName w) (user_preferred_name (session w)) in
  truthy name = true ->
  limitedTrack (track (frt w)) = true ->
  nameUsed (track (frt w)) (frt w) = false ->
  (hasChar "$" name = false ->
   fst (replaceNamePlaceholder txt w) = join name (split "{name}" txt))
  /\ (name = "$&" -> fst (replaceNamePlaceholder txt w) = txt)
  /\ (name = "$$" ->
      fst (replaceNamePlaceholder txt w) = join "$" (split "{name}" txt)).
Proof.
  intros name Hn Hl Hu.
  assert (E : fst (replaceNamePlaceholder txt w) = replaceAll matchName name txt).
  { unfold replaceNamePlaceholder. fold name. rewrite Hn, Hl, Hu.
    assert (Hi : track_eqb (track (frt w)) intro || track_eqb (track (frt w)) model = false)
      by (destruct (track (frt w)); try discriminate Hl; reflexivity).
    rewrite Hi, andb_false_r. reflexivity. }
  rewrite E. split; [|split].
  - intros Hd. apply replaceAll_split. intros b a. now apply getSubstitution_plain.
  - intros ->. rewrite (replaceAll_split "$&" "{name}") by reflexivity.
    unfold split. now apply join_split_id.
  - intros ->. now rewrite (replaceAll_split "$$" "$") by reflexivity.
Qed.

End StoredName.

(** The helpers on sample data. *)

Section HelpersRun.
Import FRT Run Utils.

Lemma escapeHtml_safe_witness :
  escapeHtml "Toronto, ON" = "Toronto, ON".
Proof.
  destruct escapeHtml_safe as (_ & _ & _ & H).
  apply H. intros c Hc.
  destruct Hc as [<-|[<-|[<-|[<-|[<-|[]]]]]]; vm_compute; reflexivity.
Defined.

Lemma readSSE_chunking_witness :
  readSSE string Some ["data: a" ++ nl; nl ++ "data: b" ++ nl ++ nl ++ "data: c"]
  = ["a"; "b"].
Proof.
  destruct (readSSE_chunking string Some
              ["data: a" ++ nl ++ nl ++ "data: b" ++ nl ++ nl ++ "data: c"]) as (_ & H & _).
  rewrite (H ["data: a" ++ nl; nl ++ "data: b" ++ nl ++ nl ++ "data: c"]);
    vm_compute; reflexivity.
Defined.

Lemma settings_round_trip_witness :
  let textOf := fun name => "function " ++ name ++ "() { [native code] }" in
  get textOf "accent" "#ffffff" (set textOf "accent" "#00ff88" []) = "#00ff88"
  /\ set textOf "temp" "0.7" [] = []
  /\ get textOf "constructor" "" (set textOf "constructor" "0.7" []) = "0.7".
Proof.
  cbv zeta.
  destruct (settings_round_trip (fun name => "function " ++ name ++ "() { [native code] }")
              "accent" "#00ff88" "#ffffff" []) as (H1 & _).
  destruct (settings_round_trip (fun name => "function " ++ name ++ "() { [native code] }")
              "temp" "0.7" "" []) as (_ & _ & H2 & H3 & _).
  destruct (settings_round_trip (fun name => "function " ++ name ++ "() { [native code] }")
              "constructor" "0.7" "" []) as (H4 & _ & _ & _ & H5).
  split; [|split].
  - apply (H1 "local_ai_accent"). reflexivity.
  - apply H2. apply H3. simpl. tauto.
  - apply (H4 _ (H5 (or_introl eq_refl))).
Defined.

Lemma typeInterval_shows_a_growing_prefix_witness :
  typeInterval "Four, matey." "Four" = "Four,"
  /\ Nat.iter 8 (typeInterval "Four, matey.") "Four" = "Four, matey.".
Proof.
  destruct (typeInterval_shows_a_growing_prefix "Four, matey." "Four" ", matey.") as (_ & _ & H & _).
  - reflexivity.
  - split; [vm_compute; reflexivity | exact H].
Defined.

End HelpersRun.

(** The name of the sample run, and a name that is a pattern. *)

Section StoredNameRun.
Import FRT Run.

Lemma stored_name_is_a_replacement_pattern_witness :
  fst (replaceNamePlaceholder "Thanks, {name}." stored) = "Thanks, Rishi."
  /\ fst (replaceNamePlaceholder "Thanks, {name}."
            (set_userPreferredName "$&" stored)) = "Thanks, {name}.".
Proof.
  pose proof (stored_name_is_a_replacement_pattern "Thanks, {name}." stored) as H.
  pose proof (stored_name_is_a_replacement_pattern "Thanks, {name}."
                (set_userPreferredName "$&" stored)) as H'.
  cbv zeta in H, H'.
  destruct H as (H1 & _); [vm_compute; reflexivity ..|].
  destruct H' as (_ & H2 & _); [vm_compute; reflexivity ..|].
  split.
  - rewrite H1; vm_compute; reflexivity.
  - apply H2. vm_compute; reflexivity.
Defined.

End StoredNameRun.
